(** * GLB Transform: pipeline builder, batch orchestration and report navigation

    A shallow embedding of the TypeScript sources of the extension
    (the advanced transform command, [utils.ts] and [glb-inspect.tsx]),
    together with the properties of its specification.

    Conventions of the embedding.
    - A JavaScript string is a [string] (a sequence of bytes, UTF-8 for the
      characters outside ASCII).  The path separator, the quote, the letters
      of [".glb"] and the ASCII blanks are single bytes that never occur inside
      the encoding of another character, so the functions below see them
      exactly where the program does.
    - File sizes, counts and list indices are integers ([Z]); they stay far
      below 2^53, where JavaScript's numbers are exact.  The divisions the
      program does in floating point (the percentage saved, the size scaled
      to its unit) are embedded with the Standard Library's specification of
      IEEE 754 binary64 arithmetic, which are the numbers of JavaScript.
    - The host (file system, external commands) is a state [W] threaded through
      every call; an operation that throws returns [inl message]. *)

From Stdlib Require Import ZArith List String Ascii Bool Lia.
From Stdlib Require Import DecimalString Floats Permutation.
Import ListNotations.

Open Scope string_scope.
Open Scope Z_scope.

(** ** Strings of JavaScript *)

Definition chars (s : string) : list ascii := list_ascii_of_string s.
Definition text (l : list ascii) : string := string_of_list_ascii l.

Fixpoint list_eqb (a b : list ascii) : bool :=
  match a, b with
  | [], [] => true
  | x :: a', y :: b' => Ascii.eqb x y && list_eqb a' b'
  | _, _ => false
  end.

Fixpoint startsWith_l (s prefix : list ascii) : bool :=
  match prefix, s with
  | [], _ => true
  | x :: prefix', y :: s' => Ascii.eqb x y && startsWith_l s' prefix'
  | _ :: _, [] => false
  end.

(** [s.endsWith(suffix)] *)
Definition endsWith (s suffix : string) : bool :=
  startsWith_l (rev (chars s)) (rev (chars suffix)).

Fixpoint includes_l (s needle : list ascii) : bool :=
  startsWith_l s needle ||
  match s with
  | [] => false
  | _ :: s' => includes_l s' needle
  end.

(** [s.includes(needle)] *)
Definition includes (s needle : string) : bool :=
  includes_l (chars s) (chars needle).

(** [s.toLowerCase()]: only the letters A-Z matter to the program (it looks
    for the suffix [".glb"]); the bytes of other characters are kept. *)
Definition lowerChar (c : ascii) : ascii :=
  let n := nat_of_ascii c in
  if ((65 <=? n) && (n <=? 90))%nat then ascii_of_nat (n + 32) else c.

Definition toLowerCase (s : string) : string := text (map lowerChar (chars s)).

(** White space of [String.prototype.trim]: the ASCII blanks tab, line feed,
    vertical tab, form feed, carriage return and space, and the other
    WhiteSpace and LineTerminator code points, here in their UTF-8 encoding
    of two or three bytes. *)
Definition isBlank1 (a : nat) : bool :=
  ((9 <=? a) && (a <=? 13) || (a =? 32))%nat.

Definition isBlank2 (a b : nat) : bool :=
  ((a =? 194) && (b =? 160))%nat.                          (* U+00A0 *)

Definition isBlank3 (a b c : nat) : bool :=
  ((a =? 225) && (b =? 154) && (c =? 128)                  (* U+1680 *)
   || (a =? 226) && (b =? 128)
      && ((128 <=? c) && (c <=? 138) || (c =? 168) || (c =? 169) || (c =? 175))
                                        (* U+2000-200A, 2028, 2029, 202F *)
   || (a =? 226) && (b =? 129) && (c =? 159)               (* U+205F *)
   || (a =? 227) && (b =? 128) && (c =? 128)               (* U+3000 *)
   || (a =? 239) && (b =? 187) && (c =? 191))%nat.         (* U+FEFF *)

(** The first byte of an encoding of two or three bytes, and a byte that
    continues one. *)
Definition isLead (a : nat) : bool := ((194 <=? a) && (a <=? 239))%nat.
Definition isContinuation (c : nat) : bool := ((128 <=? c) && (c <=? 191))%nat.

(** [blankPrefix l] is the number of bytes of the blank [l] starts with, 0
    when it starts with none. *)
Definition blankPrefix (l : list ascii) : nat :=
  match l with
  | [] => 0
  | a :: t =>
      if isBlank1 (nat_of_ascii a) then 1
      else if negb (isLead (nat_of_ascii a)) then 0
      else match t with
           | [] => 0
           | b :: t' =>
               if isBlank2 (nat_of_ascii a) (nat_of_ascii b) then 2
               else match t' with
                    | [] => 0
                    | c :: _ =>
                        if isBlank3 (nat_of_ascii a) (nat_of_ascii b) (nat_of_ascii c)
                        then 3 else 0
                    end
           end
  end%nat.

(** The same, read from the end of the string: [r] is the reversed string. *)
Definition blankSuffix (r : list ascii) : nat :=
  match r with
  | [] => 0
  | c :: t =>
      if isBlank1 (nat_of_ascii c) then 1
      else if negb (isContinuation (nat_of_ascii c)) then 0
      else match t with
           | [] => 0
           | b :: t' =>
               if isBlank2 (nat_of_ascii b) (nat_of_ascii c) then 2
               else match t' with
                    | [] => 0
                    | a :: _ =>
                        if isBlank3 (nat_of_ascii a) (nat_of_ascii b) (nat_of_ascii c)
                        then 3 else 0
                    end
           end
  end%nat.

Fixpoint trimWith (blank : list ascii -> nat) (fuel : nat) (l : list ascii)
  : list ascii :=
  match fuel with
  | O => l
  | S fuel' =>
      match blank l with
      | O => l
      | n => trimWith blank fuel' (skipn n l)
      end
  end.

(** [s.trim()] *)
Definition trim (s : string) : string :=
  let l := trimWith blankPrefix (String.length s) (chars s) in
  text (rev (trimWith blankSuffix (List.length l) (rev l))).

(** [String(n)] for a non-negative integer. *)
Definition natText (n : nat) : string := NilEmpty.string_of_uint (Nat.to_uint n).

(** The template [`"${p}"`]. *)
Definition dquote : ascii := "034"%char.
Definition quoted (p : string) : string :=
  String dquote (p ++ String dquote EmptyString).

(** ** Node's [path] module (POSIX flavour, the host is macOS)

    [basename] and [dirname] follow the loops of Node's [lib/path.js]
    statement by statement: the loop index [i] runs from the last character
    down, here over the reversed path [r], whose head is the character at
    index [i = length r - 1].  [normalize] is given by what the loop of
    [normalizeString] computes on the segments between separators. *)
Module Path.

Local Open Scope list_scope.

Definition isPathSeparator (c : ascii) : bool := Ascii.eqb c "/".

(** [path.slice(start, stop)] for [0 <= start]. *)
Definition slice (p : list ascii) (start stop : Z) : list ascii :=
  firstn (Z.to_nat (stop - start)) (skipn (Z.to_nat start) p).

Record scan := mkScan {
  start : Z;
  stop : Z;                (* [end] in the source *)
  matchedSlash : bool;
  extIdx : Z;
  firstNonSlashEnd : Z
}.

(** The loop of [basename(path)], no suffix given. *)
Fixpoint basenameLoop (r : list ascii) (st : scan) : scan :=
  match r with
  | [] => st
  | c :: r' =>
      let i := Z.of_nat (List.length r') in
      if isPathSeparator c then
        if negb (matchedSlash st)
        then mkScan (i + 1) (stop st) (matchedSlash st) (extIdx st) (firstNonSlashEnd st)
        else basenameLoop r' st
      else if stop st =? -1 then
        basenameLoop r' (mkScan (start st) (i + 1) false (extIdx st) (firstNonSlashEnd st))
      else basenameLoop r' st
  end.

Definition basename (p : list ascii) : list ascii :=
  let st := basenameLoop (rev p) (mkScan 0 (-1) true (-1) (-1)) in
  if stop st =? -1 then [] else slice p (start st) (stop st).

(** The loop of [basename(path, suffix)]. *)
Fixpoint basenameExtLoop (suffix : list ascii) (r : list ascii) (st : scan) : scan :=
  match r with
  | [] => st
  | c :: r' =>
      let i := Z.of_nat (List.length r') in
      if isPathSeparator c then
        if negb (matchedSlash st)
        then mkScan (i + 1) (stop st) (matchedSlash st) (extIdx st) (firstNonSlashEnd st)
        else basenameExtLoop suffix r' st
      else
        let st1 :=
          if firstNonSlashEnd st =? -1
          then mkScan (start st) (stop st) false (extIdx st) (i + 1)
          else st in
        let st2 :=
          if 0 <=? extIdx st1 then
            if Ascii.eqb c (nth (Z.to_nat (extIdx st1)) suffix "000"%char) then
              if extIdx st1 - 1 =? -1
              then mkScan (start st1) i (matchedSlash st1) (extIdx st1 - 1)
                          (firstNonSlashEnd st1)
              else mkScan (start st1) (stop st1) (matchedSlash st1) (extIdx st1 - 1)
                          (firstNonSlashEnd st1)
            else mkScan (start st1) (firstNonSlashEnd st1) (matchedSlash st1) (-1)
                        (firstNonSlashEnd st1)
          else st1 in
        basenameExtLoop suffix r' st2
  end.

Definition basenameExt (p suffix : list ascii) : list ascii :=
  if ((0 <? List.length suffix) && (List.length suffix <=? List.length p))%nat then
    if list_eqb suffix p then []
    else
      let st := basenameExtLoop suffix (rev p)
                  (mkScan 0 (-1) true (Z.of_nat (List.length suffix) - 1) (-1)) in
      let stop' :=
        if start st =? stop st then firstNonSlashEnd st
        else if stop st =? -1 then Z.of_nat (List.length p)
        else stop st in
      slice p (start st) stop'
  else basename p.

(** The loop of [dirname]: [i] stops at 1, so the first character is not
    scanned.  The result is the value of [end], [-1] when no separator ends
    a directory part. *)
Fixpoint dirnameLoop (r : list ascii) (matched : bool) : Z :=
  match r with
  | [] | [_] => -1
  | c :: r' =>
      let i := Z.of_nat (List.length r') in
      if isPathSeparator c then
        if negb matched then i else dirnameLoop r' matched
      else dirnameLoop r' false
  end.

Definition dirname (p : list ascii) : list ascii :=
  match p with
  | [] => ["."%char]
  | c0 :: _ =>
      let hasRoot := isPathSeparator c0 in
      let stop := dirnameLoop (rev p) true in
      if stop =? -1 then (if hasRoot then ["/"%char] else ["."%char])
      else if hasRoot && (stop =? 1) then ["/"%char; "/"%char]
      else slice p 0 stop
  end.

(** The segments between separators: ["a//b"] has the segments [a], the
    empty one and [b]. *)
Fixpoint segments (p : list ascii) : list (list ascii) :=
  match p with
  | [] => [[]]
  | c :: p' =>
      if isPathSeparator c then [] :: segments p'
      else match segments p' with
           | s :: ss => (c :: s) :: ss
           | [] => [[c]]
           end
  end.

Definition dot : list ascii := ["."%char].
Definition dotdot : list ascii := ["."%char; "."%char].

(** One segment of [normalizeString]; [res] holds the segments kept so far,
    the last one first.  An empty segment and ["."] are dropped; [".."]
    removes the last kept segment unless there is none or it is [".."]
    itself, and is then kept only above a relative path; any other segment
    is kept. *)
Definition normalizeStep (allowAboveRoot : bool) (res : list (list ascii))
    (seg : list ascii) : list (list ascii) :=
  if list_eqb seg [] || list_eqb seg dot then res
  else if list_eqb seg dotdot then
    match res with
    | top :: res' =>
        if list_eqb top dotdot
        then (if allowAboveRoot then dotdot :: res else res)
        else res'
    | [] => if allowAboveRoot then [dotdot] else []
    end
  else seg :: res.

Fixpoint joinSegments (segs : list (list ascii)) : list ascii :=
  match segs with
  | [] => []
  | [s] => s
  | s :: segs' => s ++ "/"%char :: joinSegments segs'
  end.

Definition normalizeString (p : list ascii) (allowAboveRoot : bool) : list ascii :=
  joinSegments (rev (fold_left (normalizeStep allowAboveRoot) (segments p) [])).

Definition normalize (p : list ascii) : list ascii :=
  match p with
  | [] => dot
  | c0 :: _ =>
      let isAbsolute := isPathSeparator c0 in
      let trailingSeparator := isPathSeparator (last p "000"%char) in
      let res := normalizeString p (negb isAbsolute) in
      match res with
      | [] => if isAbsolute then ["/"%char]
              else if trailingSeparator then ["."%char; "/"%char] else dot
      | _ =>
          let res' := if trailingSeparator then res ++ ["/"%char] else res in
          if isAbsolute then "/"%char :: res' else res'
      end
  end.

(** [join(a, b)]: the non-empty arguments, separated by ["/"], normalized. *)
Definition join (a b : list ascii) : list ascii :=
  match a, b with
  | [], [] => dot
  | [], _ => normalize b
  | _, [] => normalize a
  | _, _ => normalize (a ++ "/"%char :: b)
  end.

End Path.

Definition path_basename (p : string) : string := text (Path.basename (chars p)).
Definition path_basename_ext (p ext : string) : string :=
  text (Path.basenameExt (chars p) (chars ext)).
Definition path_dirname (p : string) : string := text (Path.dirname (chars p)).
Definition path_join (a b : string) : string := text (Path.join (chars a) (chars b)).

(** ** Numbers of JavaScript

    A [number] is an IEEE 754 binary64 value; the operations are those of
    the Standard Library's specification of the format. *)
Definition number := spec_float.
Definition ofZ (z : Z) : number := binary_normalize prec emax z 0 false.
Definition num_div (x y : number) : number := SFdiv prec emax x y.
Definition num_mul (x y : number) : number := SFmul prec emax x y.

(** [String(n)] for an integer [0 <= n]. *)
Definition digitsText (n : Z) : string := NilZero.string_of_uint (N.to_uint (Z.to_N n)).

Fixpoint zeros (n : nat) : string :=
  match n with
  | O => EmptyString
  | S n' => String "0" (zeros n')
  end.

(** The integer [n] for which [n / 10^f] is nearest to [m * 2^e]; of two
    such integers the larger ([Number.prototype.toFixed], step 10.a). *)
Definition nearestScaled (f : nat) (m : positive) (e : Z) : Z :=
  if 0 <=? e then Zpos m * 2 ^ e * 10 ^ Z.of_nat f
  else (2 * Zpos m * 10 ^ Z.of_nat f + 2 ^ (- e)) / (2 * 2 ^ (- e)).

(** The digits of [n] with a point before the last [f] of them. *)
Definition fixedDigits (f : nat) (n : Z) : string :=
  let m := digitsText n in
  if (f =? 0)%nat then m
  else
    let m' := if (String.length m <=? f)%nat
              then zeros (f + 1 - String.length m) ++ m else m in
    let k := String.length m' in
    substring 0 (k - f) m' ++ "." ++ substring (k - f) f m'.

(** [Number::toString] for an integer [X >= 10^21], the value of [x]: the
    shortest digits [s] (there are [k] of them) with [s * 10^(n-k)] read
    back as [x], the nearest to [X] when two qualify, then the even one;
    printed as [d.ddde+(n-1)]. *)
Definition readsBack (x : number) (v : Z) : bool :=
  match SFcompare (ofZ v) x with Some Eq => true | _ => false end.

Fixpoint shortestDigits (fuel k : nat) (x : number) (X : Z) (n : nat) : Z * nat :=
  match fuel with
  | O => (X, n)
  | S fuel' =>
      let scale := 10 ^ Z.of_nat (n - k) in
      let lo := X / scale in
      let hi := lo + 1 in
      let okLo := readsBack x (lo * scale) in
      let okHi := readsBack x (hi * scale) in
      let up := if hi =? 10 ^ Z.of_nat k then (10 ^ Z.of_nat (k - 1), S n) else (hi, n) in
      if okLo && okHi then
        if X - lo * scale <? hi * scale - X then (lo, n)
        else if hi * scale - X <? X - lo * scale then up
        else if Z.even lo then (lo, n) else up
      else if okLo then (lo, n)
      else if okHi then up
      else shortestDigits fuel' (S k) x X n
  end.

Definition exponentText (x : number) (X : Z) : string :=
  let n := String.length (digitsText X) in
  let '(s, n') := shortestDigits 17 1 x X n in
  let d := digitsText s in
  let e := "e+" ++ digitsText (Z.of_nat n' - 1) in
  match d with
  | String c EmptyString => String c e
  | String c rest => String c ("." ++ rest ++ e)
  | EmptyString => e
  end.

(** [x.toFixed(f)] *)
Definition toFixed (f : nat) (x : number) : string :=
  match x with
  | S754_nan => "NaN"
  | S754_infinity s => if s then "-Infinity" else "Infinity"
  | S754_zero _ => fixedDigits f 0
  | S754_finite s m e =>
      (if s then "-" else EmptyString) ++
      (if (0 <=? e) && (10 ^ 21 <=? Zpos m * 2 ^ e)
       then exponentText (S754_finite false m e) (Zpos m * 2 ^ e)
       else fixedDigits f (nearestScaled f m e))
  end.

Fixpoint dropZeros (r : list ascii) : list ascii :=
  match r with
  | "0"%char :: r' => dropZeros r'
  | "."%char :: r' => r'
  | _ => r
  end.

(** [String(parseFloat(s))] for the text [s] of [toFixed(2)]: the same
    decimal without the zeros that end its fraction, and without the point
    when no fraction is left; ["NaN"], ["Infinity"] and the exponent form
    are read and printed back as they are. *)
Definition parseFloatText (s : string) : string :=
  if includes s "." && negb (includes s "e") then
    let t := text (rev (dropZeros (rev (chars s)))) in
    if String.eqb t "-0" then "0" else t
  else s.

(** ** [utils.ts] *)

Record CompressionResult := mkResult {
  file : string;
  success : bool;
  error : option string;
  originalSize : option Z;
  compressedSize : option Z
}.

Definition k : Z := 1024.
Definition sizes : list string := ["Bytes"; "KB"; "MB"; "GB"].

(** [Math.floor(Math.log(bytes) / Math.log(k))] for an integer [bytes]:
    [None] when it is no integer, that is NaN, from the logarithm of a
    negative number (and minus infinity at 0, which [formatBytes] never
    asks for); for [1 <= bytes] the quotient is taken as the exact logarithm
    in base [k = 2^10], whose floor is the binary logarithm's divided by 10.
    The binary64 quotient has this floor from 1 up to [2^40], that is over
    the whole range of the four units and at the first size past it.  Far
    above the table the rounding of the quotient can reach the next integer
    early (just below [2^50] the program finds 5 where the exact floor is
    4): of the index of a size from [1024^4] on, the properties below use
    only that it is no index of the table. *)
Definition unitIndex (bytes : Z) : option Z :=
  if bytes <=? 0 then None else Some (Z.log2 bytes / 10).

(** [Math.pow(k, i)] *)
Definition powK (i : option Z) : number :=
  match i with
  | None => S754_nan
  | Some i => ofZ (k ^ i)
  end.

(** [sizes[i]]: [None] is [undefined]. *)
Definition sizesAt (i : option Z) : option string :=
  match i with
  | Some i => if i <? 0 then None else nth_error sizes (Z.to_nat i)
  | None => None
  end.

(** An array element in a string concatenation. *)
Definition elementText (u : option string) : string :=
  match u with
  | Some s => s
  | None => "undefined"
  end.

Definition formatBytes (bytes : Z) : string :=
  if bytes =? 0 then "0 Bytes"
  else
    let i := unitIndex bytes in
    parseFloatText (toFixed 2 (num_div (ofZ bytes) (powK i)))
      ++ " " ++ elementText (sizesAt i).

Inductive CompressionMode := draco | ktx | full.

Definition modeText (mode : CompressionMode) : string :=
  match mode with
  | draco => "draco"
  | ktx => "ktx"
  | full => "full"
  end.

(** [mode === "full" ? "_compressed" : `_${mode}`] *)
Definition modeSuffix (mode : CompressionMode) : string :=
  match mode with
  | full => "_compressed"
  | _ => "_" ++ modeText mode
  end.

Definition compressOutputPath (filePath : string) (mode : CompressionMode) : string :=
  let dirName := path_dirname filePath in
  let baseName := path_basename_ext filePath ".glb" in
  path_join dirName (baseName ++ modeSuffix mode ++ ".glb").

Definition compressCommand (filePath : string) (mode : CompressionMode) : string :=
  let outputPath := compressOutputPath filePath mode in
  match mode with
  | draco =>
      "gltf-transform optimize " ++ quoted filePath ++ " " ++ quoted outputPath
        ++ " --compress draco"
  | ktx =>
      "gltf-transform optimize " ++ quoted filePath ++ " " ++ quoted outputPath
        ++ " --texture-compress ktx2"
  | full =>
      "gltf-transform optimize " ++ quoted filePath ++ " " ++ quoted outputPath
        ++ " --compress draco --texture-compress ktx2"
  end.

(** ** The advanced transform: the pipeline builder *)

Record FormValues := mkFormValues {
  geometryCompression : string;
  textureCompression : string;
  textureResize : string;
  dedup : bool;
  flatten : bool;
  join : bool;
  weld : bool;
  prune : bool;
  resample : bool;
  sparse : bool;
  instance : bool;
  instanceMin : string;
  palette : bool;
  paletteMin : string;
  simplify : bool;
  simplifyRatio : string;
  simplifyError : string
}.

(** One call of [addCommand]: the sub-command, its arguments, and the input
    and output the command line names. *)
Record TransformStep := mkStep {
  cmd : string;
  args : string;
  input : string;
  output : string
}.

(** The command line [addCommand] pushes. *)
Definition commandText (s : TransformStep) : string :=
  trim ("gltf-transform " ++ cmd s ++ " " ++ input s ++ " " ++ output s ++ " " ++ args s).

(** The two variables [addCommand] closes over. *)
Record builder := mkBuilder {
  commands : list TransformStep;
  currentInput : string
}.

Definition addCommand (out : string) (c a : string) (b : builder) : builder :=
  mkBuilder (commands b ++ [mkStep c a (currentInput b) out])%list out.

(** [if (c) { f }] *)
Definition when (c : bool) (f : builder -> builder) (b : builder) : builder :=
  if c then f b else b.

(** [s || d] on strings: the empty string is falsy. *)
Definition orElse (s d : string) : string :=
  match s with
  | EmptyString => d
  | _ => s
  end.

Definition isNone (s : string) : bool := String.eqb s "none".

Definition transformOutputPath (filePath : string) : string :=
  let dirName := path_dirname filePath in
  let baseName := path_basename_ext filePath ".glb" in
  path_join dirName (baseName ++ "_optimized.glb").

Section Pipeline.

(** [`${parseFloat(s)}`]: the text of the number [parseFloat] reads from [s]. *)
Variable parseFloatTemplate : string -> string.

Definition buildCommands (filePath : string) (values : FormValues) : builder :=
  let out := quoted (transformOutputPath filePath) in
  let b := mkBuilder [] (quoted filePath) in
  let b := when (dedup values) (addCommand out "dedup" EmptyString) b in
  let b := when (instance values)
             (addCommand out "instance" ("--min " ++ orElse (instanceMin values) "5")) b in
  let b := when (palette values)
             (addCommand out "palette" ("--min " ++ orElse (paletteMin values) "5")) b in
  let b := when (flatten values) (addCommand out "flatten" EmptyString) b in
  let b := when (join values) (addCommand out "join" EmptyString) b in
  let b := when (weld values) (addCommand out "weld" EmptyString) b in
  let b := when (simplify values)
             (addCommand out "simplify"
                ("--ratio " ++ parseFloatTemplate (orElse (simplifyRatio values) "0.75"))) b in
  let b := when (resample values) (addCommand out "resample" EmptyString) b in
  let b := when (prune values) (addCommand out "prune" EmptyString) b in
  let b := when (sparse values) (addCommand out "sparse" EmptyString) b in
  let b := when (negb (isNone (textureCompression values)))
             (addCommand out
                (if String.eqb (textureCompression values) "ktx2" then "etc1s"
                 else textureCompression values) EmptyString) b in
  let b := when (negb (isNone (textureResize values)))
             (addCommand out "resize"
                ("--width " ++ textureResize values ++ " --height " ++ textureResize values)) b in
  let b := when (negb (isNone (geometryCompression values)))
             (addCommand out (geometryCompression values) EmptyString) b in
  when (Nat.eqb (List.length (commands b)) 0) (addCommand out "copy" EmptyString) b.

(** The steps of the pipeline and the command lines the program runs. *)
Definition pipeline (filePath : string) (values : FormValues) : list TransformStep :=
  commands (buildCommands filePath values).

Definition commandLines (filePath : string) (values : FormValues) : list string :=
  map commandText (pipeline filePath values).

End Pipeline.

(** ** The host: external commands and the file system

    [W] is the state of the world a call may read and change.  A promise
    that rejects, or a call that throws, yields [inl message], where
    [message] is what the [catch] blocks of the program compute:
    [error instanceof Error ? error.message : String(error)]. *)
Section Host.

Variable W : Type.

Definition M (A : Type) : Type := W -> (string + A) * W.

Definition ret {A} (a : A) : M A := fun w => (inr a, w).

Definition bind {A B} (m : M A) (f : A -> M B) : M B :=
  fun w =>
    match m w with
    | (inl e, w') => (inl e, w')
    | (inr a, w') => f a w'
    end.

Notation "x <- m ;; f" := (bind m (fun x => f))
  (at level 61, m at next level, right associativity).

(** [execAsync(command, execOptions)], resolved with the standard output. *)
Variable execAsync : string -> M string.
(** [getFileSize(filePath)]: [stat], then the size. *)
Variable getFileSize : string -> M Z.
(** [getSelectedFinderItems()], each item by its [path]. *)
Variable getSelectedFinderItems : M (list string).
Variable parseFloatTemplate : string -> string.

(** [for (const command of commands) await execAsync(command, execOptions)] *)
Fixpoint runCommands (cs : list string) : M unit :=
  match cs with
  | [] => ret tt
  | c :: cs' => _ <- execAsync c ;; runCommands cs'
  end.

(** Both [try] blocks end the same way. *)
Definition settle (fileName : string) (body : M (Z * Z)) (w : W)
  : CompressionResult * W :=
  match body w with
  | (inr (o, c), w') => (mkResult fileName true None (Some o) (Some c), w')
  | (inl errorMessage, w') => (mkResult fileName false (Some errorMessage) None None, w')
  end.

Definition transformGlb (filePath : string) (values : FormValues) (w : W)
  : CompressionResult * W :=
  let fileName := path_basename filePath in
  let outputPath := transformOutputPath filePath in
  settle fileName
    (originalSize <- getFileSize filePath ;;
     _ <- runCommands (commandLines parseFloatTemplate filePath values) ;;
     compressedSize <- getFileSize outputPath ;;
     ret (originalSize, compressedSize)) w.

Definition compressGlb (filePath : string) (mode : CompressionMode) (w : W)
  : CompressionResult * W :=
  let fileName := path_basename filePath in
  let outputPath := compressOutputPath filePath mode in
  settle fileName
    (originalSize <- getFileSize filePath ;;
     _ <- execAsync (compressCommand filePath mode) ;;
     compressedSize <- getFileSize outputPath ;;
     ret (originalSize, compressedSize)) w.

(** The loop over [glbFiles]: one result is pushed per file, in order. *)
Fixpoint processAll (one : string -> W -> CompressionResult * W)
    (glbFiles : list string) (w : W) : list CompressionResult * W :=
  match glbFiles with
  | [] => ([], w)
  | f :: fs =>
      let (result, w1) := one f w in
      let (results, w2) := processAll one fs w1 in
      (result :: results, w2)
  end.

Definition isGlb (itemPath : string) : bool := endsWith (toLowerCase itemPath) ".glb".

Definition plural (n : nat) : string := if (1 <? n)%nat then "s" else EmptyString.

(** [rs.reduce((acc, r) => acc + (r.size || 0), 0)] *)
Definition total (size : CompressionResult -> option Z) (rs : list CompressionResult) : Z :=
  fold_left (fun acc r => acc + match size r with Some z => z | None => 0 end) rs 0.

Definition savingsPercent (savings totalOriginal : Z) : string :=
  toFixed 1 (num_mul (num_div (ofZ savings) (ofZ totalOriginal)) (ofZ 100)).

(** The terminal notification of [handleSubmit]. *)
Definition transformSummary (results : list CompressionResult) : string :=
  let successful := filter success results in
  let failed := filter (fun r => negb (success r)) results in
  if (List.length failed =? 0)%nat then
    let totalOriginal := total originalSize successful in
    let totalCompressed := total compressedSize successful in
    let savings := totalOriginal - totalCompressed in
    "✅ Optimized " ++ natText (List.length successful) ++ " file"
      ++ plural (List.length successful) ++ " - Saved " ++ formatBytes savings
      ++ " (" ++ savingsPercent savings totalOriginal ++ "%)"
  else if (List.length successful =? 0)%nat then
    "❌ Failed to optimize " ++ natText (List.length failed) ++ " file"
      ++ plural (List.length failed)
  else
    "⚠️ " ++ natText (List.length successful) ++ " optimized, "
      ++ natText (List.length failed) ++ " failed".

(** The terminal notification of [processGlbFiles]. *)
Definition compressSummary (modeName : string) (results : list CompressionResult) : string :=
  let successful := filter success results in
  let failed := filter (fun r => negb (success r)) results in
  if (List.length failed =? 0)%nat then
    let totalOriginal := total originalSize successful in
    let totalCompressed := total compressedSize successful in
    let savings := totalOriginal - totalCompressed in
    "✅ " ++ modeName ++ ": " ++ natText (List.length successful) ++ " file"
      ++ plural (List.length successful) ++ " - Saved " ++ formatBytes savings
      ++ " (" ++ savingsPercent savings totalOriginal ++ "%)"
  else if (List.length successful =? 0)%nat then
    "❌ Failed to compress " ++ natText (List.length failed) ++ " file"
      ++ plural (List.length failed)
  else
    "⚠️ " ++ natText (List.length successful) ++ " compressed, "
      ++ natText (List.length failed) ++ " failed".

(** [handleSubmit]: the results of the batch, when one ran, and the text of
    the notification shown.  (The progress toast carries only the position
    and the name of the file at hand; it is left out.) *)
Definition handleSubmit (values : FormValues) (w : W)
  : option (list CompressionResult) * string * W :=
  match getSelectedFinderItems w with
  | (inl errorMessage, w') =>
      (None,
       if includes errorMessage "Finder" then "❌ Select files in Finder first"
       else "❌ Error: " ++ errorMessage, w')
  | (inr selectedItems, w') =>
      if (List.length selectedItems =? 0)%nat then (None, "❌ No files selected in Finder", w')
      else
        let glbFiles := filter isGlb selectedItems in
        if (List.length glbFiles =? 0)%nat then (None, "❌ No GLB files selected", w')
        else
          let (results, w'') := processAll (fun f => transformGlb f values) glbFiles w' in
          (Some results, transformSummary results, w'')
  end.

(** [processGlbFiles] *)
Definition processGlbFiles (mode : CompressionMode) (modeName : string) (w : W)
  : option (list CompressionResult) * string * W :=
  match getSelectedFinderItems w with
  | (inl errorMessage, w') =>
      (None,
       if includes errorMessage "Finder"
       then "❌ Could not get Finder selection. Please select files in Finder first."
       else "❌ Error: " ++ errorMessage, w')
  | (inr selectedItems, w') =>
      if (List.length selectedItems =? 0)%nat then (None, "❌ No files selected in Finder", w')
      else
        let glbFiles := filter isGlb selectedItems in
        if (List.length glbFiles =? 0)%nat then (None, "❌ No GLB files selected", w')
        else
          let (results, w'') := processAll (fun f => compressGlb f mode) glbFiles w' in
          (Some results, compressSummary modeName results, w'')
  end.

End Host.

Arguments ret {W A} a w.
Arguments bind {W A B} m f w.

(** ** [glb-inspect.tsx]: stepping through the reports *)

Record InspectionResult := mkInspection {
  inspected : string;              (* [file] *)
  markdown : option string;
  failure : option string          (* [error] *)
}.

(** The two state variables of the view. *)
Record InspectView := mkView {
  results : list InspectionResult;
  selectedFileIndex : Z
}.

(** [results[selectedFileIndex]]; the actions exist only when it is defined. *)
Definition currentResult (v : InspectView) : option InspectionResult :=
  if selectedFileIndex v <? 0 then None
  else nth_error (results v) (Z.to_nat (selectedFileIndex v)).

(** [(i) => (i + 1) % results.length]; [%] takes the sign of the dividend. *)
Definition nextFile (v : InspectView) : InspectView :=
  mkView (results v)
    (Z.rem (selectedFileIndex v + 1) (Z.of_nat (List.length (results v)))).

(** [(i) => (i - 1 + results.length) % results.length] *)
Definition previousFile (v : InspectView) : InspectView :=
  mkView (results v)
    (Z.rem (selectedFileIndex v - 1 + Z.of_nat (List.length (results v)))
       (Z.of_nat (List.length (results v)))).

(** ** The pipeline as the specification words it

    The fixed priority order of the optional steps: for each, whether the
    configuration enables it, then the sub-command and its arguments. *)
Section Priority.

Variable parseFloatTemplate : string -> string.

Definition priorityOrder (values : FormValues) : list (bool * (string * string)) :=
  [ (dedup values, ("dedup", EmptyString));
    (instance values, ("instance", "--min " ++ orElse (instanceMin values) "5"));
    (palette values, ("palette", "--min " ++ orElse (paletteMin values) "5"));
    (flatten values, ("flatten", EmptyString));
    (join values, ("join", EmptyString));
    (weld values, ("weld", EmptyString));
    (simplify values,
      ("simplify", "--ratio " ++ parseFloatTemplate (orElse (simplifyRatio values) "0.75")));
    (resample values, ("resample", EmptyString));
    (prune values, ("prune", EmptyString));
    (sparse values, ("sparse", EmptyString));
    (negb (isNone (textureCompression values)),
      (if String.eqb (textureCompression values) "ktx2" then "etc1s"
       else textureCompression values, EmptyString));
    (negb (isNone (textureResize values)),
      ("resize", "--width " ++ textureResize values ++ " --height " ++ textureResize values));
    (negb (isNone (geometryCompression values)),
      (geometryCompression values, EmptyString)) ].

(** The enabled steps, in the priority order. *)
Definition enabledSteps (values : FormValues) : list (string * string) :=
  map snd (filter fst (priorityOrder values)).

(** What is run: the enabled steps, or the copy when there is none. *)
Definition plannedSteps (values : FormValues) : list (string * string) :=
  match enabledSteps values with
  | [] => [("copy", EmptyString)]
  | steps => steps
  end.

End Priority.

(** One conditional call of [addCommand], read off a row of the table. *)
Definition addEnabled (out : string) (b : builder) (row : bool * (string * string)) : builder :=
  when (fst row) (addCommand out (fst (snd row)) (snd (snd row))) b.

(** Steps chained through one output: the first reads [inp], the others
    read [out]. *)
Fixpoint chain (out inp : string) (steps : list (string * string)) : list TransformStep :=
  match steps with
  | [] => []
  | (c, a) :: steps' => mkStep c a inp out :: chain out out steps'
  end.


(** Configurations with every optional step off. *)
Definition allDisabled (values : FormValues) : Prop :=
  dedup values = false /\ instance values = false /\ palette values = false /\
  flatten values = false /\ join values = false /\ weld values = false /\
  simplify values = false /\ resample values = false /\ prune values = false /\
  sparse values = false /\ textureCompression values = "none" /\
  textureResize values = "none" /\ geometryCompression values = "none".

(** No path separator occurs in [l]. *)
Definition noSlash (l : list ascii) : bool :=
  forallb (fun c => negb (Path.isPathSeparator c)) l.

(** The characters of [".glb"]. *)
Definition glb : list ascii := ["."; "g"; "l"; "b"]%char.

(** ** A small world for examples

    Three models and their optimized copies are on disk with fixed sizes.
    The state is the list of the command lines run so far.  A command fails
    when it reads the file [broken] (so, for the pipeline of that file, its
    first command), with the message Node gives a failed command. *)
Module Demo.

Definition World : Type := list string.

Definition onDisk : list (string * Z) :=
  [ ("/models/a.glb", 100); ("/models/a_optimized.glb", 50);
    ("/models/b.glb", 200); ("/models/b_optimized.glb", 100);
    ("/models/c.glb", 300); ("/models/c_optimized.glb", 150);
    ("/models/empty.glb", 0); ("/models/empty_optimized.glb", 0);
    ("/models/tiny.glb", 100); ("/models/tiny_optimized.glb", 150) ].

Fixpoint lookup (p : string) (l : list (string * Z)) : option Z :=
  match l with
  | [] => None
  | (q, z) :: l' => if String.eqb p q then Some z else lookup p l'
  end.

Definition getFileSize (p : string) : M World Z :=
  fun w =>
    match lookup p onDisk with
    | Some z => (inr z, w)
    | None => (inl ("ENOENT: no such file or directory, stat '" ++ p ++ "'"), w)
    end.

Definition execAsync (broken : option string) (c : string) : M World string :=
  fun w =>
    match broken with
    | Some p =>
        if includes c (quoted p ++ " ")
        then (inl ("Command failed: " ++ c), (w ++ [c])%list)
        else (inr EmptyString, (w ++ [c])%list)
    | None => (inr EmptyString, (w ++ [c])%list)
    end.

Definition getSelectedFinderItems (items : list string) : M World (list string) :=
  fun w => (inr items, w).

(** ["0.75"] and the like are printed back as they are read. *)
Definition parseFloatTemplate (s : string) : string := s.

(** The values the form starts with. *)
Definition values : FormValues :=
  {| geometryCompression := "draco";
     textureCompression := "none";
     textureResize := "none";
     dedup := true; flatten := false; join := false; weld := true;
     prune := true; resample := true; sparse := false;
     instance := false; instanceMin := EmptyString;
     palette := false; paletteMin := EmptyString;
     simplify := false; simplifyRatio := EmptyString; simplifyError := EmptyString |}.

(** Every optional step off. *)
Definition nothing : FormValues :=
  {| geometryCompression := "none";
     textureCompression := "none";
     textureResize := "none";
     dedup := false; flatten := false; join := false; weld := false;
     prune := false; resample := false; sparse := false;
     instance := false; instanceMin := EmptyString;
     palette := false; paletteMin := EmptyString;
     simplify := false; simplifyRatio := EmptyString; simplifyError := EmptyString |}.

(** Weld and simplify on, textures to WebP, geometry to Draco. *)
Definition weldSimplify : FormValues :=
  {| geometryCompression := "draco";
     textureCompression := "webp";
     textureResize := "none";
     dedup := false; flatten := false; join := false; weld := true;
     prune := false; resample := false; sparse := false;
     instance := false; instanceMin := EmptyString;
     palette := false; paletteMin := EmptyString;
     simplify := true; simplifyRatio := EmptyString; simplifyError := EmptyString |}.

Definition transformGlb (broken : option string) (f : string) : World -> CompressionResult * World :=
  transformGlb World (execAsync broken) getFileSize parseFloatTemplate f values.

Definition handleSubmit (broken : option string) (items : list string)
  : World -> option (list CompressionResult) * string * World :=
  handleSubmit World (execAsync broken) getFileSize (getSelectedFinderItems items)
    parseFloatTemplate values.

End Demo.

(** ** The notification of a batch with a failure, by the two counts

    [verb] and [participle] are the words of the command at hand:
    optimize and optimized, compress and compressed. *)
Definition failureSummary (verb participle : string) (succeeded failed : nat) : string :=
  if (succeeded =? 0)%nat
  then "❌ Failed to " ++ verb ++ " " ++ natText failed ++ " file" ++ plural failed
  else "⚠️ " ++ natText succeeded ++ " " ++ participle ++ ", " ++ natText failed ++ " failed".

(** ** The commands run, recorded

    Any world extended with the list of the command lines passed to
    [execAsync], in order.  The extension only observes: a run in the
    extended world is the run in the world itself, with the record beside. *)
Section Recorded.

Variable W : Type.

Definition Recorded : Type := (W * list string)%type.

Definition recording (execAsync : string -> M W string) : string -> M Recorded string :=
  fun c wl =>
    let (r, w') := execAsync c (fst wl) in (r, (w', (snd wl ++ [c])%list)).

Definition observing {A} (m : M W A) : M Recorded A :=
  fun wl => let (r, w') := m (fst wl) in (r, (w', snd wl)).

End Recorded.

Arguments recording {W} execAsync c wl.
Arguments observing {W A} m wl.



(** A result as [transformGlb] and [compressGlb] build it: sizes and no
    message on success, a message and no sizes on failure. *)
Definition wellFormed (r : CompressionResult) : Prop :=
  (success r = true /\ error r = None
   /\ originalSize r <> None /\ compressedSize r <> None)
  \/ (success r = false /\ error r <> None
      /\ originalSize r = None /\ compressedSize r = None).

(** ** [glb-inspect.tsx]: one inspection and the view *)

Definition newline : string := String "010"%char EmptyString.

Definition inspectCommand (filePath : string) : string :=
  "gltf-transform inspect " ++ quoted filePath ++ " --format md".

(** What [inspectGlb] returns, by how [execAsync] settled: with the standard
    output, or rejected with a message. *)
Definition inspection (filePath : string) (outcome : string + string) : InspectionResult :=
  let fileName := path_basename filePath in
  match outcome with
  | inr stdout => mkInspection fileName (Some stdout) None
  | inl errorMessage =>
      mkInspection fileName None
        (Some ("Failed to inspect file:" ++ newline ++ newline ++ errorMessage))
  end.

Definition inspectGlb (W : Type) (execAsync : string -> M W string)
    (filePath : string) (w : W) : InspectionResult * W :=
  let (outcome, w') := execAsync (inspectCommand filePath) w in
  (inspection filePath outcome, w').

(** [Promise.all] over the inspections: the reports in the order of the
    files, the i-th from how the i-th command settled. *)
Definition inspectionResults (glbFiles : list string) (outcomes : list (string + string))
  : list InspectionResult :=
  map (fun fo => inspection (fst fo) (snd fo)) (combine glbFiles outcomes).

(** [setResults(inspectionResults); setSelectedFileIndex(0)] *)
Definition afterInspection (reports : list InspectionResult) : InspectView :=
  mkView reports 0.

Inductive ActionEffect :=
| GoNext
| GoPrevious
| OpenInBrowser (url : string)
| CopyToClipboard (content : string).

Record ViewAction := mkAction {
  title : string;
  effect : ActionEffect
}.

Inductive Detail :=
| Loading
| Document (body : string) (actions : list ViewAction).

(** [`${x}`] for a string or [null]. *)
Definition nullText (x : option string) : string :=
  match x with
  | Some s => s
  | None => "null"
  end.

(** A string or [null] as a condition: [null] and the empty string are
    falsy. *)
Definition truthy (x : option string) : bool :=
  match x with
  | Some (String _ _) => true
  | _ => false
  end.

(** What [Command] returns for the state at hand. *)
Definition render (isLoading : bool) (v : InspectView) : Detail :=
  match currentResult v with
  | None => Loading
  | Some current =>
      if isLoading then Loading
      else if truthy (failure current) then
        Document
          ("# ❌ Inspection Failed: " ++ inspected current ++ newline ++ newline
             ++ nullText (failure current))
          [mkAction "Select Next File" GoNext;
           mkAction "Select Previous File" GoPrevious]
      else
        let markdownContent :=
          "# 🔎 GLB Analysis: " ++ inspected current ++ newline ++ newline
            ++ nullText (markdown current) in
        Document markdownContent
          ((if (1 <? List.length (results v))%nat
            then [mkAction "Next File" GoNext; mkAction "Previous File" GoPrevious]
            else [])
           ++ [mkAction "View gltf-transform Documentation"
                 (OpenInBrowser "https://gltf-transform.dev/cli.html");
               mkAction "Copy Analysis Markdown" (CopyToClipboard markdownContent)])%list
  end.

(** The state after an action has run. *)
Definition onAction (a : ViewAction) (v : InspectView) : InspectView :=
  match effect a with
  | GoNext => nextFile v
  | GoPrevious => previousFile v
  | _ => v
  end.

(** The last character of [a] is an ASCII character that is no blank. *)
Definition endsPlain (a : string) : bool :=
  match rev (chars a) with
  | c :: _ => negb (isBlank1 (nat_of_ascii c)) && negb (isContinuation (nat_of_ascii c))
  | [] => false
  end.


(** A segment of a normalized path: a name without separator, neither empty
    nor [.] nor [..]. *)
Definition properSegment (s : list ascii) : bool :=
  noSlash s && negb (list_eqb s []) && negb (list_eqb s Path.dot)
  && negb (list_eqb s Path.dotdot).

(** The absolute path of a directory, from the names on the way down; the
    empty string stands for the root. *)
Fixpoint absoluteDir (names : list string) : string :=
  match names with
  | [] => EmptyString
  | s :: names' => "/" ++ s ++ absoluteDir names'
  end.

(** The characters of [absoluteDir]. *)
Fixpoint dirChars (names : list (list ascii)) : list ascii :=
  match names with
  | [] => []
  | s :: names' => ("/"%char :: s ++ dirChars names')%list
  end.

(** ** A second world for examples

    The world of [Demo], with the files the fixed modes write on disk as
    well, so that a batch of either kind can succeed. *)
Module Studio.

Definition onDisk : list (string * Z) :=
  (Demo.onDisk
     ++ [ ("/models/a_draco.glb", 50); ("/models/b_draco.glb", 100);
          ("/models/tiny_draco.glb", 150) ])%list.

Definition getFileSize (p : string) : M Demo.World Z :=
  fun w =>
    match Demo.lookup p onDisk with
    | Some z => (inr z, w)
    | None => (inl ("ENOENT: no such file or directory, stat '" ++ p ++ "'"), w)
    end.

Definition handleSubmit (broken : option string) (items : list string)
  : Demo.World -> option (list CompressionResult) * string * Demo.World :=
  handleSubmit Demo.World (Demo.execAsync broken) getFileSize
    (Demo.getSelectedFinderItems items) Demo.parseFloatTemplate Demo.values.

Definition processGlbFiles (broken : option string) (items : list string)
  : Demo.World -> option (list CompressionResult) * string * Demo.World :=
  processGlbFiles Demo.World (Demo.execAsync broken) getFileSize
    (Demo.getSelectedFinderItems items) draco "Draco".

End Studio.

(** * Properties *)

(** ** Strings and their characters *)

Lemma chars_text (l : list ascii) : chars (text l) = l.
Proof. apply list_ascii_of_string_of_list_ascii. Qed.

Lemma text_chars (s : string) : text (chars s) = s.
Proof. apply string_of_list_ascii_of_string. Qed.

Lemma chars_app (a b : string) : chars (a ++ b) = (chars a ++ chars b)%list.
Proof. induction a as [|c a IH]; simpl; [reflexivity | now rewrite IH]. Qed.

Lemma chars_inj (a b : string) : chars a = chars b -> a = b.
Proof. intros H. rewrite <- (text_chars a), <- (text_chars b). now rewrite H. Qed.

Lemma text_app (a b : list ascii) : text (a ++ b) = text a ++ text b.
Proof. apply chars_inj. now rewrite chars_app, !chars_text. Qed.

Lemma length_chars (s : string) : List.length (chars s) = String.length s.
Proof. induction s; simpl; congruence. Qed.

Lemma list_ascii_app (a b : string) :
  list_ascii_of_string (a ++ b) = (list_ascii_of_string a ++ list_ascii_of_string b)%list.
Proof. apply chars_app. Qed.

(** Two concatenations of the same pieces are equal. *)
Ltac string_eq :=
  apply chars_inj; unfold chars;
  repeat first [ rewrite list_ascii_app
               | progress cbn [list_ascii_of_string app]
               | rewrite <- app_assoc ];
  reflexivity.

Lemma trimWith_stop blank n l : blank l = O -> trimWith blank n l = l.
Proof. intros H. destruct n; simpl; [reflexivity | now rewrite H]. Qed.

(** A command line that ends with a quote and one space, as [addCommand]
    builds it for a step without arguments, loses exactly the space. *)
Lemma trim_quote_space (body : string) :
  trim (String "g" (body ++ String dquote " ")) = String "g" (body ++ String dquote EmptyString).
Proof.
  unfold trim.
  rewrite (trimWith_stop blankPrefix) by reflexivity.
  change (chars (String "g" (body ++ String dquote " ")))
    with ("g"%char :: chars (body ++ String dquote " ")).
  rewrite chars_app. change (chars (String dquote " ")) with [dquote; " "%char].
  replace (rev ("g"%char :: chars body ++ [dquote; " "%char]))%list
    with (" "%char :: dquote :: rev ("g"%char :: chars body))%list.
  2:{ change ("g"%char :: chars body ++ [dquote; " "%char])%list
        with (("g"%char :: chars body) ++ [dquote; " "%char])%list.
      now rewrite rev_app_distr. }
  cbn [List.length trimWith].
  change (blankSuffix (" "%char :: dquote :: rev ("g"%char :: chars body))) with 1%nat.
  cbn [skipn].
  rewrite (trimWith_stop blankSuffix) by reflexivity.
  apply chars_inj. rewrite chars_text.
  change (rev (dquote :: rev ("g"%char :: chars body)))
    with (rev (rev ("g"%char :: chars body)) ++ [dquote])%list.
  rewrite rev_involutive.
  change (chars (String "g" (body ++ String dquote EmptyString)))
    with ("g"%char :: chars (body ++ String dquote EmptyString)).
  now rewrite chars_app.
Qed.

(** ** The pipeline builder *)

Section PipelineFacts.

Variable parseFloatTemplate : string -> string.

Lemma addEnabled_fold out table : forall b,
  fold_left (addEnabled out) table b =
  mkBuilder (commands b ++ chain out (currentInput b) (map snd (filter fst table)))%list
            (match filter fst table with [] => currentInput b | _ => out end).
Proof.
  induction table as [|[[] [c a]] table IH]; intros [cs inp].
  - simpl. now rewrite app_nil_r.
  - cbn [fold_left filter fst map snd chain]. rewrite IH.
    unfold addEnabled, when, addCommand; cbn [fst snd commands currentInput].
    rewrite <- app_assoc. cbn [app].
    f_equal. now destruct (filter fst table).
  - cbn [fold_left filter fst]. now rewrite IH.
Qed.

Lemma buildCommands_fold filePath values :
  buildCommands parseFloatTemplate filePath values =
  let out := quoted (transformOutputPath filePath) in
  let b := fold_left (addEnabled out) (priorityOrder parseFloatTemplate values)
             (mkBuilder [] (quoted filePath)) in
  when (Nat.eqb (List.length (commands b)) 0) (addCommand out "copy" EmptyString) b.
Proof. reflexivity. Qed.

(** The builder computes the chain of the planned steps. *)
Lemma pipeline_chain filePath values :
  pipeline parseFloatTemplate filePath values =
  chain (quoted (transformOutputPath filePath)) (quoted filePath)
    (plannedSteps parseFloatTemplate values).
Proof.
  unfold pipeline. rewrite buildCommands_fold. cbv zeta.
  rewrite addEnabled_fold. cbn [commands currentInput app].
  unfold plannedSteps, enabledSteps.
  destruct (filter fst (priorityOrder parseFloatTemplate values)) as [|[e [c a]] rest];
    reflexivity.
Qed.


Lemma chain_output out : forall steps inp s,
  In s (chain out inp steps) -> output s = out.
Proof.
  induction steps as [|[c a] steps IH]; intros inp s; simpl; [tauto|].
  intros [<- | H]; [reflexivity | eauto].
Qed.



Lemma enabled_planned values :
  enabledSteps parseFloatTemplate values <> [] ->
  plannedSteps parseFloatTemplate values = enabledSteps parseFloatTemplate values.
Proof.
  unfold plannedSteps. now destruct (enabledSteps parseFloatTemplate values).
Qed.



Lemma pipeline_outputs filePath values s :
  In s (pipeline parseFloatTemplate filePath values) ->
  output s = quoted (transformOutputPath filePath).
Proof. rewrite pipeline_chain. apply chain_output. Qed.


Lemma allDisabled_enabledSteps values :
  allDisabled values -> enabledSteps parseFloatTemplate values = [].
Proof.
  intros (H1 & H2 & H3 & H4 & H5 & H6 & H7 & H8 & H9 & H10 & H11 & H12 & H13).
  unfold enabledSteps, priorityOrder.
  rewrite H1, H2, H3, H4, H5, H6, H7, H8, H9, H10, H11, H12, H13. reflexivity.
Qed.

Lemma copy_commandText (inp out : string) :
  commandText (mkStep "copy" EmptyString (quoted inp) (quoted out))
  = "gltf-transform copy " ++ quoted inp ++ " " ++ quoted out.
Proof.
  unfold commandText; cbn [cmd args input output].
  set (body := "ltf-transform copy " ++ quoted inp ++ " " ++ String dquote out).
  transitivity (trim (String "g" (body ++ String dquote " "))).
  - f_equal. subst body. unfold quoted. string_eq.
  - rewrite trim_quote_space. subst body. unfold quoted. string_eq.
Qed.

(** C3. With every optional step off, the pipeline is the single command
    that copies the input file to the derived output path. *)
Theorem all_disabled_copies (filePath : string) (values : FormValues) :
  allDisabled values ->
  pipeline parseFloatTemplate filePath values
    = [mkStep "copy" EmptyString (quoted filePath) (quoted (transformOutputPath filePath))]
  /\ commandLines parseFloatTemplate filePath values
    = ["gltf-transform copy " ++ quoted filePath ++ " "
         ++ quoted (transformOutputPath filePath)].
Proof.
  intros H. unfold commandLines. rewrite pipeline_chain.
  unfold plannedSteps. rewrite (allDisabled_enabledSteps _ H). cbn [chain map].
  split; [reflexivity|]. now rewrite copy_commandText.
Qed.

End PipelineFacts.


(** Every step off: the one command is the copy. *)
Lemma all_disabled_copies_witness :
  allDisabled Demo.nothing
  /\ commandLines Demo.parseFloatTemplate "/models/a.glb" Demo.nothing
     = ["gltf-transform copy " ++ quoted "/models/a.glb" ++ " "
          ++ quoted "/models/a_optimized.glb"].
Proof.
  assert (H : allDisabled Demo.nothing) by (repeat split).
  split; [exact H|].
  exact (proj2 (all_disabled_copies Demo.parseFloatTemplate "/models/a.glb" Demo.nothing H)).
Defined.

(** ** Paths: the derived output path *)

Section PathFacts.

Local Open Scope list_scope.

Lemma list_eqb_length : forall a b, list_eqb a b = true -> List.length a = List.length b.
Proof.
  induction a as [|x a IH]; intros [|y b]; simpl; try discriminate; [reflexivity|].
  intros H. apply andb_true_iff in H as [_ H]. now rewrite (IH _ H).
Qed.

Lemma list_eqb_longer a b :
  List.length a <> List.length b -> list_eqb a b = false.
Proof.
  intros H. destruct (list_eqb a b) eqn:E; [|reflexivity].
  now apply list_eqb_length in E.
Qed.

Lemma segments_nonempty p : Path.segments p <> [].
Proof.
  destruct p as [|c p]; simpl; [discriminate|].
  destruct (Path.isPathSeparator c); [discriminate|].
  destruct (Path.segments p); discriminate.
Qed.

Lemma segments_noSlash y : noSlash y = true -> Path.segments y = [y].
Proof.
  induction y as [|c y IH]; simpl; [reflexivity|].
  intros H. apply andb_true_iff in H as [Hc H].
  apply negb_true_iff in Hc. rewrite Hc, (IH H). reflexivity.
Qed.

Lemma segments_app_sep x y :
  Path.segments (x ++ "/"%char :: y) = Path.segments x ++ Path.segments y.
Proof.
  induction x as [|c x IH]; [reflexivity|].
  cbn [app Path.segments]. rewrite IH.
  destruct (Path.isPathSeparator c); [reflexivity|].
  pose proof (segments_nonempty x).
  destruct (Path.segments x); [congruence | reflexivity].
Qed.

Lemma segments_app_noSlash x y :
  noSlash y = true ->
  Path.segments (x ++ y) =
  removelast (Path.segments x) ++ [last (Path.segments x) [] ++ y].
Proof.
  intros Hy. induction x as [|c x IH].
  - cbn [app Path.segments removelast last]. now apply segments_noSlash.
  - cbn [app Path.segments]. rewrite IH.
    pose proof (segments_nonempty x) as Hx.
    destruct (Path.segments x) as [|s [|s' ss]]; [congruence| |];
      destruct (Path.isPathSeparator c); reflexivity.
Qed.


Lemma last_app_nonempty {A} (l1 l2 : list A) d : l2 <> [] -> last (l1 ++ l2) d = last l2 d.
Proof.
  intros H. induction l1 as [|x l1 IH]; [reflexivity|].
  cbn [app]. rewrite <- IH. destruct (l1 ++ l2) eqn:E; [|reflexivity].
  destruct l1, l2; try discriminate; congruence.
Qed.

(** A name that is neither empty nor a dot segment is kept as it is. *)
Lemma normalizeStep_keeps above res seg :
  (2 < List.length seg)%nat -> Path.normalizeStep above res seg = seg :: res.
Proof.
  intros H. unfold Path.normalizeStep.
  rewrite !list_eqb_longer; [reflexivity | | |]; cbn; lia.
Qed.

Lemma joinSegments_snoc l t :
  exists r, Path.joinSegments (l ++ [t]) = r ++ t
            /\ (r = [] \/ exists r', r = r' ++ ["/"%char]).
Proof.
  induction l as [|s l (r & E & Hr)].
  - exists []. split; [reflexivity | now left].
  - exists (s ++ "/"%char :: r). split.
    + cbn [app Path.joinSegments]. rewrite E.
      destruct (l ++ [t]) eqn:El; [destruct l; discriminate|].
      now rewrite <- app_assoc.
    + right. destruct Hr as [-> | [r' ->]].
      * exists s. reflexivity.
      * exists (s ++ "/"%char :: r'). now rewrite <- app_assoc.
Qed.

Lemma last_app_single {A} (l : list A) x d : last (l ++ [x]) d = x.
Proof. now rewrite last_app_nonempty. Qed.

(** Normalizing a path whose last segment ends with a proper name [tail]
    keeps that segment at the end, after a separator or on its own. *)
Lemma normalize_keeps_name x tail :
  noSlash tail = true -> (2 < List.length tail)%nat ->
  exists r,
    Path.normalize (x ++ tail) = r ++ last (Path.segments x) [] ++ tail
    /\ (r = [] \/ exists r', r = r' ++ ["/"%char]).
Proof.
  intros Hs Hl.
  set (t := last (Path.segments x) [] ++ tail).
  assert (Ht : (2 < List.length t)%nat) by (subst t; rewrite length_app; lia).
  assert (Hlast : Path.isPathSeparator (last (x ++ tail) "000"%char) = false).
  { destruct tail as [|c tail] using rev_ind; [cbn in Hl; lia|].
    rewrite app_assoc, last_app_single.
    unfold noSlash in Hs. rewrite forallb_app in Hs.
    apply andb_true_iff in Hs as [_ Hs]. cbn in Hs.
    rewrite andb_true_r in Hs. now apply negb_true_iff in Hs. }
  unfold Path.normalize.
  destruct (x ++ tail) as [|c0 rest] eqn:Ex.
  { destruct x, tail; try discriminate. cbn in Hl. lia. }
  cbv beta iota zeta. rewrite Hlast.
  unfold Path.normalizeString. rewrite <- Ex.
  rewrite (segments_app_noSlash _ _ Hs), fold_left_app. cbn [fold_left].
  fold t. rewrite (normalizeStep_keeps _ _ _ Ht). cbn [rev].
  destruct (joinSegments_snoc
              (rev (fold_left (Path.normalizeStep (negb (Path.isPathSeparator c0)))
                      (removelast (Path.segments x)) [])) t) as (r & E & Hr).
  rewrite E.
  destruct (r ++ t) eqn:Ert.
  { destruct r, t; try discriminate. cbn in Ht. lia. }
  rewrite <- Ert.
  destruct (Path.isPathSeparator c0).
  - exists ("/"%char :: r). split; [reflexivity|].
    right. destruct Hr as [-> | [r' ->]]; [now exists [] | now exists ("/"%char :: r')].
  - exists r. split; [reflexivity | exact Hr].
Qed.

Lemma join_keeps_name a b tail :
  noSlash tail = true -> (2 < List.length tail)%nat ->
  exists r,
    Path.join a (b ++ tail) = r ++ last (Path.segments b) [] ++ tail
    /\ (r = [] \/ exists r', r = r' ++ ["/"%char]).
Proof.
  intros Hs Hl. unfold Path.join.
  destruct (b ++ tail) as [|c bt] eqn:Eb.
  { destruct b, tail; try discriminate. cbn in Hl. lia. }
  destruct a as [|c0 a]; rewrite <- Eb.
  - now apply normalize_keeps_name.
  - replace ((c0 :: a) ++ "/"%char :: b ++ tail)
      with (((c0 :: a) ++ "/"%char :: b) ++ tail)
      by (now rewrite <- app_assoc).
    destruct (normalize_keeps_name ((c0 :: a) ++ "/"%char :: b) tail Hs Hl)
      as (r & E & Hr).
    exists r. split; [|exact Hr]. rewrite E.
    rewrite segments_app_sep, last_app_nonempty by apply segments_nonempty.
    reflexivity.
Qed.

(** *** [basename] with the extension, on a path that ends with a name *)

Lemma basenameExt_skips_name suffix name : forall rest st,
  noSlash name = true ->
  Path.firstNonSlashEnd st <> -1 -> Path.extIdx st = -1 ->
  Path.basenameExtLoop suffix (rev name ++ rest) st
  = Path.basenameExtLoop suffix rest st.
Proof.
  induction name as [|c name IH] using rev_ind; intros rest st Hn Hf He; [reflexivity|].
  unfold noSlash in Hn. rewrite forallb_app in Hn.
  apply andb_true_iff in Hn as [Hn Hc]. cbn in Hc. rewrite andb_true_r in Hc.
  apply negb_true_iff in Hc.
  rewrite rev_app_distr. cbn [rev app Path.basenameExtLoop]. rewrite Hc.
  destruct (Z.eqb_spec (Path.firstNonSlashEnd st) (-1)); [contradiction|].
  rewrite He. cbn [Z.leb Z.compare]. now apply IH.
Qed.

(** One turn of the loop on a character that is no separator and matches
    the suffix at [extIdx]: the first such character also records where the
    name ends; the last one of the suffix records where the suffix starts. *)
Lemma basenameExtLoop_first suffix c r s e m x :
  Path.isPathSeparator c = false -> 0 < x ->
  Ascii.eqb c (nth (Z.to_nat x) suffix "000"%char) = true ->
  Path.basenameExtLoop suffix (c :: r) (Path.mkScan s e m x (-1))
  = Path.basenameExtLoop suffix r
      (Path.mkScan s e false (x - 1) (Z.of_nat (List.length r) + 1)).
Proof.
  intros Hc Hx Hm. cbn [Path.basenameExtLoop]. rewrite Hc.
  cbn [Path.firstNonSlashEnd Path.extIdx Path.start Path.stop Path.matchedSlash].
  change (-1 =? -1) with true. cbv iota.
  cbn [Path.firstNonSlashEnd Path.extIdx Path.start Path.stop Path.matchedSlash].
  rewrite Hm.
  destruct (Z.leb_spec 0 x); [|lia].
  destruct (Z.eqb_spec (x - 1) (-1)); [lia | reflexivity].
Qed.

Lemma basenameExtLoop_next suffix c r s e m x f :
  Path.isPathSeparator c = false -> f <> -1 -> 0 < x ->
  Ascii.eqb c (nth (Z.to_nat x) suffix "000"%char) = true ->
  Path.basenameExtLoop suffix (c :: r) (Path.mkScan s e m x f)
  = Path.basenameExtLoop suffix r (Path.mkScan s e m (x - 1) f).
Proof.
  intros Hc Hf Hx Hm. cbn [Path.basenameExtLoop]. rewrite Hc.
  cbn [Path.firstNonSlashEnd Path.extIdx Path.start Path.stop Path.matchedSlash].
  destruct (Z.eqb_spec f (-1)); [contradiction|].
  cbn [Path.firstNonSlashEnd Path.extIdx Path.start Path.stop Path.matchedSlash].
  rewrite Hm.
  destruct (Z.leb_spec 0 x); [|lia].
  destruct (Z.eqb_spec (x - 1) (-1)); [lia | reflexivity].
Qed.

Lemma basenameExtLoop_matched suffix c r s e m f :
  Path.isPathSeparator c = false -> f <> -1 ->
  Ascii.eqb c (nth 0 suffix "000"%char) = true ->
  Path.basenameExtLoop suffix (c :: r) (Path.mkScan s e m 0 f)
  = Path.basenameExtLoop suffix r
      (Path.mkScan s (Z.of_nat (List.length r)) m (-1) f).
Proof.
  intros Hc Hf Hm. cbn [Path.basenameExtLoop]. rewrite Hc.
  cbn [Path.firstNonSlashEnd Path.extIdx Path.start Path.stop Path.matchedSlash].
  destruct (Z.eqb_spec f (-1)); [contradiction|].
  cbn [Path.firstNonSlashEnd Path.extIdx Path.start Path.stop Path.matchedSlash].
  change (Z.to_nat 0) with 0%nat. rewrite Hm. reflexivity.
Qed.

Lemma basenameExtLoop_separator suffix r s e x f :
  Path.basenameExtLoop suffix ("/"%char :: r) (Path.mkScan s e false x f)
  = Path.mkScan (Z.of_nat (List.length r) + 1) e false x f.
Proof. reflexivity. Qed.

Lemma basenameExt_matches_glb rest :
  Path.basenameExtLoop glb ("b" :: "l" :: "g" :: "." :: rest)%char
    (Path.mkScan 0 (-1) true 3 (-1))
  = Path.basenameExtLoop glb rest
      (Path.mkScan 0 (Z.of_nat (List.length rest)) false (-1)
         (Z.of_nat (List.length rest) + 4)).
Proof.
  rewrite basenameExtLoop_first by (reflexivity || lia).
  rewrite basenameExtLoop_next by (reflexivity || (cbn [List.length]; lia)).
  rewrite basenameExtLoop_next by (reflexivity || (cbn [List.length]; lia)).
  rewrite basenameExtLoop_matched by (reflexivity || (cbn [List.length]; lia)).
  f_equal. f_equal. cbn [List.length]. lia.
Qed.

Lemma basenameExt_strips_glb r name :
  noSlash name = true -> name <> [] ->
  (r = [] \/ exists r', r = r' ++ ["/"%char]) ->
  Path.basenameExt (r ++ name ++ glb) glb = name.
Proof.
  intros Hn Hne Hr.
  unfold Path.basenameExt.
  assert (Hlen : List.length (r ++ name ++ glb) = (List.length r + List.length name + 4)%nat).
  { rewrite !length_app. cbn. lia. }
  assert (Hname : (0 < List.length name)%nat) by (destruct name; [congruence | cbn; lia]).
  replace ((0 <? List.length glb)%nat && (List.length glb <=? List.length (r ++ name ++ glb))%nat)
    with true.
  2:{ symmetry. apply andb_true_iff. split; [reflexivity|].
      apply Nat.leb_le. rewrite Hlen. cbn. lia. }
  rewrite list_eqb_longer by (rewrite Hlen; cbn; lia).
  replace (rev (r ++ name ++ glb))
    with ("b" :: "l" :: "g" :: "." :: rev name ++ rev r)%char
    by (now rewrite !rev_app_distr, <- app_assoc).
  change (Z.of_nat (List.length glb) - 1) with 3.
  rewrite basenameExt_matches_glb.
  rewrite basenameExt_skips_name; [|assumption|cbn; lia|reflexivity].
  rewrite length_app, !length_rev.
  destruct Hr as [-> | [r' ->]].
  - cbn [rev Path.basenameExtLoop Path.start Path.stop Path.firstNonSlashEnd
         List.length Nat.add app].
    rewrite Nat.add_0_r.
    destruct (Z.eqb_spec 0 (Z.of_nat (List.length name))); [lia|].
    destruct (Z.eqb_spec (Z.of_nat (List.length name)) (-1)); [lia|].
    unfold Path.slice. rewrite Z.sub_0_r, Nat2Z.id. cbn [Z.to_nat skipn].
    now rewrite firstn_app, firstn_all, Nat.sub_diag, firstn_0, app_nil_r.
  - rewrite rev_app_distr. cbn [rev app].
    rewrite basenameExtLoop_separator.
    cbn [Path.start Path.stop Path.firstNonSlashEnd].
    rewrite length_rev, !length_app. cbn [List.length].
    destruct (Z.eqb_spec (Z.of_nat (List.length r') + 1)
                (Z.of_nat (List.length name + (List.length r' + 1)))); [lia|].
    destruct (Z.eqb_spec (Z.of_nat (List.length name + (List.length r' + 1))) (-1)); [lia|].
    unfold Path.slice.
    replace (Z.to_nat (Z.of_nat (List.length name + (List.length r' + 1))
                       - (Z.of_nat (List.length r') + 1)))
      with (List.length name) by lia.
    replace (Z.to_nat (Z.of_nat (List.length r') + 1))
      with (List.length (r' ++ ["/"%char])) by (rewrite length_app; cbn; lia).
    rewrite skipn_app, skipn_all, Nat.sub_diag. cbn [skipn app].
    now rewrite firstn_app, firstn_all, Nat.sub_diag, firstn_0, app_nil_r.
Qed.



End PathFacts.

(** ** The batch *)

Section HostFacts.

Variable W : Type.
Variable execAsync : string -> M W string.
Variable getFileSize : string -> M W Z.
Variable getSelectedFinderItems : M W (list string).
Variable parseFloatTemplate : string -> string.

Lemma processAll_app (one : string -> W -> CompressionResult * W) l1 : forall l2 w,
  processAll W one (l1 ++ l2) w =
  (fst (processAll W one l1 w) ++ fst (processAll W one l2 (snd (processAll W one l1 w))),
   snd (processAll W one l2 (snd (processAll W one l1 w))))%list.
Proof.
  induction l1 as [|f l1 IH]; intros l2 w.
  - cbn. now destruct (processAll W one l2 w).
  - cbn [app processAll]. destruct (one f w) as [r w1]. rewrite IH.
    destruct (processAll W one l1 w1) as [rs w2]. cbn [fst snd].
    now destruct (processAll W one l2 w2).
Qed.

Lemma processAll_length (one : string -> W -> CompressionResult * W) files : forall w,
  List.length (fst (processAll W one files w)) = List.length files.
Proof.
  induction files as [|f files IH]; intros w; [reflexivity|].
  cbn [processAll]. destruct (one f w) as [r w1]. specialize (IH w1).
  destruct (processAll W one files w1). cbn [fst List.length] in *. now rewrite IH.
Qed.

(** The result of the file at position [i] is what its own run returns, in
    the world the files before it have left. *)
Lemma processAll_nth (one : string -> W -> CompressionResult * W) files w i f :
  nth_error files i = Some f ->
  nth_error (fst (processAll W one files w)) i
  = Some (fst (one f (snd (processAll W one (firstn i files) w)))).
Proof.
  intros H.
  destruct (nth_error_split files i H) as (l1 & l2 & -> & <-).
  rewrite processAll_app. cbn [fst].
  rewrite firstn_app, Nat.sub_diag, firstn_all, firstn_0, app_nil_r.
  rewrite nth_error_app2 by (rewrite processAll_length; lia).
  rewrite processAll_length, Nat.sub_diag.
  cbn [processAll]. destruct (one f _) as [r w1].
  now destruct (processAll W one l2 w1).
Qed.

Lemma processAll_files (one : string -> W -> CompressionResult * W) (name : string -> string) :
  (forall f w, file (fst (one f w)) = name f) ->
  forall files w, map file (fst (processAll W one files w)) = map name files.
Proof.
  intros Hone. induction files as [|f files IH]; intros w; [reflexivity|].
  cbn [processAll]. specialize (Hone f w). destruct (one f w) as [r w1].
  specialize (IH w1). destruct (processAll W one files w1).
  cbn [fst map] in *. now rewrite Hone, IH.
Qed.

Lemma settle_file name body w : file (fst (settle W name body w)) = name.
Proof. unfold settle. now destruct (body w) as [[e|[o c]] w']. Qed.

Lemma runCommands_cons c cs w :
  runCommands W execAsync (c :: cs) w =
  match execAsync c w with
  | (inl e, w') => (inl e, w')
  | (inr _, w') => runCommands W execAsync cs w'
  end.
Proof. reflexivity. Qed.

(** The loop over the commands stops at the first one that fails: the
    commands after it are not run, and its message is the failure. *)
Lemma runCommands_fails pre c post : forall w w1 e w2,
  runCommands W execAsync pre w = (inr tt, w1) ->
  execAsync c w1 = (inl e, w2) ->
  runCommands W execAsync (pre ++ c :: post) w = (inl e, w2).
Proof.
  induction pre as [|c0 pre IH]; intros w w1 e w2.
  - cbn [app]. rewrite runCommands_cons. intros [= <-] H. now rewrite H.
  - cbn [app]. rewrite !runCommands_cons.
    destruct (execAsync c0 w) as [[e0|out] w0]; [discriminate|]. apply IH.
Qed.

(** What [transformGlb] returns, by the first operation that fails. *)
Lemma transformGlb_size_fails filePath values w e w1 :
  getFileSize filePath w = (inl e, w1) ->
  transformGlb W execAsync getFileSize parseFloatTemplate filePath values w
  = (mkResult (path_basename filePath) false (Some e) None None, w1).
Proof. intros H. unfold transformGlb, settle, bind. now rewrite H. Qed.

Lemma transformGlb_command_fails filePath values w o w1 pre c post w2 e w3 :
  getFileSize filePath w = (inr o, w1) ->
  commandLines parseFloatTemplate filePath values = (pre ++ c :: post)%list ->
  runCommands W execAsync pre w1 = (inr tt, w2) ->
  execAsync c w2 = (inl e, w3) ->
  transformGlb W execAsync getFileSize parseFloatTemplate filePath values w
  = (mkResult (path_basename filePath) false (Some e) None None, w3).
Proof.
  intros Hsize Hcmds Hpre Hc. unfold transformGlb, settle, bind.
  rewrite Hsize, Hcmds, (runCommands_fails _ _ _ _ _ _ _ Hpre Hc). reflexivity.
Qed.

Lemma transformGlb_output_size_fails filePath values w o w1 w2 e w3 :
  getFileSize filePath w = (inr o, w1) ->
  runCommands W execAsync (commandLines parseFloatTemplate filePath values) w1 = (inr tt, w2) ->
  getFileSize (transformOutputPath filePath) w2 = (inl e, w3) ->
  transformGlb W execAsync getFileSize parseFloatTemplate filePath values w
  = (mkResult (path_basename filePath) false (Some e) None None, w3).
Proof.
  intros Hsize Hrun Hout. unfold transformGlb, settle, bind.
  rewrite Hsize, Hrun, Hout. reflexivity.
Qed.

Lemma transformGlb_succeeds filePath values w o w1 w2 c w3 :
  getFileSize filePath w = (inr o, w1) ->
  runCommands W execAsync (commandLines parseFloatTemplate filePath values) w1 = (inr tt, w2) ->
  getFileSize (transformOutputPath filePath) w2 = (inr c, w3) ->
  transformGlb W execAsync getFileSize parseFloatTemplate filePath values w
  = (mkResult (path_basename filePath) true None (Some o) (Some c), w3).
Proof.
  intros Hsize Hrun Hout. unfold transformGlb, settle, bind.
  rewrite Hsize, Hrun, Hout. reflexivity.
Qed.

Lemma handleSubmit_results values w items w1 :
  getSelectedFinderItems w = (inr items, w1) ->
  filter isGlb items <> [] ->
  handleSubmit W execAsync getFileSize getSelectedFinderItems parseFloatTemplate values w
  = (Some (fst (processAll W
                  (fun f => transformGlb W execAsync getFileSize parseFloatTemplate f values)
                  (filter isGlb items) w1)),
     transformSummary
       (fst (processAll W
               (fun f => transformGlb W execAsync getFileSize parseFloatTemplate f values)
               (filter isGlb items) w1)),
     snd (processAll W
            (fun f => transformGlb W execAsync getFileSize parseFloatTemplate f values)
            (filter isGlb items) w1)).
Proof.
  intros Hsel Hglb. unfold handleSubmit. rewrite Hsel.
  destruct items as [|i items]; [now cbn in Hglb|].
  cbn [List.length Nat.eqb].
  destruct (filter isGlb (i :: items)) as [|g gs] eqn:E; [congruence|].
  cbn [List.length Nat.eqb].
  now destruct (processAll W _ (g :: gs) w1).
Qed.

Lemma processGlbFiles_results mode modeName w items w1 :
  getSelectedFinderItems w = (inr items, w1) ->
  filter isGlb items <> [] ->
  processGlbFiles W execAsync getFileSize getSelectedFinderItems mode modeName w
  = (Some (fst (processAll W
                  (fun f => compressGlb W execAsync getFileSize f mode)
                  (filter isGlb items) w1)),
     compressSummary modeName
       (fst (processAll W
               (fun f => compressGlb W execAsync getFileSize f mode)
               (filter isGlb items) w1)),
     snd (processAll W
            (fun f => compressGlb W execAsync getFileSize f mode)
            (filter isGlb items) w1)).
Proof.
  intros Hsel Hglb. unfold processGlbFiles. rewrite Hsel.
  destruct items as [|i items]; [now cbn in Hglb|].
  cbn [List.length Nat.eqb].
  destruct (filter isGlb (i :: items)) as [|g gs] eqn:E; [congruence|].
  cbn [List.length Nat.eqb].
  now destruct (processAll W _ (g :: gs) w1).
Qed.

End HostFacts.

(** C5. A batch of N files yields N results, in the order of the files.
    Each result is what the run of its own file returns in the world the
    earlier files have left; when a command of a file fails, the commands
    after it are not run, that file's result is the failure with the
    command's message, and the loop goes on with the next file. *)
Theorem batch_failure_isolation
    (W : Type) (execAsync : string -> M W string) (getFileSize : string -> M W Z)
    (parseFloatTemplate : string -> string) (values : FormValues)
    (glbFiles : list string) (w : W) :
  let one := fun f => transformGlb W execAsync getFileSize parseFloatTemplate f values in
  let results := fst (processAll W one glbFiles w) in
  List.length results = List.length glbFiles
  /\ map file results = map path_basename glbFiles
  /\ (forall i f,
        nth_error glbFiles i = Some f ->
        nth_error results i
        = Some (fst (one f (snd (processAll W one (firstn i glbFiles) w)))))
  /\ (forall f w0 o w1 pre c post w2 e w3,
        getFileSize f w0 = (inr o, w1) ->
        commandLines parseFloatTemplate f values = (pre ++ c :: post)%list ->
        runCommands W execAsync pre w1 = (inr tt, w2) ->
        execAsync c w2 = (inl e, w3) ->
        one f w0 = (mkResult (path_basename f) false (Some e) None None, w3))
  /\ (forall getSelectedFinderItems w0 items,
        getSelectedFinderItems w0 = (inr items, w) ->
        filter isGlb items = glbFiles -> glbFiles <> [] ->
        fst (fst (handleSubmit W execAsync getFileSize getSelectedFinderItems
                    parseFloatTemplate values w0)) = Some results).
Proof.
  cbv zeta. split; [|split; [|split; [|split]]].
  - apply processAll_length.
  - apply processAll_files. intros f w0. apply settle_file.
  - intros i f H.
    exact (processAll_nth W
             (fun f => transformGlb W execAsync getFileSize parseFloatTemplate f values)
             glbFiles w i f H).
  - intros f w0 o w1 pre c post w2 e w3. apply transformGlb_command_fails.
  - intros sel w0 items Hsel Hglb Hne. subst glbFiles.
    now rewrite (handleSubmit_results _ _ _ _ _ _ _ _ _ Hsel Hne).
Qed.

(** Three files, the first command of the second one fails: three results,
    the second a failure, the first and the third their own successes; the
    commands run are those of the first file, the failed one, and those of
    the third file. *)
Lemma batch_failure_isolation_witness :
  let a := "/models/a.glb" in
  let b := "/models/b.glb" in
  let c := "/models/c.glb" in
  let failed := "gltf-transform dedup " ++ quoted b ++ " " ++ quoted "/models/b_optimized.glb" in
  let run := processAll Demo.World (Demo.transformGlb (Some b)) [a; b; c] [] in
  List.length (fst run) = 3%nat
  /\ nth_error (fst run) 0 = Some (mkResult "a.glb" true None (Some 100) (Some 50))
  /\ nth_error (fst run) 1
     = Some (mkResult "b.glb" false (Some ("Command failed: " ++ failed)) None None)
  /\ nth_error (fst run) 2 = Some (mkResult "c.glb" true None (Some 300) (Some 150))
  /\ snd run = (commandLines Demo.parseFloatTemplate a Demo.values
                ++ failed :: commandLines Demo.parseFloatTemplate c Demo.values)%list.
Proof.
  cbv zeta.
  destruct (batch_failure_isolation Demo.World (Demo.execAsync (Some "/models/b.glb"))
              Demo.getFileSize Demo.parseFloatTemplate Demo.values
              ["/models/a.glb"; "/models/b.glb"; "/models/c.glb"] [])
    as (Hlen & _ & Hnth & Hfail & _).
  split; [exact Hlen|].
  split; [vm_compute; reflexivity|].
  split.
  - refine (eq_trans (Hnth 1%nat "/models/b.glb" eq_refl) _). apply f_equal.
    set (w1 := snd (processAll Demo.World _ (firstn 1 _) [])).
    set (failed := "gltf-transform dedup " ++ quoted "/models/b.glb" ++ " "
                     ++ quoted "/models/b_optimized.glb").
    assert (F := Hfail "/models/b.glb" w1 200 w1 [] failed
                   (tl (commandLines Demo.parseFloatTemplate "/models/b.glb" Demo.values))
                   w1 ("Command failed: " ++ failed) (w1 ++ [failed])%list
                   ltac:(vm_compute; reflexivity) ltac:(vm_compute; reflexivity)
                   ltac:(vm_compute; reflexivity) ltac:(vm_compute; reflexivity)).
    exact (f_equal fst F).
  - split; vm_compute; reflexivity.
Defined.

(** ** The summary *)

Lemma filter_all {A} (f : A -> bool) l : (forall x, In x l -> f x = true) -> filter f l = l.
Proof.
  induction l as [|x l IH]; intros H; [reflexivity|].
  cbn [filter]. rewrite (H x (or_introl eq_refl)), IH; [reflexivity|].
  intros y Hy. apply H. now right.
Qed.

Lemma filter_none {A} (f : A -> bool) l : (forall x, In x l -> f x = true) ->
  filter (fun x => negb (f x)) l = [].
Proof.
  induction l as [|x l IH]; intros H; [reflexivity|].
  cbn [filter]. rewrite (H x (or_introl eq_refl)). cbn [negb]. apply IH.
  intros y Hy. apply H. now right.
Qed.

Lemma filter_length_by_map {A} (f : A -> bool) : forall l1 l2,
  map f l1 = map f l2 ->
  List.length (filter f l1) = List.length (filter f l2)
  /\ List.length (filter (fun x => negb (f x)) l1)
     = List.length (filter (fun x => negb (f x)) l2).
Proof.
  induction l1 as [|x l1 IH]; intros [|y l2]; try discriminate; [now split|].
  cbn [map]. intros [= Hxy Hl]. destruct (IH _ Hl) as [H1 H2].
  cbn [filter]. rewrite Hxy. destruct (f y); cbn [negb List.length]; now rewrite H1, H2.
Qed.

Lemma failed_nonempty rs :
  In false (map success rs) -> List.length (filter (fun r => negb (success r)) rs) <> O.
Proof.
  induction rs as [|r rs IH]; [now cbn|].
  cbn [map In filter]. intros [H | H].
  - rewrite H. cbn. discriminate.
  - destruct (success r); cbn [negb]; [now apply IH | cbn; discriminate].
Qed.

(** [transformSummary] and [compressSummary] when a file has failed: the two
    counts and nothing else. *)
Lemma transformSummary_failed rs :
  In false (map success rs) ->
  transformSummary rs
  = failureSummary "optimize" "optimized"
      (List.length (filter success rs))
      (List.length (filter (fun r => negb (success r)) rs)).
Proof.
  intros H. apply failed_nonempty in H. unfold transformSummary, failureSummary.
  destruct (List.length (filter (fun r => negb (success r)) rs)) as [|nf] eqn:E;
    [congruence|].
  cbn [Nat.eqb]. destruct (List.length (filter success rs) =? 0)%nat; reflexivity.
Qed.

Lemma compressSummary_failed modeName rs :
  In false (map success rs) ->
  compressSummary modeName rs
  = failureSummary "compress" "compressed"
      (List.length (filter success rs))
      (List.length (filter (fun r => negb (success r)) rs)).
Proof.
  intros H. apply failed_nonempty in H. unfold compressSummary, failureSummary.
  destruct (List.length (filter (fun r => negb (success r)) rs)) as [|nf] eqn:E;
    [congruence|].
  cbn [Nat.eqb]. destruct (List.length (filter success rs) =? 0)%nat; reflexivity.
Qed.

Lemma settle_failed_iff W name (body : M W (Z * Z)) w :
  success (fst (settle W name body w)) = false
  <-> error (fst (settle W name body w)) <> None.
Proof.
  unfold settle. destruct (body w) as [[e|[o c]] w']; cbn; split; congruence.
Qed.

(** C6, as the program has it.  The message of the operation that fails is
    the [error] of the file's result, unchanged; the notification of a batch
    with a failure is fixed by the numbers of succeeded and failed files: two
    batches that succeed and fail at the same positions get the same text,
    whatever their messages. *)
Theorem failure_message_captured
    (W : Type) (execAsync : string -> M W string) (getFileSize : string -> M W Z)
    (parseFloatTemplate : string -> string) (values : FormValues) :
  let one := fun f => transformGlb W execAsync getFileSize parseFloatTemplate f values in
  (forall f w e w1,
     getFileSize f w = (inl e, w1) ->
     one f w = (mkResult (path_basename f) false (Some e) None None, w1))
  /\ (forall f w o w1 pre c post w2 e w3,
        getFileSize f w = (inr o, w1) ->
        commandLines parseFloatTemplate f values = (pre ++ c :: post)%list ->
        runCommands W execAsync pre w1 = (inr tt, w2) ->
        execAsync c w2 = (inl e, w3) ->
        one f w = (mkResult (path_basename f) false (Some e) None None, w3))
  /\ (forall f w o w1 w2 e w3,
        getFileSize f w = (inr o, w1) ->
        runCommands W execAsync (commandLines parseFloatTemplate f values) w1 = (inr tt, w2) ->
        getFileSize (transformOutputPath f) w2 = (inl e, w3) ->
        one f w = (mkResult (path_basename f) false (Some e) None None, w3))
  /\ (forall f w, success (fst (one f w)) = false <-> error (fst (one f w)) <> None)
  /\ (forall rs,
        In false (map success rs) ->
        transformSummary rs
        = failureSummary "optimize" "optimized"
            (List.length (filter success rs))
            (List.length (filter (fun r => negb (success r)) rs)))
  /\ (forall modeName rs1 rs2,
        map success rs1 = map success rs2 -> In false (map success rs1) ->
        transformSummary rs1 = transformSummary rs2
        /\ compressSummary modeName rs1 = compressSummary modeName rs2).
Proof.
  cbv zeta. split; [|split; [|split; [|split; [|split]]]].
  - intros f w e w1. apply transformGlb_size_fails.
  - intros f w o w1 pre c post w2 e w3. apply transformGlb_command_fails.
  - intros f w o w1 w2 e w3. apply transformGlb_output_size_fails.
  - intros f w. apply settle_failed_iff.
  - apply transformSummary_failed.
  - intros modeName rs1 rs2 Hmap Hin.
    destruct (filter_length_by_map success rs1 rs2 Hmap) as [H1 H2].
    rewrite !transformSummary_failed, !compressSummary_failed, H1, H2;
      try assumption; try (now rewrite <- Hmap).
    now split.
Qed.

(** In the world of the examples: the message of the failed command is in
    the result, and the text for two successes and one failure is the same
    with another message in its place. *)
Lemma failure_message_captured_witness :
  let b := "/models/b.glb" in
  let failed := "gltf-transform dedup " ++ quoted b ++ " " ++ quoted "/models/b_optimized.glb" in
  Demo.transformGlb (Some b) b []
  = (mkResult "b.glb" false (Some ("Command failed: " ++ failed)) None None, [failed])
  /\ transformSummary
       [mkResult "a.glb" true None (Some 100) (Some 50);
        mkResult "b.glb" false (Some ("Command failed: " ++ failed)) None None]
     = transformSummary
       [mkResult "x.glb" true None (Some 7) (Some 5);
        mkResult "y.glb" false (Some "spawn gltf-transform ENOENT") None None].
Proof.
  cbv zeta.
  destruct (failure_message_captured Demo.World (Demo.execAsync (Some "/models/b.glb"))
              Demo.getFileSize Demo.parseFloatTemplate Demo.values)
    as (_ & Hfail & _ & _ & _ & Hsame).
  split.
  - set (failed := "gltf-transform dedup " ++ quoted "/models/b.glb" ++ " "
                     ++ quoted "/models/b_optimized.glb").
    exact (Hfail "/models/b.glb" [] 200 [] [] failed
             (tl (commandLines Demo.parseFloatTemplate "/models/b.glb" Demo.values))
             [] ("Command failed: " ++ failed) [failed]
             ltac:(vm_compute; reflexivity) ltac:(vm_compute; reflexivity)
             ltac:(vm_compute; reflexivity) ltac:(vm_compute; reflexivity)).
  - apply (Hsame EmptyString); [reflexivity | cbn; auto].
Defined.

(** C6, as the claim words it, fails: the message of the failure is in the
    result, and the notification of the mixed batch and of the all-failed
    batch does not contain it. *)
Lemma failure_message_not_in_summary :
  let a := "/models/a.glb" in
  let b := "/models/b.glb" in
  let c := "/models/c.glb" in
  let message := "Command failed: gltf-transform dedup " ++ quoted b ++ " "
                   ++ quoted "/models/b_optimized.glb" in
  let mixed := fst (Demo.handleSubmit (Some b) [a; b; c] []) in
  let allFailed := fst (Demo.handleSubmit (Some b) [b] []) in
  (fst mixed
   = Some [mkResult "a.glb" true None (Some 100) (Some 50);
           mkResult "b.glb" false (Some message) None None;
           mkResult "c.glb" true None (Some 300) (Some 150)]
   /\ snd mixed = "⚠️ 2 optimized, 1 failed"
   /\ includes (snd mixed) message = false)
  /\ (fst allFailed = Some [mkResult "b.glb" false (Some message) None None]
      /\ snd allFailed = "❌ Failed to optimize 1 file"
      /\ includes (snd allFailed) message = false).
Proof. vm_compute. repeat split. Qed.

(** ** The percentage saved *)

Lemma substring_last_char : forall s,
  (1 <= String.length s)%nat ->
  exists d, substring (String.length s - 1) 1 s = String d EmptyString.
Proof.
  induction s as [|c s IH]; cbn [String.length]; intros H; [lia|].
  destruct s as [|c' s].
  - exists c. reflexivity.
  - destruct IH as [d Hd]; [cbn; lia|]. exists d.
    cbn [String.length] in Hd |- *.
    replace (S (String.length s) - 1)%nat with (String.length s) in Hd by lia.
    replace (S (S (String.length s)) - 1)%nat with (S (String.length s)) by lia.
    exact Hd.
Qed.

Lemma length_zeros n : String.length (zeros n) = n.
Proof. induction n; cbn; congruence. Qed.

Lemma string_length_app (a b : string) :
  String.length (a ++ b) = (String.length a + String.length b)%nat.
Proof. induction a; cbn; congruence. Qed.

(** One digit follows the point. *)
Lemma fixedDigits_one n :
  exists whole d, fixedDigits 1 n = whole ++ "." ++ String d EmptyString.
Proof.
  unfold fixedDigits. cbn [Nat.eqb].
  set (m := digitsText n).
  set (m' := if (String.length m <=? 1)%nat then zeros (1 + 1 - String.length m) ++ m else m).
  assert (Hk : (1 <= String.length m')%nat).
  { subst m'. destruct (Nat.leb_spec (String.length m) 1); [|lia].
    rewrite string_length_app, length_zeros. lia. }
  destruct (substring_last_char m' Hk) as [d Hd].
  exists (substring 0 (String.length m' - 1) m'), d. now rewrite Hd.
Qed.

Lemma summary_all_succeeded results :
  (forall r, In r results -> success r = true) ->
  filter success results = results
  /\ filter (fun r => negb (success r)) results = [].
Proof. intros H. split; [now apply filter_all | now apply filter_none]. Qed.

Lemma all_succeeded_summaries modeName results :
  (forall r, In r results -> success r = true) ->
  let savings := total originalSize results - total compressedSize results in
  let percent := savingsPercent savings (total originalSize results) in
  transformSummary results
  = "✅ Optimized " ++ natText (List.length results) ++ " file"
      ++ plural (List.length results) ++ " - Saved " ++ formatBytes savings
      ++ " (" ++ percent ++ "%)"
  /\ compressSummary modeName results
     = "✅ " ++ modeName ++ ": " ++ natText (List.length results) ++ " file"
         ++ plural (List.length results) ++ " - Saved " ++ formatBytes savings
         ++ " (" ++ percent ++ "%)".
Proof.
  intros Hall. cbv zeta.
  destruct (summary_all_succeeded results Hall) as [Hs Hf].
  unfold transformSummary, compressSummary. rewrite Hs, Hf. split; reflexivity.
Qed.

(** C7. When every file of a batch has succeeded, the notification the
    batch ends with, [handleSubmit]'s as well as [processGlbFiles]'s, carries
    the percentage [(total original - total compressed) / total original * 100],
    in binary64 arithmetic, printed by [toFixed(1)], the totals being those
    of the results of the run.  For totals 300 and 150 it is 50.0; the
    division is not guarded, a zero total gives NaN; a finite value below
    10^21 is printed with exactly one digit after the point. *)
Theorem savings_percent
    (W : Type) (execAsync : string -> M W string) (getFileSize : string -> M W Z)
    (getSelectedFinderItems : M W (list string))
    (parseFloatTemplate : string -> string) (values : FormValues)
    (mode : CompressionMode) (modeName : string)
    (w : W) (items : list string) (w1 : W) :
  getSelectedFinderItems w = (inr items, w1) ->
  filter isGlb items <> [] ->
  let savings results := total originalSize results - total compressedSize results in
  let percent results :=
    num_mul (num_div (ofZ (savings results)) (ofZ (total originalSize results)))
      (ofZ 100) in
  let advanced :=
    fst (processAll W
           (fun f => transformGlb W execAsync getFileSize parseFloatTemplate f values)
           (filter isGlb items) w1) in
  let fixed :=
    fst (processAll W (fun f => compressGlb W execAsync getFileSize f mode)
           (filter isGlb items) w1) in
  ((forall r, In r advanced -> success r = true) ->
   snd (fst (handleSubmit W execAsync getFileSize getSelectedFinderItems
               parseFloatTemplate values w))
   = "✅ Optimized " ++ natText (List.length advanced) ++ " file"
       ++ plural (List.length advanced) ++ " - Saved " ++ formatBytes (savings advanced)
       ++ " (" ++ toFixed 1 (percent advanced) ++ "%)")
  /\ ((forall r, In r fixed -> success r = true) ->
      snd (fst (processGlbFiles W execAsync getFileSize getSelectedFinderItems
                  mode modeName w))
      = "✅ " ++ modeName ++ ": " ++ natText (List.length fixed) ++ " file"
          ++ plural (List.length fixed) ++ " - Saved " ++ formatBytes (savings fixed)
          ++ " (" ++ toFixed 1 (percent fixed) ++ "%)")
  /\ List.length advanced = List.length (filter isGlb items)
  /\ List.length fixed = List.length (filter isGlb items)
  /\ (forall results,
        (forall r, In r results -> success r = true) ->
        transformSummary results
        = "✅ Optimized " ++ natText (List.length results) ++ " file"
            ++ plural (List.length results) ++ " - Saved " ++ formatBytes (savings results)
            ++ " (" ++ toFixed 1 (percent results) ++ "%)"
        /\ compressSummary modeName results
           = "✅ " ++ modeName ++ ": " ++ natText (List.length results) ++ " file"
               ++ plural (List.length results) ++ " - Saved "
               ++ formatBytes (savings results)
               ++ " (" ++ toFixed 1 (percent results) ++ "%)")
  /\ (forall results,
        (total originalSize results = 300 -> total compressedSize results = 150 ->
         toFixed 1 (percent results) = "50.0")
        /\ (total originalSize results = 0 -> total compressedSize results = 0 ->
            toFixed 1 (percent results) = "NaN")
        /\ (forall s m e,
              percent results = S754_finite s m e ->
              (0 <=? e) && (10 ^ 21 <=? Zpos m * 2 ^ e) = false ->
              exists whole d,
                toFixed 1 (percent results)
                = (if s then "-" else EmptyString) ++ whole ++ "."
                    ++ String d EmptyString)).
Proof.
  intros Hsel Hglb. cbv zeta.
  split; [|split; [|split; [|split; [|split]]]].
  - intros Hall.
    rewrite (handleSubmit_results W execAsync getFileSize getSelectedFinderItems
               parseFloatTemplate values w items w1 Hsel Hglb).
    cbn [fst snd].
    exact (proj1 (all_succeeded_summaries modeName _ Hall)).
  - intros Hall.
    rewrite (processGlbFiles_results W execAsync getFileSize getSelectedFinderItems
               mode modeName w items w1 Hsel Hglb).
    cbn [fst snd].
    exact (proj2 (all_succeeded_summaries modeName _ Hall)).
  - apply processAll_length.
  - apply processAll_length.
  - intros results Hall. exact (all_succeeded_summaries modeName results Hall).
  - intros results. split; [|split].
    + intros -> ->. vm_compute. reflexivity.
    + intros -> ->. vm_compute. reflexivity.
    + intros s m e -> Hsmall. unfold toFixed. rewrite Hsmall.
      destruct (fixedDigits_one (nearestScaled 1 m e)) as (whole & d & ->).
      now exists whole, d.
Qed.

(** Originals of 100 and 200 bytes, compressed to 50 and 100, in a batch of
    either kind; and a file of no bytes. *)
Lemma savings_percent_witness :
  snd (fst (Studio.handleSubmit None ["/models/a.glb"; "/models/b.glb"] []))
  = "✅ Optimized 2 files - Saved 150 Bytes (50.0%)"
  /\ snd (fst (Studio.processGlbFiles None ["/models/a.glb"; "/models/b.glb"] []))
     = "✅ Draco: 2 files - Saved 150 Bytes (50.0%)"
  /\ snd (fst (Studio.handleSubmit None ["/models/empty.glb"] []))
     = "✅ Optimized 1 file - Saved 0 Bytes (NaN%)".
Proof.
  destruct (savings_percent Demo.World (Demo.execAsync None) Studio.getFileSize
              (Demo.getSelectedFinderItems ["/models/a.glb"; "/models/b.glb"])
              Demo.parseFloatTemplate Demo.values draco "Draco"
              [] ["/models/a.glb"; "/models/b.glb"] [] eq_refl ltac:(discriminate))
    as (Ha & Hf & _).
  destruct (savings_percent Demo.World (Demo.execAsync None) Studio.getFileSize
              (Demo.getSelectedFinderItems ["/models/empty.glb"])
              Demo.parseFloatTemplate Demo.values draco "Draco"
              [] ["/models/empty.glb"] [] eq_refl ltac:(discriminate))
    as (Hz & _).
  split; [|split].
  - unfold Studio.handleSubmit. rewrite Ha; [vm_compute; reflexivity|].
    intros r Hr. vm_compute in Hr. destruct Hr as [<- | [<- | []]]; reflexivity.
  - unfold Studio.processGlbFiles. rewrite Hf; [vm_compute; reflexivity|].
    intros r Hr. vm_compute in Hr. destruct Hr as [<- | [<- | []]]; reflexivity.
  - unfold Studio.handleSubmit. rewrite Hz; [vm_compute; reflexivity|].
    intros r Hr. vm_compute in Hr. destruct Hr as [<- | []]; reflexivity.
Defined.

(** ** [formatBytes] *)

Lemma unitIndex_positive bytes : 1 <= bytes -> unitIndex bytes = Some (Z.log2 bytes / 10).
Proof. intros H. unfold unitIndex. destruct (Z.leb_spec bytes 0); [lia | reflexivity]. Qed.

Lemma unitIndex_range bytes i :
  1 <= bytes -> Z.log2 bytes / 10 = i ->
  0 <= i /\ 2 ^ (10 * i) <= bytes < 2 ^ (10 * (i + 1)).
Proof.
  intros Hb Hi.
  pose proof (Z.log2_nonneg bytes) as Hl.
  assert (Hdiv : 10 * i <= Z.log2 bytes < 10 * (i + 1)).
  { subst i. pose proof (Z.mul_div_le (Z.log2 bytes) 10 ltac:(lia)).
    pose proof (Z.mul_succ_div_gt (Z.log2 bytes) 10 ltac:(lia)). lia. }
  assert (0 <= i) by lia.
  split; [assumption|]. split.
  - apply Z.log2_le_pow2; lia.
  - apply Z.log2_lt_pow2; lia.
Qed.

Lemma pow_1024 i : 0 <= i -> 1024 ^ i = 2 ^ (10 * i).
Proof. intros H. change 1024 with (2 ^ 10). now rewrite <- Z.pow_mul_r by lia. Qed.

Lemma sizes_in_bounds i : 0 <= i -> (nth_error sizes (Z.to_nat i) <> None <-> i < 4).
Proof.
  intros H. rewrite nth_error_Some. cbn [sizes List.length]. lia.
Qed.

Lemma num_div_nan x : num_div x S754_nan = S754_nan.
Proof. now destruct x. Qed.

Lemma formatBytes_negative bytes : bytes < 0 -> formatBytes bytes = "NaN undefined".
Proof.
  intros H. unfold formatBytes, unitIndex.
  destruct (Z.eqb_spec bytes 0); [lia|].
  destruct (Z.leb_spec bytes 0); [|lia].
  cbn [powK sizesAt]. now rewrite num_div_nan.
Qed.

(** C8, as the claim words it, fails: 2^30 bytes are printed without the
    zeros of the fraction. *)
Lemma formatBytes_drops_zeros :
  formatBytes 1073741824 = "1 GB" /\ formatBytes 1073741824 <> "1.00 GB".
Proof. split; [vm_compute; reflexivity | vm_compute; discriminate]. Qed.

(** C8, as the program has it.  [formatBytes] gives ["0 Bytes"] for 0; for
    [1 <= bytes < 1024^4] it takes the largest unit of Bytes, KB, MB, GB
    that is not above [bytes] and prints the quotient rounded to two decimal
    places, without the zeros that end the fraction: 1536 is ["1.5 KB"] and
    2^30 is ["1 GB"]. *)
Theorem formatBytes_units :
  formatBytes 0 = "0 Bytes"
  /\ formatBytes 1536 = "1.5 KB"
  /\ formatBytes 1073741824 = "1 GB"
  /\ (forall bytes,
        1 <= bytes < 1024 ^ 4 ->
        exists i unit,
          unitIndex bytes = Some i
          /\ 0 <= i < 4
          /\ nth_error sizes (Z.to_nat i) = Some unit
          /\ 1024 ^ i <= bytes < 1024 ^ (i + 1)
          /\ formatBytes bytes
             = parseFloatText (toFixed 2 (num_div (ofZ bytes) (ofZ (1024 ^ i))))
                 ++ " " ++ unit).
Proof.
  split; [reflexivity|]. split; [vm_compute; reflexivity|].
  split; [vm_compute; reflexivity|].
  intros bytes [Hlo Hhi].
  destruct (unitIndex_range bytes _ Hlo eq_refl) as (Hi & Hle & Hlt).
  set (i := Z.log2 bytes / 10) in *.
  assert (Hi4 : i < 4).
  { destruct (Z.lt_ge_cases i 4) as [|Hge]; [assumption|].
    assert (2 ^ (10 * 4) <= 2 ^ (10 * i)) by (apply Z.pow_le_mono_r; lia).
    change (1024 ^ 4) with (2 ^ (10 * 4)) in Hhi. lia. }
  destruct (nth_error sizes (Z.to_nat i)) as [unit|] eqn:Eu.
  2:{ exfalso. apply (proj2 (sizes_in_bounds i Hi)); assumption. }
  exists i, unit.
  split; [now apply unitIndex_positive|].
  split; [lia|]. split; [exact Eu|].
  split; [rewrite !pow_1024 by lia; lia|].
  unfold formatBytes. rewrite unitIndex_positive by assumption. fold i.
  destruct (Z.eqb_spec bytes 0); [lia|].
  cbn [powK sizesAt]. destruct (Z.ltb_spec i 0); [lia|].
  now rewrite Eu.
Qed.

(** 1536 bytes: the unit with index 1. *)
Lemma formatBytes_units_witness :
  unitIndex 1536 = Some 1
  /\ 1024 ^ 1 <= 1536 < 1024 ^ 2
  /\ formatBytes 1536 = "1.5 KB".
Proof.
  destruct formatBytes_units as (_ & H1536 & _ & Hunit).
  destruct (Hunit 1536 ltac:(vm_compute; split; [discriminate | reflexivity]))
    as (i & unit & Hi & _ & _ & _ & _).
  split; [reflexivity|]. split; [vm_compute; split; [discriminate | reflexivity]|].
  exact H1536.
Defined.

(** In the range of the table the unit is one of the four names and the
    number is the quotient by the unit's size. *)
Lemma formatBytes_in_table bytes :
  1 <= bytes < 1024 ^ 4 ->
  exists i unit,
    unitIndex bytes = Some i
    /\ 0 <= i < 4
    /\ nth_error sizes (Z.to_nat i) = Some unit
    /\ 1024 ^ i <= bytes < 1024 ^ (i + 1)
    /\ formatBytes bytes
       = parseFloatText (toFixed 2 (num_div (ofZ bytes) (ofZ (1024 ^ i))))
           ++ " " ++ unit.
Proof.
  intros [Hlo Hhi].
  destruct (unitIndex_range bytes _ Hlo eq_refl) as (Hi & Hle & Hlt).
  set (i := Z.log2 bytes / 10) in *.
  assert (Hi4 : i < 4).
  { destruct (Z.lt_ge_cases i 4) as [|Hge]; [assumption|].
    assert (2 ^ (10 * 4) <= 2 ^ (10 * i)) by (apply Z.pow_le_mono_r; lia).
    change (1024 ^ 4) with (2 ^ (10 * 4)) in Hhi. lia. }
  destruct (nth_error sizes (Z.to_nat i)) as [unit|] eqn:Eu.
  2:{ exfalso. apply (proj2 (sizes_in_bounds i Hi)); assumption. }
  exists i, unit.
  split; [now apply unitIndex_positive|].
  split; [lia|]. split; [exact Eu|].
  split; [rewrite !pow_1024 by lia; lia|].
  unfold formatBytes. rewrite unitIndex_positive by assumption. fold i.
  destruct (Z.eqb_spec bytes 0); [lia|].
  cbn [powK sizesAt]. destruct (Z.ltb_spec i 0); [lia|].
  now rewrite Eu.
Qed.

(** C10. The unit is looked up in a table of four names by the floor of
    the logarithm in base 1024.  For [bytes <> 0] the index is in the table
    exactly when [1 <= bytes < 1024^4] (0 is answered before any index is
    computed), and there the text is well formed: the quotient by the
    unit's size, a blank and one of Bytes, KB, MB, GB.  From [1024^4] on the
    unit is [undefined]; for a negative number both the number and the unit
    are undefined, and the text is ["NaN undefined"].  That text is what a
    batch of either kind shows as the amount saved when every file
    succeeded and the compressed total exceeds the original total. *)
Theorem formatBytes_unit_bounds (bytes : Z) :
  (bytes = 0 -> formatBytes bytes = "0 Bytes")
  /\ (bytes <> 0 ->
      (sizesAt (unitIndex bytes) <> None <-> 1 <= bytes < 1024 ^ 4))
  /\ (1 <= bytes < 1024 ^ 4 ->
      exists i unit,
        unitIndex bytes = Some i
        /\ 0 <= i < 4
        /\ sizesAt (Some i) = Some unit
        /\ In unit ["Bytes"; "KB"; "MB"; "GB"]
        /\ 1024 ^ i <= bytes < 1024 ^ (i + 1)
        /\ formatBytes bytes
           = parseFloatText (toFixed 2 (num_div (ofZ bytes) (ofZ (1024 ^ i))))
               ++ " " ++ unit)
  /\ (1024 ^ 4 <= bytes ->
      sizesAt (unitIndex bytes) = None
      /\ exists number, formatBytes bytes = number ++ " undefined")
  /\ (bytes < 0 -> unitIndex bytes = None /\ formatBytes bytes = "NaN undefined")
  /\ (forall (W : Type) (execAsync : string -> M W string)
             (getFileSize : string -> M W Z)
             (getSelectedFinderItems : M W (list string))
             (parseFloatTemplate : string -> string) (values : FormValues)
             (mode : CompressionMode) (modeName : string)
             (w : W) (items : list string) (w1 : W),
        getSelectedFinderItems w = (inr items, w1) ->
        filter isGlb items <> [] ->
        bytes < 0 ->
        let advanced :=
          fst (processAll W
                 (fun f => transformGlb W execAsync getFileSize parseFloatTemplate f values)
                 (filter isGlb items) w1) in
        let fixed :=
          fst (processAll W (fun f => compressGlb W execAsync getFileSize f mode)
                 (filter isGlb items) w1) in
        ((forall r, In r advanced -> success r = true) ->
         total originalSize advanced - total compressedSize advanced = bytes ->
         snd (fst (handleSubmit W execAsync getFileSize getSelectedFinderItems
                     parseFloatTemplate values w))
         = "✅ Optimized " ++ natText (List.length advanced) ++ " file"
             ++ plural (List.length advanced) ++ " - Saved NaN undefined ("
             ++ savingsPercent bytes (total originalSize advanced) ++ "%)")
        /\ ((forall r, In r fixed -> success r = true) ->
            total originalSize fixed - total compressedSize fixed = bytes ->
            snd (fst (processGlbFiles W execAsync getFileSize getSelectedFinderItems
                        mode modeName w))
            = "✅ " ++ modeName ++ ": " ++ natText (List.length fixed) ++ " file"
                ++ plural (List.length fixed) ++ " - Saved NaN undefined ("
                ++ savingsPercent bytes (total originalSize fixed) ++ "%)")).
Proof.
  assert (Hbounds : 1 <= bytes ->
            (sizesAt (unitIndex bytes) <> None <-> bytes < 1024 ^ 4)).
  { intros Hb. rewrite unitIndex_positive by assumption.
    destruct (unitIndex_range bytes _ Hb eq_refl) as (Hi & Hle & Hlt).
    set (i := Z.log2 bytes / 10) in *.
    cbn [sizesAt]. destruct (Z.ltb_spec i 0); [lia|].
    rewrite sizes_in_bounds by assumption.
    change (1024 ^ 4) with (2 ^ (10 * 4)). split; intros H'.
    - assert (2 ^ (10 * (i + 1)) <= 2 ^ (10 * 4)) by (apply Z.pow_le_mono_r; lia). lia.
    - destruct (Z.lt_ge_cases i 4) as [|Hge]; [assumption|].
      assert (2 ^ (10 * 4) <= 2 ^ (10 * i)) by (apply Z.pow_le_mono_r; lia). lia. }
  split; [intros ->; reflexivity|].
  split; [|split; [|split; [|split]]].
  - intros Hne.
    destruct (Z.lt_ge_cases bytes 1) as [Hneg | Hpos].
    + unfold unitIndex. destruct (Z.leb_spec bytes 0); [|lia].
      cbn [sizesAt]. split; [congruence | lia].
    + rewrite (Hbounds Hpos). lia.
  - intros Hin.
    destruct (formatBytes_in_table bytes Hin) as (i & unit & Hi & Hr & Eu & Hb & Ht).
    exists i, unit. split; [exact Hi|]. split; [exact Hr|].
    assert (Hs : sizesAt (Some i) = Some unit).
    { cbn [sizesAt]. destruct (Z.ltb_spec i 0); [lia | exact Eu]. }
    split; [exact Hs|]. split; [|split; [exact Hb | exact Ht]].
    apply nth_error_In in Eu. exact Eu.
  - intros Hbig.
    assert (Hpos : 1 <= bytes) by (change (1024 ^ 4) with 1099511627776 in Hbig; lia).
    assert (Hnone : sizesAt (unitIndex bytes) = None).
    { destruct (sizesAt (unitIndex bytes)) eqn:E; [|reflexivity].
      assert (bytes < 1024 ^ 4) by (apply (Hbounds Hpos); congruence). lia. }
    split; [exact Hnone|].
    unfold formatBytes. destruct (Z.eqb_spec bytes 0); [lia|].
    rewrite Hnone. eexists. reflexivity.
  - intros Hneg. split; [|now apply formatBytes_negative].
    unfold unitIndex. destruct (Z.leb_spec bytes 0); [reflexivity | lia].
  - intros W execAsync getFileSize getSelectedFinderItems parseFloatTemplate values
      mode modeName w items w1 Hsel Hglb Hneg. cbv zeta. split.
    + intros Hall Htotal.
      rewrite (handleSubmit_results W execAsync getFileSize getSelectedFinderItems
                 parseFloatTemplate values w items w1 Hsel Hglb).
      cbn [fst snd].
      rewrite (proj1 (all_succeeded_summaries modeName _ Hall)).
      now rewrite Htotal, (formatBytes_negative bytes Hneg).
    + intros Hall Htotal.
      rewrite (processGlbFiles_results W execAsync getFileSize getSelectedFinderItems
                 mode modeName w items w1 Hsel Hglb).
      cbn [fst snd].
      rewrite (proj2 (all_succeeded_summaries modeName _ Hall)).
      now rewrite Htotal, (formatBytes_negative bytes Hneg).
Qed.

(** A file of 100 bytes that grows to 150, in a batch of either kind; and
    the two ends of the table. *)
Lemma formatBytes_unit_bounds_witness :
  formatBytes (-50) = "NaN undefined"
  /\ formatBytes (1024 ^ 4) = "1 undefined"
  /\ formatBytes (1024 ^ 4 - 1) = "1024 GB"
  /\ formatBytes 1 = "1 Bytes"
  /\ snd (fst (Studio.handleSubmit None ["/models/tiny.glb"] []))
     = "✅ Optimized 1 file - Saved NaN undefined (-50.0%)"
  /\ snd (fst (Studio.processGlbFiles None ["/models/tiny.glb"] []))
     = "✅ Draco: 1 file - Saved NaN undefined (-50.0%)".
Proof.
  destruct (formatBytes_unit_bounds (-50)) as (_ & _ & _ & _ & Hneg & Hrun).
  destruct (Hrun Demo.World (Demo.execAsync None) Studio.getFileSize
              (Demo.getSelectedFinderItems ["/models/tiny.glb"])
              Demo.parseFloatTemplate Demo.values draco "Draco"
              [] ["/models/tiny.glb"] [] eq_refl ltac:(discriminate) eq_refl)
    as (Ha & Hf).
  split; [exact (proj2 (Hneg eq_refl))|].
  split; [vm_compute; reflexivity|].
  split; [vm_compute; reflexivity|].
  split; [vm_compute; reflexivity|].
  split.
  - unfold Studio.handleSubmit. rewrite Ha; [vm_compute; reflexivity| |reflexivity].
    intros r Hr. vm_compute in Hr. destruct Hr as [<- | []]; reflexivity.
  - unfold Studio.processGlbFiles. rewrite Hf; [vm_compute; reflexivity| |reflexivity].
    intros r Hr. vm_compute in Hr. destruct Hr as [<- | []]; reflexivity.
Defined.

(** ** Stepping through the reports *)

Section Navigation.

Variable reports : list InspectionResult.

Let n : Z := Z.of_nat (List.length reports).

Lemma currentResult_range i :
  currentResult (mkView reports i) <> None <-> 0 <= i < n.
Proof.
  unfold currentResult, n. cbn [selectedFileIndex results].
  destruct (Z.ltb_spec i 0).
  - split; [congruence | lia].
  - rewrite nth_error_Some. lia.
Qed.

Lemma nextFile_mod i :
  0 <= i < n -> nextFile (mkView reports i) = mkView reports ((i + 1) mod n).
Proof.
  intros H. unfold nextFile. cbn [selectedFileIndex results]. fold n.
  now rewrite Z.rem_mod_nonneg by lia.
Qed.

Lemma previousFile_mod i :
  0 <= i < n -> previousFile (mkView reports i) = mkView reports ((i - 1) mod n).
Proof.
  intros H. unfold previousFile. cbn [selectedFileIndex results]. fold n.
  rewrite Z.rem_mod_nonneg by lia.
  f_equal. replace (i - 1 + n) with (i - 1 + 1 * n) by lia.
  now rewrite Z.mod_add by lia.
Qed.

Lemma nextFile_iter i : 0 <= i < n -> forall j,
  Nat.iter j nextFile (mkView reports i) = mkView reports ((i + Z.of_nat j) mod n).
Proof.
  intros H. induction j as [|j IH].
  - cbn. now rewrite Z.add_0_r, Z.mod_small.
  - rewrite Nat.iter_succ, IH, nextFile_mod by (apply Z.mod_pos_bound; lia).
    f_equal. rewrite Zplus_mod_idemp_l. f_equal. lia.
Qed.

Lemma previousFile_iter i : 0 <= i < n -> forall j,
  Nat.iter j previousFile (mkView reports i) = mkView reports ((i - Z.of_nat j) mod n).
Proof.
  intros H. induction j as [|j IH].
  - cbn. now rewrite Z.sub_0_r, Z.mod_small.
  - rewrite Nat.iter_succ, IH, previousFile_mod by (apply Z.mod_pos_bound; lia).
    f_equal. rewrite Zminus_mod_idemp_l. f_equal. lia.
Qed.

End Navigation.

(** C9. While a report is shown (so the collection has N >= 1 reports and
    the index is one of them), each step moves the index by one modulo N:
    the index stays within 0 .. N-1, and N steps forward, or N steps back,
    come back to the report they started from. *)
Theorem navigation_cycles (v : InspectView) :
  currentResult v <> None ->
  let N := List.length (results v) in
  Nat.iter N nextFile v = v
  /\ Nat.iter N previousFile v = v
  /\ selectedFileIndex (nextFile v) = (selectedFileIndex v + 1) mod Z.of_nat N
  /\ selectedFileIndex (previousFile v) = (selectedFileIndex v - 1) mod Z.of_nat N
  /\ (forall j,
        results (Nat.iter j nextFile v) = results v
        /\ 0 <= selectedFileIndex (Nat.iter j nextFile v) < Z.of_nat N
        /\ currentResult (Nat.iter j nextFile v) <> None)
  /\ (forall j,
        results (Nat.iter j previousFile v) = results v
        /\ 0 <= selectedFileIndex (Nat.iter j previousFile v) < Z.of_nat N
        /\ currentResult (Nat.iter j previousFile v) <> None).
Proof.
  destruct v as [reports i]. intros Hshown. cbn [results selectedFileIndex].
  apply currentResult_range in Hshown.
  split; [|split; [|split; [|split; [|split]]]].
  - rewrite nextFile_iter by assumption. f_equal.
    replace (i + Z.of_nat (List.length reports))
      with (i + 1 * Z.of_nat (List.length reports)) by lia.
    rewrite Z.mod_add by lia. now apply Z.mod_small.
  - rewrite previousFile_iter by assumption. f_equal.
    replace (i - Z.of_nat (List.length reports))
      with (i + (-1) * Z.of_nat (List.length reports)) by lia.
    rewrite Z.mod_add by lia. now apply Z.mod_small.
  - now rewrite nextFile_mod.
  - now rewrite previousFile_mod.
  - intros j. rewrite nextFile_iter by assumption. cbn [results selectedFileIndex].
    assert (Hk : 0 <= (i + Z.of_nat j) mod Z.of_nat (List.length reports)
                 < Z.of_nat (List.length reports)) by (apply Z.mod_pos_bound; lia).
    split; [reflexivity|]. split; [exact Hk|]. now apply currentResult_range.
  - intros j. rewrite previousFile_iter by assumption. cbn [results selectedFileIndex].
    assert (Hk : 0 <= (i - Z.of_nat j) mod Z.of_nat (List.length reports)
                 < Z.of_nat (List.length reports)) by (apply Z.mod_pos_bound; lia).
    split; [reflexivity|]. split; [exact Hk|]. now apply currentResult_range.
Qed.

(** Three reports, the second one shown. *)
Lemma navigation_cycles_witness :
  let reports := [mkInspection "a.glb" (Some "report a") None;
                  mkInspection "b.glb" None (Some "Failed to inspect file");
                  mkInspection "c.glb" (Some "report c") None] in
  let v := mkView reports 1 in
  currentResult v <> None
  /\ nextFile (nextFile (nextFile v)) = v
  /\ previousFile (previousFile (previousFile v)) = v
  /\ selectedFileIndex (nextFile (nextFile v)) = 0
  /\ selectedFileIndex (previousFile (previousFile v)) = 2.
Proof.
  cbv zeta.
  assert (Hshown : currentResult
            (mkView [mkInspection "a.glb" (Some "report a") None;
                     mkInspection "b.glb" None (Some "Failed to inspect file");
                     mkInspection "c.glb" (Some "report c") None] 1) <> None)
    by (vm_compute; discriminate).
  destruct (navigation_cycles _ Hshown) as (Hnext & Hprev & _).
  split; [exact Hshown|]. split; [exact Hnext|]. split; [exact Hprev|].
  split; reflexivity.
Defined.

(** * Further properties *)

(** ** The pipeline: size, distinct steps, defaults, command lines *)

Section PipelineMore.

Variable parseFloatTemplate : string -> string.

Lemma chain_length out : forall steps inp,
  List.length (chain out inp steps) = List.length steps.
Proof.
  induction steps as [|[c a] steps IH]; intros inp; [reflexivity|].
  cbn [chain List.length]. now rewrite IH.
Qed.


Lemma enabledSteps_length values :
  (List.length (enabledSteps parseFloatTemplate values) <= 13)%nat.
Proof.
  unfold enabledSteps. rewrite length_map.
  exact (filter_length_le fst (priorityOrder parseFloatTemplate values)).
Qed.

(** X1. A pipeline has at least one command and at most thirteen; when the
    configuration enables a step, it has one command for each enabled step. *)
Theorem pipeline_size (filePath : string) (values : FormValues) :
  (1 <= List.length (commandLines parseFloatTemplate filePath values) <= 13)%nat
  /\ (enabledSteps parseFloatTemplate values <> [] ->
      List.length (commandLines parseFloatTemplate filePath values)
      = List.length (filter fst (priorityOrder parseFloatTemplate values))).
Proof.
  unfold commandLines. rewrite length_map, pipeline_chain, chain_length.
  pose proof (enabledSteps_length values) as Hle.
  split.
  - unfold plannedSteps.
    destruct (enabledSteps parseFloatTemplate values) as [|s l]; cbn [List.length] in *; lia.
  - intros Hne. rewrite (enabled_planned _ _ Hne). unfold enabledSteps.
    now rewrite length_map.
Qed.









Lemma trim_plain_end (body : string) (c : ascii) :
  negb (isBlank1 (nat_of_ascii c)) && negb (isContinuation (nat_of_ascii c)) = true ->
  trim (String "g" (body ++ String c EmptyString))
  = String "g" (body ++ String c EmptyString).
Proof.
  intros Hc. apply andb_true_iff in Hc as [Hb Hk].
  apply negb_true_iff in Hb. unfold trim.
  rewrite (trimWith_stop blankPrefix) by reflexivity.
  rewrite (trimWith_stop blankSuffix).
  - now rewrite rev_involutive, text_chars.
  - change (chars (String "g" (body ++ String c EmptyString)))
      with ("g"%char :: chars (body ++ String c EmptyString)).
    rewrite chars_app. change (chars (String c EmptyString)) with [c].
    change ("g"%char :: chars body ++ [c])%list with (("g"%char :: chars body) ++ [c])%list.
    rewrite rev_app_distr. cbn [rev app blankSuffix]. now rewrite Hb, Hk.
Qed.

Lemma endsPlain_last a :
  endsPlain a = true ->
  exists a' c, a = a' ++ String c EmptyString
    /\ negb (isBlank1 (nat_of_ascii c)) && negb (isContinuation (nat_of_ascii c)) = true.
Proof.
  unfold endsPlain. intros H.
  destruct (rev (chars a)) as [|c r] eqn:E; [discriminate|].
  exists (text (rev r)), c. split; [|exact H].
  apply chars_inj. rewrite chars_app, chars_text.
  apply (f_equal (@rev ascii)) in E. rewrite rev_involutive in E. exact E.
Qed.

(** X4. The command line of a step of a pipeline: without arguments it is
    [gltf-transform], the sub-command, the input and the output, with no
    blank after the output; with arguments that end in an ASCII character
    other than a blank, the arguments follow as they are. *)
Theorem command_line_text (filePath : string) (values : FormValues) (s : TransformStep) :
  In s (pipeline parseFloatTemplate filePath values) ->
  (args s = EmptyString ->
     commandText s = "gltf-transform " ++ cmd s ++ " " ++ input s ++ " " ++ output s)
  /\ (endsPlain (args s) = true ->
      commandText s
      = "gltf-transform " ++ cmd s ++ " " ++ input s ++ " " ++ output s ++ " " ++ args s).
Proof.
  intros Hin. pose proof (pipeline_outputs _ _ _ _ Hin) as Hout.
  unfold commandText. rewrite Hout. split.
  - intros ->.
    set (body := "ltf-transform " ++ cmd s ++ " " ++ input s ++ " "
                   ++ String dquote (transformOutputPath filePath)).
    transitivity (trim (String "g" (body ++ String dquote " "))).
    + f_equal. subst body. unfold quoted. string_eq.
    + rewrite trim_quote_space. subst body. unfold quoted. string_eq.
  - intros Hp. destruct (endsPlain_last _ Hp) as (a' & c & -> & Hc).
    set (body := "ltf-transform " ++ cmd s ++ " " ++ input s ++ " "
                   ++ quoted (transformOutputPath filePath) ++ " " ++ a').
    transitivity (trim (String "g" (body ++ String c EmptyString))).
    + f_equal. subst body. string_eq.
    + rewrite (trim_plain_end _ _ Hc). subst body. string_eq.
Qed.

End PipelineMore.

(** The form's starting values give five commands, every step off gives one. *)
Lemma pipeline_size_witness :
  List.length (commandLines Demo.parseFloatTemplate "/models/a.glb" Demo.values) = 5%nat
  /\ List.length (commandLines Demo.parseFloatTemplate "/models/a.glb" Demo.nothing) = 1%nat.
Proof.
  destruct (pipeline_size Demo.parseFloatTemplate "/models/a.glb" Demo.values) as [_ H].
  split; [|reflexivity].
  rewrite H; [reflexivity | discriminate].
Defined.



(** The simplify step of that pipeline, with its ratio. *)
Lemma command_line_text_witness :
  let s := mkStep "simplify" "--ratio 0.75" (quoted "/models/a_optimized.glb")
             (quoted "/models/a_optimized.glb") in
  In s (pipeline Demo.parseFloatTemplate "/models/a.glb" Demo.weldSimplify)
  /\ endsPlain (args s) = true
  /\ commandText s
     = "gltf-transform simplify " ++ quoted "/models/a_optimized.glb" ++ " "
         ++ quoted "/models/a_optimized.glb" ++ " --ratio 0.75".
Proof.
  cbv zeta.
  set (s := mkStep "simplify" "--ratio 0.75" (quoted "/models/a_optimized.glb")
              (quoted "/models/a_optimized.glb")).
  assert (Hin : In s (pipeline Demo.parseFloatTemplate "/models/a.glb" Demo.weldSimplify))
    by (vm_compute; auto 10).
  split; [exact Hin|]. split; [reflexivity|].
  rewrite (proj2 (command_line_text Demo.parseFloatTemplate "/models/a.glb"
                    Demo.weldSimplify s Hin) eq_refl).
  reflexivity.
Defined.

(** ** The batch: what is run, and what a result says *)

Lemma In_firstn {A} (x : A) n l : In x (firstn n l) -> In x l.
Proof.
  intros H. rewrite <- (firstn_skipn n l). apply in_or_app. now left.
Qed.

Section Runs.

Variable W : Type.
Variable execAsync : string -> M W string.
Variable getFileSize : string -> M W Z.
Variable getSelectedFinderItems : M W (list string).
Variable parseFloatTemplate : string -> string.

Lemma recording_eq c w log :
  recording execAsync c (w, log)
  = (fst (execAsync c w), (snd (execAsync c w), (log ++ [c])%list)).
Proof. unfold recording. cbn [fst snd]. now destruct (execAsync c w). Qed.

Lemma observing_eq {A} (m : M W A) w log :
  observing m (w, log) = (fst (m w), (snd (m w), log)).
Proof. unfold observing. cbn [fst snd]. now destruct (m w). Qed.

(** The commands run are the first [n] of the list: all of them when the
    loop ends well, those up to the failed one otherwise. *)
Lemma runCommands_recorded cs : forall w log,
  exists n,
    runCommands (Recorded W) (recording execAsync) cs (w, log)
    = (fst (runCommands W execAsync cs w),
       (snd (runCommands W execAsync cs w), (log ++ firstn n cs)%list))
    /\ (fst (runCommands W execAsync cs w) = inr tt -> firstn n cs = cs).
Proof.
  induction cs as [|c cs IH]; intros w log.
  - exists O. cbn. rewrite app_nil_r. now split.
  - rewrite !runCommands_cons, recording_eq.
    destruct (execAsync c w) as [[e|out] w1]; cbn [fst snd].
    + exists 1%nat. split; [reflexivity | discriminate].
    + destruct (IH w1 (log ++ [c])%list) as (n & E & Hall).
      exists (S n). rewrite E. cbn [firstn]. rewrite <- app_assoc. cbn [app].
      split; [reflexivity|]. intros H. now rewrite (Hall H).
Qed.

Lemma transformGlb_recorded filePath values w log :
  exists n,
    transformGlb (Recorded W) (recording execAsync) (fun p => observing (getFileSize p))
      parseFloatTemplate filePath values (w, log)
    = (fst (transformGlb W execAsync getFileSize parseFloatTemplate filePath values w),
       (snd (transformGlb W execAsync getFileSize parseFloatTemplate filePath values w),
        (log ++ firstn n (commandLines parseFloatTemplate filePath values))%list))
    /\ (success (fst (transformGlb W execAsync getFileSize parseFloatTemplate
                        filePath values w)) = true ->
        firstn n (commandLines parseFloatTemplate filePath values)
        = commandLines parseFloatTemplate filePath values).
Proof.
  unfold transformGlb, settle, bind. rewrite observing_eq.
  destruct (getFileSize filePath w) as [[e|o] w1]; cbn [fst snd].
  { exists O. cbn [firstn]. rewrite app_nil_r. split; [reflexivity | discriminate]. }
  destruct (runCommands_recorded (commandLines parseFloatTemplate filePath values) w1 log)
    as (n & E & Hall).
  exists n. rewrite E.
  destruct (runCommands W execAsync (commandLines parseFloatTemplate filePath values) w1)
    as [[e|[]] w2]; cbn [fst snd] in *.
  { split; [reflexivity | discriminate]. }
  rewrite observing_eq.
  destruct (getFileSize (transformOutputPath filePath) w2) as [[e|c] w3]; cbn [fst snd].
  - split; [reflexivity | discriminate].
  - split; [reflexivity | intros _; now apply Hall].
Qed.

Lemma compressGlb_recorded filePath mode w log :
  exists n,
    compressGlb (Recorded W) (recording execAsync) (fun p => observing (getFileSize p))
      filePath mode (w, log)
    = (fst (compressGlb W execAsync getFileSize filePath mode w),
       (snd (compressGlb W execAsync getFileSize filePath mode w),
        (log ++ firstn n [compressCommand filePath mode])%list))
    /\ (success (fst (compressGlb W execAsync getFileSize filePath mode w)) = true ->
        firstn n [compressCommand filePath mode] = [compressCommand filePath mode]).
Proof.
  unfold compressGlb, settle, bind. rewrite observing_eq.
  destruct (getFileSize filePath w) as [[e|o] w1]; cbn [fst snd].
  { exists O. cbn [firstn]. rewrite app_nil_r. split; [reflexivity | discriminate]. }
  rewrite recording_eq. exists 1%nat. cbn [firstn].
  destruct (execAsync (compressCommand filePath mode) w1) as [[e|out] w2]; cbn [fst snd].
  { split; [reflexivity | discriminate]. }
  rewrite observing_eq.
  destruct (getFileSize (compressOutputPath filePath mode) w2) as [[e|c] w3];
    cbn [fst snd]; split; reflexivity || discriminate.
Qed.

(** A batch in the recording world: the batch itself, and a record that
    grows by commands of the files at hand only. *)
Lemma processAll_recorded
    (one : string -> W -> CompressionResult * W)
    (oneR : string -> Recorded W -> CompressionResult * Recorded W)
    (lines : string -> list string) :
  (forall f w log, exists n,
      oneR f (w, log) = (fst (one f w), (snd (one f w), (log ++ firstn n (lines f))%list))) ->
  forall files w log,
  exists ran,
    processAll (Recorded W) oneR files (w, log)
    = (fst (processAll W one files w), (snd (processAll W one files w), (log ++ ran)%list))
    /\ (forall c, In c ran -> exists f, In f files /\ In c (lines f)).
Proof.
  intros Hone. induction files as [|f files IH]; intros w log.
  - exists []. cbn. rewrite app_nil_r. split; [reflexivity | contradiction].
  - cbn [processAll]. destruct (Hone f w log) as (n & E). rewrite E.
    destruct (one f w) as [r w1]. cbn [fst snd].
    destruct (IH w1 (log ++ firstn n (lines f))%list) as (ran & E' & Hran).
    rewrite E'. destruct (processAll W one files w1) as [rs w2]. cbn [fst snd].
    exists (firstn n (lines f) ++ ran)%list. rewrite app_assoc. split; [reflexivity|].
    intros c Hc. apply in_app_iff in Hc as [Hc | Hc].
    + exists f. split; [now left | eapply In_firstn, Hc].
    + destruct (Hran c Hc) as (f' & Hf' & Hc'). exists f'. split; [now right | exact Hc'].
Qed.

Lemma handleSubmit_recorded values w :
  exists ran,
    handleSubmit (Recorded W) (recording execAsync) (fun p => observing (getFileSize p))
      (observing getSelectedFinderItems) parseFloatTemplate values (w, [])
    = (fst (handleSubmit W execAsync getFileSize getSelectedFinderItems
              parseFloatTemplate values w),
       (snd (handleSubmit W execAsync getFileSize getSelectedFinderItems
               parseFloatTemplate values w), ran))
    /\ (forall c, In c ran ->
        exists items w1 f,
          getSelectedFinderItems w = (inr items, w1)
          /\ In f items /\ isGlb f = true
          /\ In c (commandLines parseFloatTemplate f values)).
Proof.
  unfold handleSubmit. rewrite observing_eq.
  destruct (getSelectedFinderItems w) as [[e|items] w1]; cbn [fst snd].
  { exists []. split; [reflexivity | contradiction]. }
  destruct (List.length items =? 0)%nat.
  { exists []. split; [reflexivity | contradiction]. }
  destruct (List.length (filter isGlb items) =? 0)%nat.
  { exists []. split; [reflexivity | contradiction]. }
  destruct (processAll_recorded
              (fun f => transformGlb W execAsync getFileSize parseFloatTemplate f values)
              (fun f => transformGlb (Recorded W) (recording execAsync)
                          (fun p => observing (getFileSize p)) parseFloatTemplate f values)
              (fun f => commandLines parseFloatTemplate f values)
              (fun f w0 log =>
                 match transformGlb_recorded f values w0 log with
                 | ex_intro _ n (conj E _) => ex_intro _ n E
                 end)
              (filter isGlb items) w1 []) as (ran & E & Hran).
  exists ran. rewrite E.
  destruct (processAll W _ (filter isGlb items) w1) as [rs w2]. cbn [fst snd app].
  split; [reflexivity|].
  intros c Hc. destruct (Hran c Hc) as (f & Hf & Hcf).
  apply filter_In in Hf as [Hf Hglb]. now exists items, w1, f.
Qed.

Lemma processGlbFiles_recorded mode modeName w :
  exists ran,
    processGlbFiles (Recorded W) (recording execAsync) (fun p => observing (getFileSize p))
      (observing getSelectedFinderItems) mode modeName (w, [])
    = (fst (processGlbFiles W execAsync getFileSize getSelectedFinderItems mode modeName w),
       (snd (processGlbFiles W execAsync getFileSize getSelectedFinderItems mode modeName w),
        ran))
    /\ (forall c, In c ran ->
        exists items w1 f,
          getSelectedFinderItems w = (inr items, w1)
          /\ In f items /\ isGlb f = true
          /\ c = compressCommand f mode).
Proof.
  unfold processGlbFiles. rewrite observing_eq.
  destruct (getSelectedFinderItems w) as [[e|items] w1]; cbn [fst snd].
  { exists []. split; [reflexivity | contradiction]. }
  destruct (List.length items =? 0)%nat.
  { exists []. split; [reflexivity | contradiction]. }
  destruct (List.length (filter isGlb items) =? 0)%nat.
  { exists []. split; [reflexivity | contradiction]. }
  destruct (processAll_recorded
              (fun f => compressGlb W execAsync getFileSize f mode)
              (fun f => compressGlb (Recorded W) (recording execAsync)
                          (fun p => observing (getFileSize p)) f mode)
              (fun f => [compressCommand f mode])
              (fun f w0 log =>
                 match compressGlb_recorded f mode w0 log with
                 | ex_intro _ n (conj E _) => ex_intro _ n E
                 end)
              (filter isGlb items) w1 []) as (ran & E & Hran).
  exists ran. rewrite E.
  destruct (processAll W _ (filter isGlb items) w1) as [rs w2]. cbn [fst snd app].
  split; [reflexivity|].
  intros c Hc. destruct (Hran c Hc) as (f & Hf & Hcf).
  apply filter_In in Hf as [Hf Hglb]. destruct Hcf as [<- | []]. now exists items, w1, f.
Qed.

Lemma settle_wellFormed name (body : M W (Z * Z)) w :
  wellFormed (fst (settle W name body w)).
Proof.
  unfold settle, wellFormed. destruct (body w) as [[e|[o c]] w']; cbn.
  - right. repeat split; congruence.
  - left. repeat split; congruence.
Qed.

Lemma processAll_Forall (P : CompressionResult -> Prop)
    (one : string -> W -> CompressionResult * W) :
  (forall f w, P (fst (one f w))) ->
  forall files w, Forall P (fst (processAll W one files w)).
Proof.
  intros Hone. induction files as [|f files IH]; intros w; [constructor|].
  cbn [processAll]. specialize (Hone f w). destruct (one f w) as [r w1].
  specialize (IH w1). destruct (processAll W one files w1). now constructor.
Qed.

(** A successful result: every operation went through. *)
Lemma transformGlb_success_inv filePath values w :
  success (fst (transformGlb W execAsync getFileSize parseFloatTemplate filePath values w))
  = true ->
  exists o w1 w2 c w3,
    getFileSize filePath w = (inr o, w1)
    /\ runCommands W execAsync (commandLines parseFloatTemplate filePath values) w1
       = (inr tt, w2)
    /\ getFileSize (transformOutputPath filePath) w2 = (inr c, w3)
    /\ transformGlb W execAsync getFileSize parseFloatTemplate filePath values w
       = (mkResult (path_basename filePath) true None (Some o) (Some c), w3).
Proof.
  unfold transformGlb, settle, bind.
  destruct (getFileSize filePath w) as [[e|o] w1] eqn:E1; [discriminate|].
  destruct (runCommands W execAsync (commandLines parseFloatTemplate filePath values) w1)
    as [[e|[]] w2] eqn:E2; [discriminate|].
  destruct (getFileSize (transformOutputPath filePath) w2) as [[e|c] w3] eqn:E3;
    [discriminate|].
  intros _. exists o, w1, w2, c, w3. repeat split; assumption || reflexivity.
Qed.

End Runs.

(** X5. Whatever the selection holds, a batch runs only command lines of
    the pipelines of the selected files whose path ends in [.glb] (in any
    case of the letters); a fixed-mode batch runs only the one optimize
    command of such a file.  The record of the commands changes nothing
    else of the run. *)
Theorem only_selected_glb_commands_run
    (W : Type) (execAsync : string -> M W string) (getFileSize : string -> M W Z)
    (getSelectedFinderItems : M W (list string))
    (parseFloatTemplate : string -> string) (values : FormValues)
    (mode : CompressionMode) (modeName : string) (w : W) :
  (exists ran,
     handleSubmit (Recorded W) (recording execAsync) (fun p => observing (getFileSize p))
       (observing getSelectedFinderItems) parseFloatTemplate values (w, [])
     = (fst (handleSubmit W execAsync getFileSize getSelectedFinderItems
               parseFloatTemplate values w),
        (snd (handleSubmit W execAsync getFileSize getSelectedFinderItems
                parseFloatTemplate values w), ran))
     /\ (forall c, In c ran ->
         exists items w1 f,
           getSelectedFinderItems w = (inr items, w1)
           /\ In f items /\ isGlb f = true
           /\ In c (commandLines parseFloatTemplate f values)))
  /\ (exists ran,
        processGlbFiles (Recorded W) (recording execAsync)
          (fun p => observing (getFileSize p))
          (observing getSelectedFinderItems) mode modeName (w, [])
        = (fst (processGlbFiles W execAsync getFileSize getSelectedFinderItems
                  mode modeName w),
           (snd (processGlbFiles W execAsync getFileSize getSelectedFinderItems
                   mode modeName w), ran))
        /\ (forall c, In c ran ->
            exists items w1 f,
              getSelectedFinderItems w = (inr items, w1)
              /\ In f items /\ isGlb f = true
              /\ c = compressCommand f mode)).
Proof.
  split; [apply handleSubmit_recorded | apply processGlbFiles_recorded].
Qed.

(** X6. A result says success only when the size of the input was read,
    every command of the pipeline ran and ended well, in order, and the size
    of the output was read; the two sizes of the result are those two
    readings. *)
Theorem success_means_all_ran
    (W : Type) (execAsync : string -> M W string) (getFileSize : string -> M W Z)
    (parseFloatTemplate : string -> string) (values : FormValues)
    (filePath : string) (w : W) :
  success (fst (transformGlb W execAsync getFileSize parseFloatTemplate filePath values w))
  = true ->
  (exists o w1 w2 c w3,
     getFileSize filePath w = (inr o, w1)
     /\ runCommands W execAsync (commandLines parseFloatTemplate filePath values) w1
        = (inr tt, w2)
     /\ getFileSize (transformOutputPath filePath) w2 = (inr c, w3)
     /\ transformGlb W execAsync getFileSize parseFloatTemplate filePath values w
        = (mkResult (path_basename filePath) true None (Some o) (Some c), w3))
  /\ (forall log,
        snd (snd (transformGlb (Recorded W) (recording execAsync)
                    (fun p => observing (getFileSize p)) parseFloatTemplate
                    filePath values (w, log)))
        = (log ++ commandLines parseFloatTemplate filePath values)%list).
Proof.
  intros Hs. split; [now apply transformGlb_success_inv|].
  intros log.
  destruct (transformGlb_recorded W execAsync getFileSize parseFloatTemplate
              filePath values w log) as (n & E & Hall).
  rewrite E. cbn [snd]. now rewrite (Hall Hs).
Qed.

(** The first model of the examples: its five commands are the record. *)
Lemma success_means_all_ran_witness :
  success (fst (Demo.transformGlb None "/models/a.glb" [])) = true
  /\ snd (Demo.transformGlb None "/models/a.glb" [])
     = commandLines Demo.parseFloatTemplate "/models/a.glb" Demo.values
  /\ snd (snd (transformGlb (Recorded Demo.World) (recording (Demo.execAsync None))
                 (fun p => observing (Demo.getFileSize p)) Demo.parseFloatTemplate
                 "/models/a.glb" Demo.values ([], [])))
     = commandLines Demo.parseFloatTemplate "/models/a.glb" Demo.values.
Proof.
  assert (Hs : success (fst (Demo.transformGlb None "/models/a.glb" [])) = true)
    by reflexivity.
  split; [exact Hs|]. split; [vm_compute; reflexivity|].
  exact (proj2 (success_means_all_ran Demo.World (Demo.execAsync None) Demo.getFileSize
                  Demo.parseFloatTemplate Demo.values "/models/a.glb" [] Hs) []).
Defined.

(** X7. Every result of a batch, advanced or fixed-mode, has the sizes and
    no message when it says success, and a message and no sizes when it says
    failure.  A fixed-mode batch, too, gives one result for each file, in
    the order of the files, under the file's base name. *)
Theorem results_well_formed
    (W : Type) (execAsync : string -> M W string) (getFileSize : string -> M W Z)
    (parseFloatTemplate : string -> string) (values : FormValues)
    (mode : CompressionMode) (glbFiles : list string) (w : W) :
  Forall wellFormed
    (fst (processAll W
            (fun f => transformGlb W execAsync getFileSize parseFloatTemplate f values)
            glbFiles w))
  /\ Forall wellFormed
       (fst (processAll W (fun f => compressGlb W execAsync getFileSize f mode) glbFiles w))
  /\ List.length
       (fst (processAll W (fun f => compressGlb W execAsync getFileSize f mode) glbFiles w))
     = List.length glbFiles
  /\ map file
       (fst (processAll W (fun f => compressGlb W execAsync getFileSize f mode) glbFiles w))
     = map path_basename glbFiles.
Proof.
  split; [|split; [|split]].
  - apply processAll_Forall. intros f w0. apply settle_wellFormed.
  - apply processAll_Forall. intros f w0. apply settle_wellFormed.
  - apply processAll_length.
  - apply processAll_files. intros f w0. apply settle_file.
Qed.

(** X8. A batch that cannot start runs nothing: when the selection cannot
    be read, is empty, or holds no path ending in [.glb], there are no
    results, the world is as the reading of the selection left it, and the
    notification says which of the three it was. *)
Theorem no_eligible_file_no_run
    (W : Type) (execAsync : string -> M W string) (getFileSize : string -> M W Z)
    (getSelectedFinderItems : M W (list string))
    (parseFloatTemplate : string -> string) (values : FormValues)
    (mode : CompressionMode) (modeName : string) (w : W) :
  (forall e w1,
     getSelectedFinderItems w = (inl e, w1) ->
     handleSubmit W execAsync getFileSize getSelectedFinderItems parseFloatTemplate values w
     = (None,
        if includes e "Finder" then "❌ Select files in Finder first"
        else "❌ Error: " ++ e, w1)
     /\ processGlbFiles W execAsync getFileSize getSelectedFinderItems mode modeName w
        = (None,
           if includes e "Finder"
           then "❌ Could not get Finder selection. Please select files in Finder first."
           else "❌ Error: " ++ e, w1))
  /\ (forall items w1,
        getSelectedFinderItems w = (inr items, w1) ->
        filter isGlb items = [] ->
        let text := match items with
                    | [] => "❌ No files selected in Finder"
                    | _ => "❌ No GLB files selected"
                    end in
        handleSubmit W execAsync getFileSize getSelectedFinderItems
          parseFloatTemplate values w = (None, text, w1)
        /\ processGlbFiles W execAsync getFileSize getSelectedFinderItems mode modeName w
           = (None, text, w1)).
Proof.
  split.
  - intros e w1 H. unfold handleSubmit, processGlbFiles. rewrite H. now split.
  - intros items w1 H Hglb. cbv zeta. unfold handleSubmit, processGlbFiles.
    rewrite H, Hglb. destruct items; now split.
Qed.

(** A text file alone in the selection. *)
Lemma no_eligible_file_no_run_witness :
  Demo.handleSubmit None ["/models/notes.txt"] [] = (None, "❌ No GLB files selected", [])
  /\ Demo.handleSubmit None [] [] = (None, "❌ No files selected in Finder", []).
Proof.
  destruct (no_eligible_file_no_run Demo.World (Demo.execAsync None) Demo.getFileSize
              (Demo.getSelectedFinderItems ["/models/notes.txt"])
              Demo.parseFloatTemplate Demo.values full "Full" []) as [_ H].
  split; [|reflexivity].
  exact (proj1 (H ["/models/notes.txt"] [] eq_refl eq_refl)).
Defined.

(** ** The three notifications *)

Lemma filter_partition_length {A} (p : A -> bool) l :
  (List.length (filter p l) + List.length (filter (fun x => negb (p x)) l)
   = List.length l)%nat.
Proof.
  induction l as [|x l IH]; [reflexivity|].
  cbn [filter]. destruct (p x); cbn [negb List.length]; lia.
Qed.

Lemma filter_empty_all {A} (p : A -> bool) l :
  filter (fun x => negb (p x)) l = [] <-> (forall x, In x l -> p x = true).
Proof.
  split.
  - intros H x Hx. destruct (p x) eqn:E; [reflexivity|].
    assert (Hin : In x (filter (fun y => negb (p y)) l))
      by (apply filter_In; split; [exact Hx | now rewrite E]).
    rewrite H in Hin. contradiction.
  - apply filter_none.
Qed.

Lemma filter_empty_none {A} (p : A -> bool) l :
  filter p l = [] <-> (forall x, In x l -> p x = false).
Proof.
  split.
  - intros H x Hx. destruct (p x) eqn:E; [|reflexivity].
    assert (Hin : In x (filter p l)) by (apply filter_In; now split).
    rewrite H in Hin. contradiction.
  - intros H. induction l as [|x l IH]; [reflexivity|].
    cbn [filter]. rewrite (H x (or_introl eq_refl)). apply IH.
    intros y Hy. apply H. now right.
Qed.

Lemma length_zero_nil {A} (l : list A) : (List.length l =? 0)%nat = true <-> l = [].
Proof. destruct l; cbn; split; congruence. Qed.

Lemma prefix_cons a p b s :
  prefix (String a p) (String b s) = true -> a = b /\ prefix p s = true.
Proof.
  cbn [prefix]. destruct (ascii_dec a b); [now split | discriminate].
Qed.

(** No text starts with two marks that differ in their second byte. *)
Lemma marks_differ a b1 b2 p1 p2 s :
  Ascii.eqb b1 b2 = false ->
  prefix (String a (String b1 p1)) s = true ->
  prefix (String a (String b2 p2)) s = true -> False.
Proof.
  intros Hb H1 H2. destruct s as [|x [|y s]]; try discriminate.
  - apply prefix_cons in H1 as [_ H1]. discriminate.
  - apply prefix_cons in H1 as [_ H1]. apply prefix_cons in H2 as [_ H2].
    apply prefix_cons in H1 as [<- _]. apply prefix_cons in H2 as [<- _].
    now rewrite Ascii.eqb_refl in Hb.
Qed.

(** The mark a notification starts with, by the results. *)
Lemma summary_marks (summary : list CompressionResult -> string) results :
  (filter (fun r => negb (success r)) results = [] ->
   prefix "✅" (summary results) = true) ->
  (filter (fun r => negb (success r)) results <> [] -> filter success results = [] ->
   prefix "❌" (summary results) = true) ->
  (filter (fun r => negb (success r)) results <> [] -> filter success results <> [] ->
   prefix "⚠️" (summary results) = true) ->
  (prefix "✅" (summary results) = true
   <-> (forall r, In r results -> success r = true))
  /\ (prefix "❌" (summary results) = true
      <-> results <> [] /\ (forall r, In r results -> success r = false))
  /\ (prefix "⚠️" (summary results) = true
      <-> (exists r, In r results /\ success r = true)
          /\ (exists r, In r results /\ success r = false)).
Proof.
  intros Hok Hfail Hmixed.
  assert (Hex : forall (p : CompressionResult -> bool),
            filter p results <> [] -> exists r, In r results /\ p r = true).
  { intros p H. destruct (filter p results) as [|r l] eqn:E; [congruence|].
    exists r. apply filter_In. rewrite E. now left. }
  assert (Hdiff : forall s, prefix "✅" s = true -> prefix "❌" s = true -> False)
    by (intros s; apply marks_differ; reflexivity).
  assert (Hdiff2 : forall s, prefix "✅" s = true -> prefix "⚠️" s = true -> False)
    by (intros s; apply marks_differ; reflexivity).
  assert (Hdiff3 : forall s, prefix "❌" s = true -> prefix "⚠️" s = true -> False)
    by (intros s; apply marks_differ; reflexivity).
  destruct (filter (fun r => negb (success r)) results) as [|rf lf] eqn:Ef.
  - (* all succeeded *)
    pose proof (proj1 (filter_empty_all success results) Ef) as Hall.
    specialize (Hok eq_refl). split; [tauto|]. split.
    + split; [intros H; exfalso; eauto|].
      intros [Hne Hnone]. destruct results as [|r l]; [congruence|].
      specialize (Hall r (or_introl eq_refl)). specialize (Hnone r (or_introl eq_refl)).
      congruence.
    + split; [intros H; exfalso; eauto|].
      intros [_ (r & Hr & Hs)]. specialize (Hall r Hr). congruence.
  - assert (Hnf : rf :: lf <> []) by discriminate.
    assert (Hrf : In rf results /\ negb (success rf) = true)
      by (apply (proj1 (filter_In (fun r => negb (success r)) rf results));
          rewrite Ef; now left).
    destruct Hrf as [Hrf Hrs]. apply negb_true_iff in Hrs.
    destruct (filter success results) as [|rs ls] eqn:Es.
    + (* none succeeded *)
      pose proof (proj1 (filter_empty_none success results) Es) as Hnone.
      specialize (Hfail Hnf eq_refl). split; [|split].
      * split; [intros H; exfalso; eauto|].
        intros Hall. specialize (Hall rf Hrf). congruence.
      * split; [intros _|trivial]. split; [|exact Hnone].
        intros ->. contradiction.
      * split; [intros H; exfalso; eauto|].
        intros [(r & Hr & Hs) _]. specialize (Hnone r Hr). congruence.
    + (* mixed *)
      assert (Hns : rs :: ls <> []) by discriminate.
      assert (Hrs' : In rs results /\ success rs = true)
        by (apply (proj1 (filter_In success rs results)); rewrite Es; now left).
      specialize (Hmixed Hnf Hns). split; [|split].
      * split; [intros H; exfalso; eauto|].
        intros Hall. specialize (Hall rf Hrf). congruence.
      * split; [intros H; exfalso; eauto|].
        intros [_ Hnone]. destruct Hrs' as [Hin Hs]. specialize (Hnone rs Hin). congruence.
      * split; [intros _|trivial]. split; [now exists rs | now exists rf].
Qed.

Lemma transformSummary_marks results :
  (filter (fun r => negb (success r)) results = [] ->
   prefix "✅" (transformSummary results) = true)
  /\ (filter (fun r => negb (success r)) results <> [] -> filter success results = [] ->
      prefix "❌" (transformSummary results) = true)
  /\ (filter (fun r => negb (success r)) results <> [] -> filter success results <> [] ->
      prefix "⚠️" (transformSummary results) = true).
Proof.
  unfold transformSummary. split; [|split].
  - intros ->. reflexivity.
  - intros Hf ->. destruct (filter (fun r => negb (success r)) results); [congruence|].
    reflexivity.
  - intros Hf Hs. destruct (filter (fun r => negb (success r)) results); [congruence|].
    destruct (filter success results); [congruence|]. reflexivity.
Qed.

Lemma compressSummary_marks modeName results :
  (filter (fun r => negb (success r)) results = [] ->
   prefix "✅" (compressSummary modeName results) = true)
  /\ (filter (fun r => negb (success r)) results <> [] -> filter success results = [] ->
      prefix "❌" (compressSummary modeName results) = true)
  /\ (filter (fun r => negb (success r)) results <> [] -> filter success results <> [] ->
      prefix "⚠️" (compressSummary modeName results) = true).
Proof.
  unfold compressSummary. split; [|split].
  - intros ->. reflexivity.
  - intros Hf ->. destruct (filter (fun r => negb (success r)) results); [congruence|].
    reflexivity.
  - intros Hf Hs. destruct (filter (fun r => negb (success r)) results); [congruence|].
    destruct (filter success results); [congruence|]. reflexivity.
Qed.

(** X9. The notification a batch ends with, [handleSubmit]'s as well as
    [processGlbFiles]'s, starts with the check mark exactly when every
    result of the run is a success, with the cross exactly when none is,
    and with the warning sign exactly when some result is a success and
    some is not.  So do the two texts for any list of results (the check
    mark for an empty one), and the succeeded and the failed results
    together are all the results. *)
Theorem summary_classification
    (W : Type) (execAsync : string -> M W string) (getFileSize : string -> M W Z)
    (getSelectedFinderItems : M W (list string))
    (parseFloatTemplate : string -> string) (values : FormValues)
    (mode : CompressionMode) (modeName : string)
    (w : W) (items : list string) (w1 : W) :
  getSelectedFinderItems w = (inr items, w1) ->
  filter isGlb items <> [] ->
  let classified (shown : string) (results : list CompressionResult) :=
    (prefix "✅" shown = true
     <-> (forall r, In r results -> success r = true))
    /\ (prefix "❌" shown = true
        <-> results <> [] /\ (forall r, In r results -> success r = false))
    /\ (prefix "⚠️" shown = true
        <-> (exists r, In r results /\ success r = true)
            /\ (exists r, In r results /\ success r = false)) in
  let advanced :=
    fst (processAll W
           (fun f => transformGlb W execAsync getFileSize parseFloatTemplate f values)
           (filter isGlb items) w1) in
  let fixed :=
    fst (processAll W (fun f => compressGlb W execAsync getFileSize f mode)
           (filter isGlb items) w1) in
  classified
    (snd (fst (handleSubmit W execAsync getFileSize getSelectedFinderItems
                 parseFloatTemplate values w))) advanced
  /\ classified
       (snd (fst (processGlbFiles W execAsync getFileSize getSelectedFinderItems
                    mode modeName w))) fixed
  /\ advanced <> [] /\ fixed <> []
  /\ (forall results,
        classified (transformSummary results) results
        /\ classified (compressSummary modeName results) results
        /\ (List.length (filter success results)
            + List.length (filter (fun r => negb (success r)) results)
            = List.length results)%nat).
Proof.
  intros Hsel Hglb. cbv zeta.
  assert (Ht : forall results,
             (prefix "✅" (transformSummary results) = true
              <-> (forall r, In r results -> success r = true))
             /\ (prefix "❌" (transformSummary results) = true
                 <-> results <> [] /\ (forall r, In r results -> success r = false))
             /\ (prefix "⚠️" (transformSummary results) = true
                 <-> (exists r, In r results /\ success r = true)
                     /\ (exists r, In r results /\ success r = false))).
  { intros results. destruct (transformSummary_marks results) as (H1 & H2 & H3).
    now apply (summary_marks transformSummary). }
  assert (Hc : forall results,
             (prefix "✅" (compressSummary modeName results) = true
              <-> (forall r, In r results -> success r = true))
             /\ (prefix "❌" (compressSummary modeName results) = true
                 <-> results <> [] /\ (forall r, In r results -> success r = false))
             /\ (prefix "⚠️" (compressSummary modeName results) = true
                 <-> (exists r, In r results /\ success r = true)
                     /\ (exists r, In r results /\ success r = false))).
  { intros results. destruct (compressSummary_marks modeName results) as (H1 & H2 & H3).
    now apply (summary_marks (compressSummary modeName)). }
  assert (Hne : forall one,
             fst (processAll W one (filter isGlb items) w1) <> []).
  { intros one E. apply (f_equal (@List.length CompressionResult)) in E.
    rewrite processAll_length in E. destruct (filter isGlb items); [congruence|].
    discriminate. }
  rewrite (handleSubmit_results W execAsync getFileSize getSelectedFinderItems
             parseFloatTemplate values w items w1 Hsel Hglb).
  rewrite (processGlbFiles_results W execAsync getFileSize getSelectedFinderItems
             mode modeName w items w1 Hsel Hglb).
  cbn [fst snd].
  split; [apply Ht|]. split; [apply Hc|].
  split; [apply Hne|]. split; [apply Hne|].
  intros results. split; [apply Ht|]. split; [apply Hc|].
  apply filter_partition_length.
Qed.

(** A selection of two models and a text file, the second model broken:
    the advanced batch ends with the warning sign; a fixed-mode batch of
    the broken model alone ends with the cross, of the sound one with the
    check mark. *)
Lemma summary_classification_witness :
  prefix "⚠️" (snd (fst (Studio.handleSubmit (Some "/models/b.glb")
                            ["/models/a.glb"; "/models/b.glb"; "/models/notes.txt"] [])))
  = true
  /\ prefix "❌" (snd (fst (Studio.processGlbFiles (Some "/models/b.glb")
                              ["/models/b.glb"; "/models/notes.txt"] [])))
     = true
  /\ prefix "✅" (snd (fst (Studio.processGlbFiles (Some "/models/b.glb")
                              ["/models/a.glb"; "/models/notes.txt"] [])))
     = true.
Proof.
  split; [|split].
  - destruct (summary_classification Demo.World (Demo.execAsync (Some "/models/b.glb"))
                Studio.getFileSize
                (Demo.getSelectedFinderItems
                   ["/models/a.glb"; "/models/b.glb"; "/models/notes.txt"])
                Demo.parseFloatTemplate Demo.values draco "Draco" []
                ["/models/a.glb"; "/models/b.glb"; "/models/notes.txt"] []
                eq_refl ltac:(discriminate)) as ((_ & _ & Hmixed) & _).
    apply (proj2 Hmixed). split; eexists.
    + split; [vm_compute; left; reflexivity | reflexivity].
    + split; [vm_compute; right; left; reflexivity | reflexivity].
  - destruct (summary_classification Demo.World (Demo.execAsync (Some "/models/b.glb"))
                Studio.getFileSize
                (Demo.getSelectedFinderItems ["/models/b.glb"; "/models/notes.txt"])
                Demo.parseFloatTemplate Demo.values draco "Draco" []
                ["/models/b.glb"; "/models/notes.txt"] []
                eq_refl ltac:(discriminate)) as (_ & (_ & Hnone & _) & _ & Hne & _).
    apply (proj2 Hnone). split; [exact Hne|].
    intros r Hr. vm_compute in Hr. destruct Hr as [<- | []]; reflexivity.
  - destruct (summary_classification Demo.World (Demo.execAsync (Some "/models/b.glb"))
                Studio.getFileSize
                (Demo.getSelectedFinderItems ["/models/a.glb"; "/models/notes.txt"])
                Demo.parseFloatTemplate Demo.values draco "Draco" []
                ["/models/a.glb"; "/models/notes.txt"] []
                eq_refl ltac:(discriminate)) as (_ & (Hall & _) & _).
    apply (proj2 Hall).
    intros r Hr. vm_compute in Hr. destruct Hr as [<- | []]; reflexivity.
Defined.

(** ** Names: the file of a result and the file written *)

Section NameFacts.

Local Open Scope list_scope.

Lemma basenameLoop_skips_name name : forall rest s e m x f,
  noSlash name = true -> e <> -1 ->
  Path.basenameLoop (rev name ++ rest) (Path.mkScan s e m x f)
  = Path.basenameLoop rest (Path.mkScan s e m x f).
Proof.
  induction name as [|c name IH] using rev_ind; intros rest s e m x f Hn He; [reflexivity|].
  unfold noSlash in Hn. rewrite forallb_app in Hn.
  apply andb_true_iff in Hn as [Hn Hc]. cbn in Hc. rewrite andb_true_r in Hc.
  apply negb_true_iff in Hc.
  rewrite rev_app_distr. cbn [rev app Path.basenameLoop]. rewrite Hc.
  cbn [Path.stop]. destruct (Z.eqb_spec e (-1)); [contradiction|].
  now apply IH.
Qed.

Lemma basenameLoop_first c rest s m x f :
  Path.isPathSeparator c = false ->
  Path.basenameLoop (c :: rest) (Path.mkScan s (-1) m x f)
  = Path.basenameLoop rest (Path.mkScan s (Z.of_nat (List.length rest) + 1) false x f).
Proof. intros Hc. cbn [Path.basenameLoop]. now rewrite Hc. Qed.

Lemma basenameLoop_separator r s e x f :
  Path.basenameLoop ("/"%char :: r) (Path.mkScan s e false x f)
  = Path.mkScan (Z.of_nat (List.length r) + 1) e false x f.
Proof. reflexivity. Qed.

Lemma slice_middle (r name : list ascii) :
  Path.slice (r ++ name) (Z.of_nat (List.length r))
    (Z.of_nat (List.length r + List.length name)) = name.
Proof.
  unfold Path.slice.
  replace (Z.to_nat (Z.of_nat (List.length r + List.length name) - Z.of_nat (List.length r)))
    with (List.length name) by lia.
  rewrite Nat2Z.id, skipn_app, skipn_all, Nat.sub_diag. cbn [skipn app].
  apply firstn_all.
Qed.

(** The last component of a path that ends with a name is that name. *)
Lemma basename_name r name :
  noSlash name = true -> name <> [] ->
  (r = [] \/ exists r', r = r' ++ ["/"%char]) ->
  Path.basename (r ++ name) = name.
Proof.
  intros Hn Hne Hr. unfold Path.basename.
  destruct name as [|c name _] using rev_ind; [congruence|].
  assert (Hn' := Hn). unfold noSlash in Hn'. rewrite forallb_app in Hn'.
  apply andb_true_iff in Hn' as [Hn' Hc]. cbn in Hc. rewrite andb_true_r in Hc.
  apply negb_true_iff in Hc.
  replace (rev (r ++ name ++ [c])) with (c :: rev name ++ rev r)
    by (now rewrite !rev_app_distr).
  rewrite (basenameLoop_first _ _ _ _ _ _ Hc).
  rewrite basenameLoop_skips_name by (assumption || lia).
  rewrite length_app, !length_rev.
  destruct Hr as [-> | [r' ->]].
  - cbn [rev Path.basenameLoop Path.stop Path.start List.length Nat.add app].
    rewrite Nat.add_0_r.
    destruct (Z.eqb_spec (Z.of_nat (List.length name) + 1) (-1)); [lia|].
    replace (Z.of_nat (List.length name) + 1)
      with (Z.of_nat (List.length (@nil ascii) + List.length (name ++ [c])))
      by (rewrite length_app; cbn; lia).
    exact (slice_middle [] (name ++ [c])).
  - rewrite rev_app_distr. cbn [rev app]. rewrite basenameLoop_separator.
    cbn [Path.stop Path.start]. rewrite length_rev.
    destruct (Z.eqb_spec (Z.of_nat (List.length name + List.length (r' ++ ["/"%char])) + 1)
                (-1)); [lia|].
    replace (Z.of_nat (List.length r') + 1)
      with (Z.of_nat (List.length (r' ++ ["/"%char])))
      by (rewrite length_app; cbn; lia).
    replace (Z.of_nat (List.length name + List.length (r' ++ ["/"%char])) + 1)
      with (Z.of_nat (List.length (r' ++ ["/"%char]) + List.length (name ++ [c])))
      by (rewrite !length_app; cbn; lia).
    apply slice_middle.
Qed.

End NameFacts.

Lemma startsWith_l_app p : forall s, startsWith_l (p ++ s)%list p = true.
Proof.
  induction p as [|c p IH]; intros s; [now destruct s|].
  cbn [app startsWith_l]. now rewrite Ascii.eqb_refl, IH.
Qed.

Lemma noSlash_app a b : noSlash (a ++ b)%list = noSlash a && noSlash b.
Proof. unfold noSlash. apply forallb_app. Qed.

Lemma ends_with_separator (r : string) :
  (r = EmptyString \/ exists r', r = r' ++ "/") ->
  chars r = [] \/ exists l, chars r = (l ++ ["/"%char])%list.
Proof.
  intros [-> | [r' ->]]; [now left|]. right. exists (chars r'). now rewrite chars_app.
Qed.

(** The base name of the path the program derives, for a path that ends
    with [name] and [.glb]. *)
Lemma derived_basename (r name sfx : string) :
  noSlash (chars name) = true -> name <> EmptyString ->
  noSlash (chars sfx) = true ->
  (r = EmptyString \/ exists r', r = r' ++ "/") ->
  path_basename
    (path_join (path_dirname (r ++ name ++ ".glb"))
       (path_basename_ext (r ++ name ++ ".glb") ".glb" ++ sfx ++ ".glb"))
  = name ++ sfx ++ ".glb".
Proof.
  intros Hn Hne Hs Hr. apply ends_with_separator in Hr.
  assert (Hne' : chars name <> []) by (destruct name; [congruence | discriminate]).
  unfold path_basename, path_join, path_basename_ext.
  rewrite !chars_text, !chars_app, chars_text.
  change (chars ".glb") with glb.
  rewrite (basenameExt_strips_glb _ _ Hn Hne' Hr).
  destruct (join_keeps_name (chars (path_dirname (r ++ name ++ ".glb"))) (chars name)
              (chars sfx ++ glb)%list) as (r2 & E & Hr2).
  { now rewrite noSlash_app, Hs. }
  { rewrite length_app. cbn. lia. }
  rewrite E, (segments_noSlash _ Hn). cbn [last].
  rewrite basename_name; [| |destruct (chars name); [congruence | discriminate]|exact Hr2].
  - now rewrite !text_app, !text_chars.
  - now rewrite !noSlash_app, Hn, Hs.
Qed.

(** X10. For a path that ends with a name and [.glb] (the name not empty,
    without a separator, after a separator or at the start): the file is
    eligible, the result is filed under [name.glb], the base name is
    [name], and the file written is [name_optimized.glb], or [name_draco.glb],
    [name_ktx.glb], [name_compressed.glb] in the fixed modes. *)
Theorem named_file_outputs (r name : string) (mode : CompressionMode) :
  noSlash (chars name) = true -> name <> EmptyString ->
  (r = EmptyString \/ exists r', r = r' ++ "/") ->
  let filePath := r ++ name ++ ".glb" in
  isGlb filePath = true
  /\ path_basename filePath = name ++ ".glb"
  /\ path_basename_ext filePath ".glb" = name
  /\ path_basename (transformOutputPath filePath) = name ++ "_optimized.glb"
  /\ path_basename (compressOutputPath filePath mode) = name ++ modeSuffix mode ++ ".glb".
Proof.
  intros Hn Hne Hr. cbv zeta.
  assert (Hne' : chars name <> []) by (destruct name; [congruence | discriminate]).
  pose proof (ends_with_separator r Hr) as Hr'.
  split; [|split; [|split; [|split]]].
  - unfold isGlb, endsWith, toLowerCase.
    rewrite chars_text, !chars_app, !map_app, !rev_app_distr, <- app_assoc.
    change (rev (map lowerChar (chars ".glb"))) with (rev (chars ".glb")).
    apply startsWith_l_app.
  - unfold path_basename. rewrite !chars_app.
    rewrite basename_name; [| |destruct (chars name); [congruence | discriminate]|exact Hr'].
    + now rewrite text_app, text_chars.
    + now rewrite noSlash_app, Hn.
  - unfold path_basename_ext. rewrite !chars_app. change (chars ".glb") with glb.
    rewrite (basenameExt_strips_glb _ _ Hn Hne' Hr'). apply text_chars.
  - exact (derived_basename r name "_optimized" Hn Hne eq_refl Hr).
  - apply (derived_basename r name (modeSuffix mode) Hn Hne); [|exact Hr].
    destruct mode; reflexivity.
Qed.

Lemma named_file_outputs_witness :
  isGlb "/models/a.glb" = true
  /\ path_basename "/models/a.glb" = "a.glb"
  /\ path_basename (transformOutputPath "/models/a.glb") = "a_optimized.glb"
  /\ path_basename (compressOutputPath "/models/a.glb" full) = "a_compressed.glb".
Proof.
  destruct (named_file_outputs "/models/" "a" full eq_refl ltac:(discriminate)
              (or_intror (ex_intro _ "/models" eq_refl)))
    as (H1 & H2 & _ & H4 & H5).
  split; [exact H1|]. split; [exact H2|]. split; [exact H4 | exact H5].
Defined.

(** *** An extension in capitals *)

Section CapitalFacts.

Local Open Scope list_scope.

Lemma basenameExtLoop_mismatch_first suffix c r s e m x :
  Path.isPathSeparator c = false -> 0 <= x ->
  Ascii.eqb c (nth (Z.to_nat x) suffix "000"%char) = false ->
  Path.basenameExtLoop suffix (c :: r) (Path.mkScan s e m x (-1))
  = Path.basenameExtLoop suffix r
      (Path.mkScan s (Z.of_nat (List.length r) + 1) false (-1)
         (Z.of_nat (List.length r) + 1)).
Proof.
  intros Hc Hx Hm. cbn [Path.basenameExtLoop]. rewrite Hc.
  cbn [Path.firstNonSlashEnd Path.extIdx Path.start Path.stop Path.matchedSlash].
  change (-1 =? -1) with true. cbv iota.
  cbn [Path.firstNonSlashEnd Path.extIdx Path.start Path.stop Path.matchedSlash].
  rewrite Hm. destruct (Z.leb_spec 0 x); [reflexivity | lia].
Qed.

Lemma basenameExtLoop_mismatch suffix c r s e m x f :
  Path.isPathSeparator c = false -> f <> -1 -> 0 <= x ->
  Ascii.eqb c (nth (Z.to_nat x) suffix "000"%char) = false ->
  Path.basenameExtLoop suffix (c :: r) (Path.mkScan s e m x f)
  = Path.basenameExtLoop suffix r (Path.mkScan s f m (-1) f).
Proof.
  intros Hc Hf Hx Hm. cbn [Path.basenameExtLoop]. rewrite Hc.
  cbn [Path.firstNonSlashEnd Path.extIdx Path.start Path.stop Path.matchedSlash].
  destruct (Z.eqb_spec f (-1)); [contradiction|].
  cbn [Path.firstNonSlashEnd Path.extIdx Path.start Path.stop Path.matchedSlash].
  rewrite Hm. destruct (Z.leb_spec 0 x); [reflexivity | lia].
Qed.

(** Four characters other than [.glb] at the end of a name: the suffix is
    found not to match, and the name ends where it ends. *)
Lemma basenameExt_other_extension c1 c2 c3 c4 rest :
  noSlash [c1; c2; c3; c4] = true -> [c1; c2; c3; c4] <> glb ->
  Path.basenameExtLoop glb (c4 :: c3 :: c2 :: c1 :: rest) (Path.mkScan 0 (-1) true 3 (-1))
  = Path.basenameExtLoop glb rest
      (Path.mkScan 0 (Z.of_nat (List.length rest) + 4) false (-1)
         (Z.of_nat (List.length rest) + 4)).
Proof.
  intros Hn Hne. cbn in Hn. rewrite andb_true_r in Hn.
  apply andb_true_iff in Hn as [H1 Hn]. apply andb_true_iff in Hn as [H2 Hn].
  apply andb_true_iff in Hn as [H3 H4].
  apply negb_true_iff in H1, H2, H3, H4.
  fold (Path.isPathSeparator c1) in H1. fold (Path.isPathSeparator c2) in H2.
  fold (Path.isPathSeparator c3) in H3. fold (Path.isPathSeparator c4) in H4.
  destruct (Ascii.eqb c4 "b") eqn:E4.
  2:{ rewrite basenameExtLoop_mismatch_first by (assumption || lia).
      rewrite (basenameExt_skips_name glb [c1; c2; c3] rest);
        [| cbn; fold (Path.isPathSeparator c1); fold (Path.isPathSeparator c2);
           fold (Path.isPathSeparator c3); now rewrite H1, H2, H3
         | cbn; lia | reflexivity].
      f_equal; cbn [List.length]; f_equal; lia. }
  rewrite basenameExtLoop_first by (assumption || lia).
  destruct (Ascii.eqb c3 "l") eqn:E3.
  2:{ rewrite basenameExtLoop_mismatch by (assumption || (cbn [List.length]; lia)).
      rewrite (basenameExt_skips_name glb [c1; c2] rest);
        [| cbn; fold (Path.isPathSeparator c1); fold (Path.isPathSeparator c2);
           now rewrite H1, H2
         | cbn; lia | reflexivity].
      f_equal; cbn [List.length]; f_equal; lia. }
  rewrite basenameExtLoop_next by (assumption || (cbn [List.length]; lia)).
  destruct (Ascii.eqb c2 "g") eqn:E2.
  2:{ rewrite basenameExtLoop_mismatch by (assumption || (cbn [List.length]; lia)).
      rewrite (basenameExt_skips_name glb [c1] rest);
        [| cbn; fold (Path.isPathSeparator c1); now rewrite H1
         | cbn; lia | reflexivity].
      f_equal; cbn [List.length]; f_equal; lia. }
  rewrite basenameExtLoop_next by (assumption || (cbn [List.length]; lia)).
  destruct (Ascii.eqb c1 ".") eqn:E1.
  { exfalso. apply Hne. apply Ascii.eqb_eq in E1, E2, E3, E4. now subst. }
  rewrite basenameExtLoop_mismatch by (assumption || (cbn [List.length]; lia)).
  f_equal; cbn [List.length]; f_equal; lia.
Qed.

Lemma list_eqb_eq : forall a b, list_eqb a b = true -> a = b.
Proof.
  induction a as [|x a IH]; intros [|y b]; cbn [list_eqb]; try discriminate; [reflexivity|].
  intros H. apply andb_true_iff in H as [Hx H]. apply Ascii.eqb_eq in Hx.
  now rewrite Hx, (IH _ H).
Qed.

Lemma basenameExt_keeps_other r name c1 c2 c3 c4 :
  noSlash name = true ->
  noSlash [c1; c2; c3; c4] = true -> [c1; c2; c3; c4] <> glb ->
  (r = [] \/ exists r', r = r' ++ ["/"%char]) ->
  Path.basenameExt (r ++ name ++ [c1; c2; c3; c4]) glb = name ++ [c1; c2; c3; c4].
Proof.
  intros Hn He Hne Hr. unfold Path.basenameExt.
  set (e := [c1; c2; c3; c4]) in *.
  assert (Hlen : List.length (r ++ name ++ e)
                 = (List.length r + List.length name + 4)%nat).
  { rewrite !length_app. cbn. lia. }
  replace ((0 <? List.length glb)%nat && (List.length glb <=? List.length (r ++ name ++ e))%nat)
    with true.
  2:{ symmetry. apply andb_true_iff. split; [reflexivity|].
      apply Nat.leb_le. rewrite Hlen. cbn. lia. }
  destruct (list_eqb glb (r ++ name ++ e)) eqn:Eq.
  { exfalso. pose proof (list_eqb_length _ _ Eq) as Hl. rewrite Hlen in Hl. cbn in Hl.
    assert (r = []) by (destruct r; [reflexivity | cbn in Hl; lia]).
    assert (name = []) by (destruct name; [reflexivity | cbn in Hl; lia]).
    subst r name. cbn [app] in Eq. apply Hne. symmetry. now apply list_eqb_eq. }
  replace (rev (r ++ name ++ e)) with (c4 :: c3 :: c2 :: c1 :: rev name ++ rev r)
    by (subst e; now rewrite !rev_app_distr, <- app_assoc).
  change (Z.of_nat (List.length glb) - 1) with 3.
  rewrite (basenameExt_other_extension _ _ _ _ _ He Hne).
  rewrite basenameExt_skips_name; [|assumption|cbn; lia|reflexivity].
  rewrite length_app, !length_rev.
  destruct Hr as [-> | [r' ->]].
  - cbn [rev Path.basenameExtLoop Path.start Path.stop Path.firstNonSlashEnd
         List.length Nat.add app].
    rewrite Nat.add_0_r.
    destruct (Z.eqb_spec 0 (Z.of_nat (List.length name) + 4)); [lia|].
    destruct (Z.eqb_spec (Z.of_nat (List.length name) + 4) (-1)); [lia|].
    replace (Z.of_nat (List.length name) + 4)
      with (Z.of_nat (List.length (@nil ascii) + List.length (name ++ e)))
      by (rewrite length_app; cbn; lia).
    exact (slice_middle [] (name ++ e)).
  - rewrite rev_app_distr. cbn [rev app].
    rewrite basenameExtLoop_separator.
    cbn [Path.start Path.stop Path.firstNonSlashEnd].
    rewrite length_rev.
    destruct (Z.eqb_spec (Z.of_nat (List.length r') + 1)
                (Z.of_nat (List.length name + List.length (r' ++ ["/"%char])) + 4));
      [rewrite length_app in *; cbn in *; lia|].
    destruct (Z.eqb_spec (Z.of_nat (List.length name + List.length (r' ++ ["/"%char])) + 4)
                (-1)); [lia|].
    replace (Z.of_nat (List.length r') + 1)
      with (Z.of_nat (List.length (r' ++ ["/"%char])))
      by (rewrite length_app; cbn; lia).
    replace (Z.of_nat (List.length name + List.length (r' ++ ["/"%char])) + 4)
      with (Z.of_nat (List.length (r' ++ ["/"%char]) + List.length (name ++ e)))
      by (rewrite !length_app; cbn; lia).
    apply slice_middle.
Qed.

(** A character that lower-cases to a character of [.glb] is no separator. *)
Lemma lower_not_separator c d :
  lowerChar c = d -> In d glb -> Path.isPathSeparator c = false.
Proof.
  intros H Hd. destruct (Path.isPathSeparator c) eqn:E; [|reflexivity].
  apply Ascii.eqb_eq in E. subst c. cbn in H. subst d.
  cbn in Hd. repeat destruct Hd as [Hd | Hd]; discriminate || contradiction.
Qed.

Lemma lower_glb_shape ext :
  toLowerCase ext = ".glb" ->
  exists c1 c2 c3 c4,
    chars ext = [c1; c2; c3; c4] /\ noSlash [c1; c2; c3; c4] = true.
Proof.
  unfold toLowerCase. intros H. apply (f_equal chars) in H. rewrite chars_text in H.
  destruct (chars ext) as [|c1 [|c2 [|c3 [|c4 [|c5 l]]]]]; try discriminate.
  exists c1, c2, c3, c4. split; [reflexivity|].
  cbn in H. injection H as H1 H2 H3 H4.
  cbn [noSlash forallb].
  rewrite (lower_not_separator _ _ H1), (lower_not_separator _ _ H2),
          (lower_not_separator _ _ H3), (lower_not_separator _ _ H4);
    cbn; tauto.
Qed.

End CapitalFacts.

(** X11. The filter looks for [.glb] in any case of the letters, the base
    name drops it only as written in lower case: a file with the extension
    in capitals is eligible, keeps the extension in its base name, and is
    written under the whole name followed by [_optimized.glb]. *)
Theorem capital_extension_kept (r name ext : string) :
  noSlash (chars name) = true -> name <> EmptyString ->
  (r = EmptyString \/ exists r', r = r' ++ "/") ->
  toLowerCase ext = ".glb" -> ext <> ".glb" ->
  let filePath := r ++ name ++ ext in
  isGlb filePath = true
  /\ path_basename_ext filePath ".glb" = name ++ ext
  /\ path_basename (transformOutputPath filePath) = name ++ ext ++ "_optimized.glb".
Proof.
  intros Hn Hne Hr Hlow Hext. cbv zeta.
  pose proof (ends_with_separator r Hr) as Hr'.
  destruct (lower_glb_shape ext Hlow) as (c1 & c2 & c3 & c4 & Hc & He).
  assert (Hneq : [c1; c2; c3; c4] <> glb).
  { intros E. apply Hext. apply chars_inj. now rewrite Hc, E. }
  assert (Hb : Path.basenameExt (chars (r ++ name ++ ext)) glb
               = (chars name ++ chars ext)%list).
  { rewrite !chars_app, Hc. now apply basenameExt_keeps_other. }
  split; [|split].
  - unfold isGlb, endsWith. unfold toLowerCase in *.
    rewrite chars_text, !chars_app, !map_app, !rev_app_distr, <- app_assoc.
    apply (f_equal chars) in Hlow. rewrite chars_text in Hlow. rewrite Hlow.
    apply startsWith_l_app.
  - unfold path_basename_ext. change (chars ".glb") with glb.
    now rewrite Hb, text_app, !text_chars.
  - unfold transformOutputPath, path_basename, path_join, path_basename_ext.
    change (chars ".glb") with glb.
    rewrite !chars_text, chars_app, chars_text, Hb.
    destruct (join_keeps_name (chars (path_dirname (r ++ name ++ ext)))
                (chars name ++ chars ext)%list (chars "_optimized.glb"))
      as (r2 & E & Hr2); [reflexivity | cbn; lia |].
    assert (Hns : noSlash (chars name ++ chars ext)%list = true)
      by (now rewrite noSlash_app, Hn, Hc, He).
    rewrite E, (segments_noSlash _ Hns). cbn [last].
    rewrite basename_name; [| | |exact Hr2].
    + rewrite !text_app, !text_chars. string_eq.
    + now rewrite noSlash_app, Hns.
    + rewrite Hc. destruct (chars name); discriminate.
Qed.

Lemma capital_extension_kept_witness :
  isGlb "/models/MODEL.GLB" = true
  /\ path_basename_ext "/models/MODEL.GLB" ".glb" = "MODEL.GLB"
  /\ path_basename (transformOutputPath "/models/MODEL.GLB") = "MODEL.GLB_optimized.glb".
Proof.
  exact (capital_extension_kept "/models/" "MODEL" ".GLB" eq_refl ltac:(discriminate)
           (or_intror (ex_intro _ "/models" eq_refl)) eq_refl ltac:(discriminate)).
Defined.

(** ** The inspection reports *)

Lemma includes_l_app (a m b : list ascii) : includes_l (a ++ m ++ b)%list m = true.
Proof.
  induction a as [|c a IH].
  - cbn [app]. destruct (m ++ b)%list eqn:E; cbn [includes_l];
      rewrite <- E, startsWith_l_app; reflexivity.
  - cbn [app includes_l]. rewrite IH. apply orb_true_r.
Qed.

Lemma includes_app (a m b : string) : includes (a ++ m ++ b) m = true.
Proof. unfold includes. rewrite !chars_app. apply includes_l_app. Qed.

Lemma includes_tail (a m : string) : includes (a ++ m) m = true.
Proof.
  unfold includes. rewrite chars_app.
  rewrite <- (app_nil_r (chars m)) at 1. apply includes_l_app.
Qed.

Lemma includes_end (s a m : string) : s = a ++ m -> includes s m = true.
Proof. intros ->. apply includes_tail. Qed.

(** X12. The document shown for an inspection.  When the command failed:
    the title of a failed inspection with the file's base name, then the
    message of the failure, whole; the two actions select the next and the
    previous file.  When it ended well: the analysis title with the base
    name, then the standard output as it came; the text to copy is the
    document itself, and the actions to step exist only with more than one
    report.  While loading nothing is shown. *)
Theorem inspection_document (filePath : string) (outcome : string + string)
    (v : InspectView) :
  currentResult v = Some (inspection filePath outcome) ->
  render true v = Loading
  /\ match outcome with
     | inl errorMessage =>
         let doc := "# ❌ Inspection Failed: " ++ path_basename filePath ++ newline
                      ++ newline ++ "Failed to inspect file:" ++ newline ++ newline
                      ++ errorMessage in
         render false v
         = Document doc [mkAction "Select Next File" GoNext;
                         mkAction "Select Previous File" GoPrevious]
         /\ includes doc errorMessage = true
     | inr stdout =>
         let doc := "# 🔎 GLB Analysis: " ++ path_basename filePath ++ newline
                      ++ newline ++ stdout in
         exists actions,
           render false v = Document doc actions
           /\ includes doc stdout = true
           /\ In (mkAction "Copy Analysis Markdown" (CopyToClipboard doc)) actions
           /\ (In (mkAction "Next File" GoNext) actions
               <-> (1 < List.length (results v))%nat)
           /\ (In (mkAction "Previous File" GoPrevious) actions
               <-> (1 < List.length (results v))%nat)
     end.
Proof.
  intros Hcur. unfold render. rewrite Hcur. split; [reflexivity|].
  destruct outcome as [errorMessage | stdout]; cbv zeta.
  - cbn [inspection failure truthy nullText inspected append].
    split; [reflexivity|].
    apply (includes_end _
             ("# ❌ Inspection Failed: " ++ path_basename filePath ++ newline ++ newline
                ++ "Failed to inspect file:" ++ newline ++ newline)).
    string_eq.
  - cbn [inspection failure truthy nullText inspected markdown].
    eexists. split; [reflexivity|]. split; [|split; [|split]].
    + apply (includes_end _
               ("# 🔎 GLB Analysis: " ++ path_basename filePath ++ newline ++ newline)).
      string_eq.
    + apply in_or_app. right. cbn. tauto.
    + destruct (Nat.ltb_spec 1 (List.length (results v))); cbn [app In]; split;
        try tauto; try lia.
      intros [H' | [H' | []]]; discriminate.
    + destruct (Nat.ltb_spec 1 (List.length (results v))); cbn [app In]; split;
        try tauto; try lia.
      intros [H' | [H' | []]]; discriminate.
Qed.

Lemma inspection_document_witness :
  let v := mkView [inspection "/models/a.glb" (inl "Command failed: gltf-transform")] 0 in
  currentResult v = Some (inspection "/models/a.glb" (inl "Command failed: gltf-transform"))
  /\ render false v
     = Document
         ("# ❌ Inspection Failed: a.glb" ++ newline ++ newline
            ++ "Failed to inspect file:" ++ newline ++ newline
            ++ "Command failed: gltf-transform")
         [mkAction "Select Next File" GoNext; mkAction "Select Previous File" GoPrevious].
Proof.
  cbv zeta.
  set (v := mkView [inspection "/models/a.glb" (inl "Command failed: gltf-transform")] 0).
  assert (H : currentResult v
              = Some (inspection "/models/a.glb" (inl "Command failed: gltf-transform")))
    by reflexivity.
  split; [exact H|].
  exact (proj1 (proj2 (inspection_document "/models/a.glb"
                         (inl "Command failed: gltf-transform") v H))).
Defined.

Lemma inspectionResults_length files outcomes :
  List.length outcomes = List.length files ->
  List.length (inspectionResults files outcomes) = List.length files.
Proof.
  intros H. unfold inspectionResults. rewrite length_map, length_combine. lia.
Qed.

Lemma inspectionResults_files : forall files outcomes,
  List.length outcomes = List.length files ->
  map inspected (inspectionResults files outcomes) = map path_basename files.
Proof.
  induction files as [|f files IH]; intros [|o outcomes]; try discriminate; [reflexivity|].
  cbn [List.length]. intros [= H]. unfold inspectionResults in *.
  cbn [combine map fst snd]. rewrite (IH _ H). f_equal. now destruct o.
Qed.

Lemma currentResult_nth reports i :
  0 <= i -> currentResult (mkView reports i) = nth_error reports (Z.to_nat i).
Proof.
  intros H. unfold currentResult. cbn [selectedFileIndex results].
  destruct (Z.ltb_spec i 0); [lia | reflexivity].
Qed.

(** X13. After the inspections there is one report for each file, in the
    order of the files and under the file's base name; the first report is
    shown, [j] steps forward show the report at position [j], and [j] steps
    back the report [j] places before the end, for every [j] up to the
    number of files: every report can be reached. *)
Theorem every_report_reachable (glbFiles : list string) (outcomes : list (string + string)) :
  List.length outcomes = List.length glbFiles -> glbFiles <> [] ->
  let reports := inspectionResults glbFiles outcomes in
  let N := List.length glbFiles in
  List.length reports = N
  /\ map inspected reports = map path_basename glbFiles
  /\ currentResult (afterInspection reports) = nth_error reports 0
  /\ currentResult (afterInspection reports) <> None
  /\ (forall j, (j < N)%nat ->
        currentResult (Nat.iter j nextFile (afterInspection reports)) = nth_error reports j)
  /\ (forall j, (0 < j <= N)%nat ->
        currentResult (Nat.iter j previousFile (afterInspection reports))
        = nth_error reports (N - j)).
Proof.
  intros Hlen Hne. cbv zeta.
  pose proof (inspectionResults_length _ _ Hlen) as HN.
  assert (Hpos : (0 < List.length glbFiles)%nat)
    by (destruct glbFiles; [congruence | cbn; lia]).
  assert (Hrange : 0 <= 0 < Z.of_nat (List.length (inspectionResults glbFiles outcomes)))
    by lia.
  unfold afterInspection.
  split; [exact HN|]. split; [now apply inspectionResults_files|].
  split; [reflexivity|]. split.
  - apply currentResult_range. exact Hrange.
  - split.
    + intros j Hj. rewrite (nextFile_iter _ 0 Hrange).
      rewrite currentResult_nth by (apply Z.mod_pos_bound; lia).
      rewrite Z.add_0_l, Z.mod_small by lia. now rewrite Nat2Z.id.
    + intros j Hj. rewrite (previousFile_iter _ 0 Hrange).
      rewrite currentResult_nth by (apply Z.mod_pos_bound; lia).
      rewrite HN. f_equal.
      replace (0 - Z.of_nat j)
        with (Z.of_nat (List.length glbFiles - j)
              + (-1) * Z.of_nat (List.length glbFiles)) by lia.
      rewrite Z.mod_add by lia. rewrite Z.mod_small by lia. apply Nat2Z.id.
Qed.

Lemma every_report_reachable_witness :
  let files := ["/models/a.glb"; "/models/b.glb"; "/models/c.glb"] in
  let outcomes := [inr "report a"; inl "Command failed"; inr "report c"] in
  let reports := inspectionResults files outcomes in
  map inspected reports = ["a.glb"; "b.glb"; "c.glb"]
  /\ currentResult (nextFile (nextFile (afterInspection reports)))
     = Some (mkInspection "c.glb" (Some "report c") None)
  /\ currentResult (previousFile (afterInspection reports))
     = Some (mkInspection "c.glb" (Some "report c") None).
Proof.
  cbv zeta.
  destruct (every_report_reachable
              ["/models/a.glb"; "/models/b.glb"; "/models/c.glb"]
              [inr "report a"; inl "Command failed"; inr "report c"]
              eq_refl ltac:(discriminate))
    as (_ & Hfiles & _ & _ & Hnext & Hprev).
  split; [exact Hfiles|]. split.
  - exact (Hnext 2%nat ltac:(cbn; lia)).
  - exact (Hprev 1%nat ltac:(cbn; lia)).
Defined.

(** X14. While a report is shown, stepping forward and then back, or back
    and then forward, shows the same report again; forward from the last
    report shows the first, back from the first shows the last; an action
    that opens the documentation or copies the text leaves the view as it
    is. *)
Theorem next_previous_inverse (v : InspectView) :
  currentResult v <> None ->
  let N := Z.of_nat (List.length (results v)) in
  previousFile (nextFile v) = v
  /\ nextFile (previousFile v) = v
  /\ (selectedFileIndex v = N - 1 -> selectedFileIndex (nextFile v) = 0)
  /\ (selectedFileIndex v = 0 -> selectedFileIndex (previousFile v) = N - 1)
  /\ (forall a, effect a <> GoNext -> effect a <> GoPrevious -> onAction a v = v)
  /\ (forall a, currentResult (onAction a v) <> None).
Proof.
  destruct v as [reports i]. intros Hshown. cbv zeta. cbn [results selectedFileIndex].
  pose proof (proj1 (currentResult_range reports i) Hshown) as Hi.
  assert (Hn : 0 <= (i + 1) mod Z.of_nat (List.length reports)
               < Z.of_nat (List.length reports)) by (apply Z.mod_pos_bound; lia).
  assert (Hp : 0 <= (i - 1) mod Z.of_nat (List.length reports)
               < Z.of_nat (List.length reports)) by (apply Z.mod_pos_bound; lia).
  split; [|split; [|split; [|split; [|split]]]].
  - rewrite nextFile_mod, previousFile_mod by assumption. f_equal.
    rewrite Zminus_mod_idemp_l. replace (i + 1 - 1) with i by lia. now apply Z.mod_small.
  - rewrite previousFile_mod, nextFile_mod by assumption. f_equal.
    rewrite Zplus_mod_idemp_l. replace (i - 1 + 1) with i by lia. now apply Z.mod_small.
  - intros ->. rewrite nextFile_mod by assumption. cbn [selectedFileIndex].
    replace (Z.of_nat (List.length reports) - 1 + 1)
      with (0 + 1 * Z.of_nat (List.length reports)) by lia.
    rewrite Z.mod_add by lia. reflexivity.
  - intros ->. rewrite previousFile_mod by assumption. cbn [selectedFileIndex].
    replace (0 - 1)
      with (Z.of_nat (List.length reports) - 1 + (-1) * Z.of_nat (List.length reports))
      by lia.
    rewrite Z.mod_add by lia. apply Z.mod_small. lia.
  - intros a Hg Hp'. unfold onAction. destruct (effect a); congruence.
  - intros a. unfold onAction.
    destruct (effect a); try exact Hshown.
    + rewrite nextFile_mod by assumption. now apply currentResult_range.
    + rewrite previousFile_mod by assumption. now apply currentResult_range.
Qed.

Lemma next_previous_inverse_witness :
  let reports := [mkInspection "a.glb" (Some "report a") None;
                  mkInspection "b.glb" None (Some "Failed to inspect file");
                  mkInspection "c.glb" (Some "report c") None] in
  currentResult (mkView reports 2) <> None
  /\ previousFile (nextFile (mkView reports 2)) = mkView reports 2
  /\ selectedFileIndex (nextFile (mkView reports 2)) = 0.
Proof.
  cbv zeta.
  set (v := mkView [mkInspection "a.glb" (Some "report a") None;
                    mkInspection "b.glb" None (Some "Failed to inspect file");
                    mkInspection "c.glb" (Some "report c") None] 2).
  assert (H : currentResult v <> None) by (vm_compute; discriminate).
  destruct (next_previous_inverse v H) as (H1 & _ & H3 & _).
  split; [exact H|]. split; [exact H1 | exact (H3 eq_refl)].
Defined.

(** ** Whole numbers of a unit *)

(** Checked for each of the 1023 numbers and each of the four units. *)
Lemma whole_units_checked :
  forallb
    (fun u =>
       forallb
         (fun n =>
            String.eqb (formatBytes (Z.of_nat n * 1024 ^ Z.of_nat u))
              (digitsText (Z.of_nat n) ++ " " ++ elementText (nth_error sizes u)))
         (seq 1 1023))
    (seq 0 4) = true.
Proof. vm_compute. reflexivity. Qed.

(** X15. A size that is a whole number [n] of bytes, KB, MB or GB, with
    [1 <= n < 1024], is printed as that number and the unit, with no
    fraction: [n Bytes], [n KB], [n MB], [n GB]. *)
Theorem formatBytes_whole_units (n : Z) (u : nat) :
  1 <= n < 1024 -> (u < 4)%nat ->
  formatBytes (n * 1024 ^ Z.of_nat u)
  = digitsText n ++ " " ++ elementText (nth_error sizes u).
Proof.
  intros Hn Hu.
  pose proof whole_units_checked as H.
  rewrite forallb_forall in H. specialize (H u ltac:(apply in_seq; lia)).
  rewrite forallb_forall in H. specialize (H (Z.to_nat n) ltac:(apply in_seq; lia)).
  apply String.eqb_eq in H. now rewrite Z2Nat.id in H by lia.
Qed.

Lemma formatBytes_whole_units_witness :
  formatBytes 1023 = "1023 Bytes"
  /\ formatBytes (512 * 1024 ^ 2) = "512 MB".
Proof.
  split.
  - exact (formatBytes_whole_units 1023 0 ltac:(lia) ltac:(lia)).
  - exact (formatBytes_whole_units 512 2 ltac:(lia) ltac:(lia)).
Defined.

(** ** The order of the results *)

Lemma filter_permutation {A} (p : A -> bool) (l1 l2 : list A) :
  Permutation l1 l2 -> Permutation (filter p l1) (filter p l2).
Proof.
  induction 1 as [|x l1 l2 H IH|x y l|l1 l2 l3 H12 IH12 H23 IH23].
  - constructor.
  - cbn [filter]. destruct (p x); [now constructor | exact IH].
  - cbn [filter]. destruct (p x), (p y); try apply Permutation_refl. constructor.
  - now transitivity (filter p l2).
Qed.

Lemma total_shift (size : CompressionResult -> option Z) rs : forall a,
  fold_left (fun acc r => acc + match size r with Some z => z | None => 0 end) rs a
  = a + total size rs.
Proof.
  unfold total. induction rs as [|r rs IH]; intros a; cbn [fold_left]; [lia|].
  rewrite IH, (IH (0 + _)). lia.
Qed.

Lemma total_cons (size : CompressionResult -> option Z) r rs :
  total size (r :: rs) = match size r with Some z => z | None => 0 end + total size rs.
Proof. unfold total at 1. cbn [fold_left]. now rewrite total_shift. Qed.

Lemma total_permutation (size : CompressionResult -> option Z) rs1 rs2 :
  Permutation rs1 rs2 -> total size rs1 = total size rs2.
Proof.
  induction 1 as [|x l1 l2 H IH|x y l|l1 l2 l3 H12 IH12 H23 IH23].
  - reflexivity.
  - rewrite !total_cons. lia.
  - rewrite !total_cons. lia.
  - congruence.
Qed.

(** X16. The notification does not depend on the order of the results: two
    batches with the same results in another order show the same text, in
    the advanced mode and in the fixed modes; so do their totals (the sizes
    being whole numbers of bytes in the range where the sums are exact). *)
Theorem summary_order_independent (modeName : string)
    (results1 results2 : list CompressionResult) :
  Permutation results1 results2 ->
  transformSummary results1 = transformSummary results2
  /\ compressSummary modeName results1 = compressSummary modeName results2
  /\ total originalSize results1 = total originalSize results2
  /\ total compressedSize results1 = total compressedSize results2.
Proof.
  intros H.
  pose proof (filter_permutation success _ _ H) as Hs.
  pose proof (filter_permutation (fun r => negb (success r)) _ _ H) as Hf.
  unfold transformSummary, compressSummary.
  rewrite (Permutation_length Hs), (Permutation_length Hf).
  rewrite (total_permutation originalSize _ _ Hs), (total_permutation compressedSize _ _ Hs).
  rewrite (total_permutation originalSize _ _ H), (total_permutation compressedSize _ _ H).
  repeat split.
Qed.

Lemma summary_order_independent_witness :
  transformSummary
    [mkResult "a.glb" true None (Some 100) (Some 50);
     mkResult "b.glb" false (Some "Command failed") None None]
  = transformSummary
      [mkResult "b.glb" false (Some "Command failed") None None;
       mkResult "a.glb" true None (Some 100) (Some 50)].
Proof.
  exact (proj1 (summary_order_independent EmptyString _ _ (perm_swap _ _ []))).
Defined.

(** ** The directory of the file written *)

Section DirectoryFacts.

Local Open Scope list_scope.

Lemma chars_absoluteDir names : chars (absoluteDir names) = dirChars (map chars names).
Proof.
  induction names as [|s names IH]; [reflexivity|].
  cbn [absoluteDir map dirChars]. change ("/" ++ s ++ absoluteDir names)%string
    with (String "/" (s ++ absoluteDir names)%string).
  change (chars (String "/" (s ++ absoluteDir names)%string))
    with ("/"%char :: chars (s ++ absoluteDir names)%string).
  now rewrite chars_app, IH.
Qed.

Lemma properSegment_noSlash s : properSegment s = true -> noSlash s = true.
Proof.
  unfold properSegment. intros H. repeat (apply andb_true_iff in H as [H _]). exact H.
Qed.

Lemma normalizeStep_proper above res s :
  properSegment s = true -> Path.normalizeStep above res s = s :: res.
Proof.
  unfold properSegment, Path.normalizeStep. intros H.
  apply andb_true_iff in H as [H H3]. apply andb_true_iff in H as [H H2].
  apply andb_true_iff in H as [_ H1].
  apply negb_true_iff in H1, H2, H3. now rewrite H1, H2, H3.
Qed.

Lemma segments_dir names file :
  Forall (fun s => properSegment s = true) names -> noSlash file = true ->
  Path.segments (dirChars names ++ "/"%char :: file) = [] :: names ++ [file].
Proof.
  intros Hn Hf. induction Hn as [|s names Hs Hn IH].
  - cbn [dirChars app Path.segments Path.isPathSeparator].
    change (Ascii.eqb "/" "/") with true. cbv iota.
    now rewrite (segments_noSlash _ Hf).
  - cbn [dirChars app Path.segments Path.isPathSeparator].
    change (Ascii.eqb "/" "/") with true. cbv iota. f_equal.
    rewrite <- app_assoc.
    assert (Hcons : exists rest, dirChars names ++ "/"%char :: file = "/"%char :: rest).
    { destruct names; cbn [dirChars app]; eexists; reflexivity. }
    destruct Hcons as (rest & Erest). rewrite Erest in *.
    rewrite segments_app_sep, (segments_noSlash _ (properSegment_noSlash _ Hs)).
    cbn [Path.segments Path.isPathSeparator] in IH.
    change (Ascii.eqb "/" "/") with true in IH. cbv iota in IH.
    injection IH as IH. now rewrite IH.
Qed.

Lemma fold_proper above names : forall res,
  Forall (fun s => properSegment s = true) names ->
  fold_left (Path.normalizeStep above) names res = rev names ++ res.
Proof.
  induction names as [|s names IH]; intros res Hn; [reflexivity|].
  inversion Hn as [|? ? Hs Hn']; subst.
  cbn [fold_left rev]. rewrite (normalizeStep_proper _ _ _ Hs), IH by assumption.
  now rewrite <- app_assoc.
Qed.

Lemma joinSegments_dir names file :
  "/"%char :: Path.joinSegments (names ++ [file]) = dirChars names ++ "/"%char :: file.
Proof.
  induction names as [|s names IH]; [reflexivity|].
  cbn [app dirChars].
  assert (Hj : Path.joinSegments (s :: names ++ [file])
               = s ++ "/"%char :: Path.joinSegments (names ++ [file])).
  { cbn [Path.joinSegments].
    destruct (names ++ [file]) eqn:E; [destruct names; discriminate | reflexivity]. }
  rewrite Hj, <- app_assoc. cbn [app]. now rewrite <- IH.
Qed.

Lemma last_not_separator (x file : list ascii) :
  noSlash file = true -> file <> [] ->
  Path.isPathSeparator (last (x ++ file) "000"%char) = false.
Proof.
  intros Hf Hne. destruct file as [|c file _] using rev_ind; [congruence|].
  rewrite app_assoc, last_app_single.
  unfold noSlash in Hf. rewrite forallb_app in Hf.
  apply andb_true_iff in Hf as [_ Hf]. cbn in Hf.
  rewrite andb_true_r in Hf. now apply negb_true_iff in Hf.
Qed.

(** A normalized absolute path of a file is its own normal form. *)
Lemma normalize_dir names file :
  Forall (fun s => properSegment s = true) names ->
  noSlash file = true -> (2 < List.length file)%nat ->
  Path.normalize (dirChars names ++ "/"%char :: file) = dirChars names ++ "/"%char :: file.
Proof.
  intros Hn Hf Hl.
  assert (Hne : file <> []) by (destruct file; [cbn in Hl; lia | discriminate]).
  assert (Hcons : exists rest, dirChars names ++ "/"%char :: file = "/"%char :: rest).
  { destruct names; cbn [dirChars app]; eexists; reflexivity. }
  destruct Hcons as (rest & Erest).
  assert (Hlast : Path.isPathSeparator
                    (last (dirChars names ++ "/"%char :: file) "000"%char) = false).
  { change ("/"%char :: file) with (["/"%char] ++ file).
    rewrite app_assoc. now apply last_not_separator. }
  unfold Path.normalize. rewrite Erest. rewrite <- Erest. rewrite Hlast.
  change (Path.isPathSeparator "/") with true. cbn [negb].
  unfold Path.normalizeString. rewrite (segments_dir _ _ Hn Hf).
  cbn [fold_left]. change (Path.normalizeStep false [] []) with (@nil (list ascii)).
  rewrite fold_left_app, (fold_proper _ _ _ Hn). cbn [fold_left].
  rewrite (normalizeStep_keeps _ _ _ Hl), app_nil_r.
  change (file :: rev names) with ([file] ++ rev names).
  rewrite rev_app_distr, rev_involutive. cbn [rev app].
  rewrite <- joinSegments_dir.
  destruct (Path.joinSegments (names ++ [file])) eqn:E; [|reflexivity].
  exfalso. pose proof (joinSegments_dir names file) as H. rewrite E in H.
  apply (f_equal (@List.length ascii)) in H.
  rewrite length_app in H. cbn [List.length] in H. lia.
Qed.

(** Under the root, [join] leaves one separator. *)
Lemma normalize_root file :
  noSlash file = true -> (2 < List.length file)%nat ->
  Path.normalize ("/"%char :: "/"%char :: file) = "/"%char :: file.
Proof.
  intros Hf Hl.
  assert (Hne : file <> []) by (destruct file; [cbn in Hl; lia | discriminate]).
  assert (Hlast : Path.isPathSeparator (last ("/"%char :: "/"%char :: file) "000"%char) = false).
  { change ("/"%char :: "/"%char :: file) with (["/"%char; "/"%char] ++ file).
    now apply last_not_separator. }
  unfold Path.normalize. rewrite Hlast.
  change (Path.isPathSeparator "/") with true. cbn [negb].
  unfold Path.normalizeString.
  cbn [Path.segments Path.isPathSeparator]. change (Ascii.eqb "/" "/") with true. cbv iota.
  rewrite (segments_noSlash _ Hf). cbn [fold_left].
  change (Path.isPathSeparator "/") with true. cbv iota. cbn [fold_left].
  change (Path.normalizeStep false [] []) with (@nil (list ascii)).
  change (Path.normalizeStep false [] []) with (@nil (list ascii)).
  rewrite (normalizeStep_keeps _ _ _ Hl). cbn [rev app Path.joinSegments].
  destruct file; [congruence | reflexivity].
Qed.

Lemma join_nonempty a b :
  a <> [] -> b <> [] -> Path.join a b = Path.normalize (a ++ "/"%char :: b).
Proof. intros Ha Hb. unfold Path.join. destruct a, b; congruence. Qed.

Lemma noSlash_rev l : noSlash (rev l) = noSlash l.
Proof.
  unfold noSlash. induction l as [|c l IH]; [reflexivity|].
  cbn [rev forallb]. rewrite forallb_app, IH. cbn [forallb].
  rewrite andb_true_r. apply andb_comm.
Qed.

(** The loop of [dirname] passes the name and stops at the separator before
    it, unless that separator is the first character. *)
Lemma dirnameLoop_name r : forall f matched,
  noSlash f = true -> (f <> [] \/ matched = false) ->
  Path.dirnameLoop (f ++ "/"%char :: r) matched
  = match r with [] => -1 | _ => Z.of_nat (List.length r) end.
Proof.
  induction f as [|c f IH]; intros matched Hf Hm.
  - destruct Hm as [Hm | ->]; [congruence|].
    cbn [app Path.dirnameLoop]. destruct r; reflexivity.
  - apply andb_true_iff in Hf as [Hc Hf]. apply negb_true_iff in Hc.
    specialize (IH false Hf (or_intror eq_refl)).
    cbn [app Path.dirnameLoop].
    destruct (f ++ "/"%char :: r) eqn:E; [destruct f; discriminate|].
    rewrite Hc. exact IH.
Qed.

Lemma properSegment_nonempty s : properSegment s = true -> s <> [].
Proof.
  unfold properSegment. intros H ->. cbn in H. discriminate.
Qed.

(** The directory part of a normalized absolute path of a file. *)
Lemma dirname_dir names file :
  Forall (fun s => properSegment s = true) names ->
  noSlash file = true -> file <> [] ->
  Path.dirname (dirChars names ++ "/"%char :: file)
  = match names with [] => ["/"%char] | _ => dirChars names end.
Proof.
  intros Hn Hf Hne.
  assert (Hcons : exists rest, dirChars names ++ "/"%char :: file = "/"%char :: rest).
  { destruct names; cbn [dirChars app]; eexists; reflexivity. }
  destruct Hcons as (rest & Erest).
  unfold Path.dirname. rewrite Erest. rewrite <- Erest.
  change (Path.isPathSeparator "/") with true.
  replace (rev (dirChars names ++ "/"%char :: file))
    with (rev file ++ "/"%char :: rev (dirChars names))
    by (rewrite rev_app_distr; cbn [rev]; now rewrite <- app_assoc).
  rewrite dirnameLoop_name;
    [|now rewrite noSlash_rev
     |left; intros E; apply Hne; rewrite <- (rev_involutive file), E; reflexivity].
  destruct names as [|s names]; [reflexivity|].
  inversion Hn as [|? ? Hs _]; subst.
  pose proof (properSegment_nonempty _ Hs) as Hs'.
  assert (Hlen : (2 <= List.length (dirChars (s :: names)))%nat).
  { cbn [dirChars List.length]. rewrite length_app.
    destruct s; [congruence | cbn [List.length]; lia]. }
  destruct (rev (dirChars (s :: names))) eqn:E.
  { apply (f_equal (@List.length ascii)) in E. rewrite length_rev in E.
    cbn [List.length] in E. lia. }
  rewrite <- E, length_rev.
  replace (Z.of_nat (List.length (dirChars (s :: names))) =? -1) with false
    by (symmetry; apply Z.eqb_neq; lia).
  replace (Z.of_nat (List.length (dirChars (s :: names))) =? 1) with false
    by (symmetry; apply Z.eqb_neq; lia).
  cbn [andb]. unfold Path.slice. rewrite Z.sub_0_r, Nat2Z.id.
  change (Z.to_nat 0) with 0%nat. cbn [skipn].
  rewrite firstn_app, firstn_all, Nat.sub_diag. cbn [firstn]. apply app_nil_r.
Qed.

(** The path the program derives for a normalized absolute path. *)
Lemma derived_chars names name sfx :
  Forall (fun s => properSegment s = true) names ->
  noSlash name = true -> name <> [] -> noSlash sfx = true ->
  Path.join (Path.dirname (dirChars names ++ "/"%char :: name ++ glb))
    (Path.basenameExt (dirChars names ++ "/"%char :: name ++ glb) glb ++ sfx ++ glb)
  = dirChars names ++ "/"%char :: name ++ sfx ++ glb.
Proof.
  intros Hn Hf Hne Hs.
  assert (Hglb : noSlash glb = true) by reflexivity.
  replace (dirChars names ++ "/"%char :: name ++ glb)
    with ((dirChars names ++ ["/"%char]) ++ name ++ glb) at 2
    by (now rewrite <- app_assoc).
  rewrite (basenameExt_strips_glb _ _ Hf Hne) by (right; eexists; reflexivity).
  rewrite dirname_dir;
    [|exact Hn|now rewrite noSlash_app, Hf|destruct name; [congruence | discriminate]].
  assert (Hfile : noSlash (name ++ sfx ++ glb) = true)
    by (now rewrite !noSlash_app, Hf, Hs).
  assert (Hlen : (2 < List.length (name ++ sfx ++ glb))%nat)
    by (rewrite !length_app; cbn; lia).
  assert (Hne' : name ++ sfx ++ glb <> []) by (destruct name; [congruence | discriminate]).
  destruct names as [|s names].
  - rewrite join_nonempty by (assumption || discriminate).
    cbn [app dirChars]. now apply normalize_root.
  - rewrite join_nonempty by (assumption || discriminate).
    now apply normalize_dir.
Qed.

Lemma chars_file_path (dirs : list string) (name : string) :
  chars (absoluteDir dirs ++ "/" ++ name ++ ".glb")
  = dirChars (map chars dirs) ++ "/"%char :: chars name ++ glb.
Proof. now rewrite !chars_app, chars_absoluteDir. Qed.

Lemma derived_path (dirs : list string) (name sfx : string) :
  Forall (fun s => properSegment (chars s) = true) dirs ->
  noSlash (chars name) = true -> name <> EmptyString ->
  noSlash (chars sfx) = true ->
  let filePath := (absoluteDir dirs ++ "/" ++ name ++ ".glb")%string in
  path_join (path_dirname filePath) (path_basename_ext filePath ".glb" ++ sfx ++ ".glb")
  = (absoluteDir dirs ++ "/" ++ name ++ sfx ++ ".glb")%string.
Proof.
  intros Hd Hn Hne Hs. cbv zeta.
  assert (Hne' : chars name <> []) by (destruct name; [congruence | discriminate]).
  assert (Hd' : Forall (fun s => properSegment s = true) (map chars dirs)).
  { apply Forall_map. exact Hd. }
  unfold path_join, path_dirname, path_basename_ext.
  rewrite chars_file_path, chars_text, chars_app, chars_text, chars_app.
  change (chars ".glb") with glb.
  rewrite (derived_chars _ _ _ Hd' Hn Hne' Hs).
  apply chars_inj. rewrite chars_text, !chars_app, chars_absoluteDir. reflexivity.
Qed.

End DirectoryFacts.

(** X17. The file is written beside its input.  For a normalized absolute
    path (a directory given by the names on the way down from the root,
    none of them empty, [.] or [..], then a name without separator and
    [.glb]) the output path is the same directory, the same name, the suffix
    of the operation and [.glb]: nothing of the directory is rewritten, and
    a file directly under the root stays under the root. *)
Theorem output_beside_input (dirs : list string) (name : string) (mode : CompressionMode) :
  Forall (fun s => properSegment (chars s) = true) dirs ->
  noSlash (chars name) = true -> name <> EmptyString ->
  let dir := absoluteDir dirs in
  let filePath := dir ++ "/" ++ name ++ ".glb" in
  transformOutputPath filePath = dir ++ "/" ++ name ++ "_optimized.glb"
  /\ compressOutputPath filePath mode = dir ++ "/" ++ name ++ modeSuffix mode ++ ".glb"
  /\ path_dirname filePath = match dirs with [] => "/" | _ => dir end.
Proof.
  intros Hd Hn Hne. cbv zeta. split; [|split].
  - exact (derived_path dirs name "_optimized" Hd Hn Hne eq_refl).
  - apply (derived_path dirs name (modeSuffix mode) Hd Hn Hne).
    destruct mode; reflexivity.
  - unfold path_dirname. rewrite chars_file_path, dirname_dir.
    + destruct dirs as [|s dirs]; [reflexivity|].
      change (text (dirChars (map chars (s :: dirs))) = absoluteDir (s :: dirs)).
      rewrite <- chars_absoluteDir. apply text_chars.
    + apply Forall_map. exact Hd.
    + now rewrite noSlash_app, Hn.
    + destruct (chars name); discriminate.
Qed.

Lemma output_beside_input_witness :
  transformOutputPath "/Users/me/models/chair.glb" = "/Users/me/models/chair_optimized.glb"
  /\ compressOutputPath "/Users/me/models/chair.glb" ktx = "/Users/me/models/chair_ktx.glb"
  /\ path_dirname "/Users/me/models/chair.glb" = "/Users/me/models".
Proof.
  apply (output_beside_input ["Users"; "me"; "models"] "chair" ktx).
  - repeat constructor.
  - reflexivity.
  - discriminate.
Defined.

(** ** The output path, by the shape of the input path *)





